(** * media-processor: the analysis and transcode-decision pipeline

    A shallow embedding of the Go sources

    - [pkg/media/info.go]   (package [media]),
    - [pkg/ffmpeg]          (package [ffmpeg]:  the plan builders),
    - [pkg/audio]           (package [audio]:   unsupported-audio remediation),
    - [pkg/proxy/proxy.go]  (package [proxy]:   the proxy workflow),
    - [main.go]             (package [main]:    the monolithic variant),

    followed by the properties proved about them.  Go packages become
    modules of the same name, so that [media.GetBitDepth] below is the Go
    function [media.GetBitDepth].  Go [string]s are byte strings
    ([String.string]), read as UTF-8 text where Go reads them character
    by character; Go [int]s are integers ([Z]; the program never does
    arithmetic on them, it only compares), a [rune] is the number of its
    character ([Z]), slices are lists. *)

From Stdlib Require Import String Ascii List ZArith Lia Bool.
Import ListNotations.
Open Scope list_scope.
Open Scope string_scope.

(** ** The parts of the Go standard library the program calls *)

(** Package [unicode/utf8]: the characters of a string that is read as
    UTF-8 text. *)
Module utf8.

Definition RuneError : Z := 65533.
Definition RuneSelf : Z := 128.
Definition MaxRune : Z := 1114111.

(** A byte as a number, and the byte of a number. *)
Definition byte (a : ascii) : Z := Z.of_nat (nat_of_ascii a).
Definition chr (b : Z) : ascii := ascii_of_nat (Z.to_nat b).

(** [s[i]], for an index in range. *)
Definition index (s : string) (i : nat) : Z :=
  match String.get i s with
  | Some a => byte a
  | None => 0%Z
  end.

(** For a first byte from [0xC2] to [0xF4], which starts a character of
    more than one byte: the size of the character, and the range its
    second byte is to be in (the tables [first] and [acceptRanges]). *)
Definition size (s0 : Z) : nat :=
  if (s0 <? 224)%Z then 2 else if (s0 <? 240)%Z then 3 else 4.
Definition accept_lo (s0 : Z) : Z :=
  if (s0 =? 224)%Z then 160 else if (s0 =? 240)%Z then 144 else 128.
Definition accept_hi (s0 : Z) : Z :=
  if (s0 =? 237)%Z then 159 else if (s0 =? 244)%Z then 143 else 191.

(** [utf8.DecodeRuneInString(s)]: the first character of [s] and its
    width in bytes; [(RuneError, 0)] for the empty string, and
    [(RuneError, 1)] where the first bytes are no character in its
    shortest encoding. *)
Definition DecodeRuneInString (s : string) : Z * nat :=
  let n := String.length s in
  if (n <? 1)%nat then (RuneError, 0%nat)
  else
    let s0 := index s 0 in
    if (s0 <? RuneSelf)%Z then (s0, 1%nat)
    else if ((s0 <? 194) || (244 <? s0))%Z then (RuneError, 1%nat)
    else
      let sz := size s0 in
      if (n <? sz)%nat then (RuneError, 1%nat)
      else
        let s1 := index s 1 in
        if ((s1 <? accept_lo s0) || (accept_hi s0 <? s1))%Z
        then (RuneError, 1%nat)
        else if (sz <=? 2)%nat then
          (Z.lor (Z.shiftl (Z.land s0 31) 6) (Z.land s1 63), 2%nat)
        else
          let s2 := index s 2 in
          if ((s2 <? 128) || (191 <? s2))%Z then (RuneError, 1%nat)
          else if (sz <=? 3)%nat then
            (Z.lor (Z.lor (Z.shiftl (Z.land s0 15) 12)
                      (Z.shiftl (Z.land s1 63) 6))
               (Z.land s2 63), 3%nat)
          else
            let s3 := index s 3 in
            if ((s3 <? 128) || (191 <? s3))%Z then (RuneError, 1%nat)
            else
              (Z.lor (Z.lor (Z.lor (Z.shiftl (Z.land s0 7) 18)
                               (Z.shiftl (Z.land s1 63) 12))
                        (Z.shiftl (Z.land s2 63) 6))
                 (Z.land s3 63), 4%nat).

(** [utf8.AppendRune(nil, r)]: the encoding of the character [r], and
    the encoding of [RuneError] for a number that is no character. *)
Definition AppendRune (r : Z) : string :=
  let tx (b : Z) := chr (Z.lor 128 (Z.land b 63)) in
  if ((0 <=? r) && (r <=? 127))%Z then String (chr r) ""
  else if ((0 <=? r) && (r <=? 2047))%Z then
    String (chr (Z.lor 192 (Z.shiftr r 6))) (String (tx r) "")
  else if (((0 <=? r) && (r <? 55296)) || ((57343 <? r) && (r <=? 65535)))%Z
  then
    String (chr (Z.lor 224 (Z.shiftr r 12)))
      (String (tx (Z.shiftr r 6)) (String (tx r) ""))
  else if ((65535 <? r) && (r <=? MaxRune))%Z then
    String (chr (Z.lor 240 (Z.shiftr r 18)))
      (String (tx (Z.shiftr r 12))
         (String (tx (Z.shiftr r 6)) (String (tx r) "")))
  else String (chr 239) (String (chr 191) (String (chr 189) "")).

End utf8.

(** Package [unicode].  The case tables of the package are data of the
    Go library, of which the program's source has nothing: they are what
    [To_LowerCase] stands for, the value of
    [unicode.To(unicode.LowerCase, r)] for a character [r] above ASCII. *)
Module unicode.

Definition MaxASCII : Z := 127.

Class CaseTables : Type := { To_LowerCase : Z -> Z }.

(** [unicode.ToLower(r)]. *)
Definition ToLower {tables : CaseTables} (r : Z) : Z :=
  if (r <=? MaxASCII)%Z then
    if ((65 <=? r) && (r <=? 90))%Z then (r + 32)%Z else r
  else To_LowerCase r.

End unicode.

(** Package [strings], on byte strings. *)
Module strings.

(** [strings.HasPrefix(s, prefix)]. *)
Fixpoint HasPrefix (s prefix : string) : bool :=
  match prefix, s with
  | EmptyString, _ => true
  | String _ _, EmptyString => false
  | String c p', String d s' => Ascii.eqb c d && HasPrefix s' p'
  end.

(** [strings.Contains(s, substr)]: [substr] occurs at some offset of [s]. *)
Fixpoint Contains (s substr : string) : bool :=
  HasPrefix s substr ||
  match s with
  | EmptyString => false
  | String _ s' => Contains s' substr
  end.

(** [strings.Split(s, sep)] for a separator [sep] of one byte, which is how
    the program calls it (["\n"] and ["-"]): the fields between the
    occurrences of the separator, in order; never the empty slice. *)
Fixpoint Split (s : string) (sep : ascii) : list string :=
  match s with
  | EmptyString => [EmptyString]
  | String c s' =>
      if Ascii.eqb c sep then EmptyString :: Split s' sep
      else match Split s' sep with
           | [] => [String c EmptyString]
           | f :: fs => String c f :: fs
           end
  end.

(** [strings.HasSuffix(s, suffix)]. *)
Definition HasSuffix (s suffix : string) : bool :=
  let n := String.length s in
  let k := String.length suffix in
  (k <=? n)%nat && String.eqb (substring (n - k) k s) suffix.

(** [strings.TrimSuffix(s, suffix)]: [s] without the trailing [suffix],
    [s] itself when it does not end in [suffix]. *)
Definition TrimSuffix (s suffix : string) : string :=
  if HasSuffix s suffix
  then substring 0 (String.length s - String.length suffix) s
  else s.

(** [strings.Map(mapping, s)]: the characters of [s], read as
    [for _, c := range s] reads them (a byte that starts no character is
    the character [RuneError]), each replaced by its image and encoded
    again; a character with a negative image is dropped.  [skip] is the
    number of bytes still to pass of the character that was read last. *)
Fixpoint Map_from (mapping : Z -> Z) (s : string) (skip : nat) : string :=
  match s with
  | EmptyString => EmptyString
  | String _ s' =>
      match skip with
      | S skip' => Map_from mapping s' skip'
      | O =>
          let (c, width) := utf8.DecodeRuneInString s in
          let r := mapping c in
          (if (0 <=? r)%Z then utf8.AppendRune r else EmptyString)
          ++ Map_from mapping s' (width - 1)
      end
  end.

Definition Map (mapping : Z -> Z) (s : string) : string := Map_from mapping s 0.

(** [strings.ToLower(s)].  On text that is ASCII the letters [A] to [Z]
    become [a] to [z] and every other byte stays; any other text is
    mapped character by character with [unicode.ToLower]. *)
Definition lower (c : ascii) : ascii :=
  let n := nat_of_ascii c in
  if ((65 <=? n) && (n <=? 90))%nat then ascii_of_nat (n + 32) else c.

Fixpoint lower_bytes (s : string) : string :=
  match s with
  | EmptyString => EmptyString
  | String c s' => String (lower c) (lower_bytes s')
  end.

Fixpoint isASCII (s : string) : bool :=
  match s with
  | EmptyString => true
  | String c s' => (utf8.byte c <? utf8.RuneSelf)%Z && isASCII s'
  end.

Definition ToLower {tables : unicode.CaseTables} (s : string) : string :=
  if isASCII s then lower_bytes s else Map unicode.ToLower s.

(** [strings.TrimRight(s, cutset)] for a cutset of one byte, which is how
    the program calls it (["/"]): [s] without its trailing bytes [cut]. *)
Fixpoint TrimRight (s : string) (cut : ascii) : string :=
  match s with
  | EmptyString => EmptyString
  | String c s' =>
      match TrimRight s' cut with
      | EmptyString => if Ascii.eqb c cut then EmptyString else String c EmptyString
      | t => String c t
      end
  end.

End strings.

(** Package [slices]. *)
Module slices.

(** [slices.Contains(s, v)] on a slice of strings. *)
Definition Contains (s : list string) (v : string) : bool :=
  existsb (String.eqb v) s.

End slices.

(** Go's [error] values, kept symbolic: an error is the call that made
    it.  [errors.New(text)]; [fmt.Errorf(format, args...)] (with [%w] the
    wrapped error is among the arguments); and package [strconv]'s
    [*NumError]. *)
Inductive error : Type :=
| errors_New (text : string)
| fmt_Errorf (format : string) (args : list fmt_arg)
| strconv_NumError (Func Num : string) (Err : error)
with fmt_arg : Type :=
| arg_string (s : string)
| arg_int (n : Z)
| arg_error (e : error).

(** Package [strconv]. *)
Module strconv.

Definition ErrRange : error := errors_New "value out of range".
Definition ErrSyntax : error := errors_New "invalid syntax".

Definition syntaxError (fn str : string) : error :=
  strconv_NumError fn str ErrSyntax.
Definition rangeError (fn str : string) : error :=
  strconv_NumError fn str ErrRange.

Definition is_digit (c : ascii) : bool :=
  ((48 <=? nat_of_ascii c) && (nat_of_ascii c <=? 57))%nat.

Definition digit_val (c : ascii) : Z := Z.of_nat (nat_of_ascii c - 48).

(** How a parse ends: well, or with [ErrSyntax] or [ErrRange]. *)
Inductive outcome : Type := ok | syntax | range.

(** The digit loop of [ParseUint(s, 10, 64)]: bytes are read left to
    right; a byte that is no decimal digit is a syntax error (value 0), a
    value above [2^64-1] a range error (the value is then [2^64-1]),
    whichever comes first. *)
Fixpoint ParseUint (s : string) (n : Z) : Z * outcome :=
  match s with
  | EmptyString => (n, ok)
  | String c s' =>
      if negb (is_digit c) then (0%Z, syntax)
      else
        let n1 := (n * 10 + digit_val c)%Z in
        if (n1 >? 2 ^ 64 - 1)%Z then ((2 ^ 64 - 1)%Z, range)
        else ParseUint s' n1
  end.

(** [strconv.Atoi(s)] on a 64-bit platform ([int] is [int64]): an optional
    sign and decimal digits.  On a syntax error the value is [0]; on a
    range error it is the nearest [int64].  (The fast path that [Atoi]
    takes for short strings computes the value [ParseInt(s, 10, 0)]
    would.) *)
Definition Atoi (s : string) : Z * option error :=
  match s with
  | EmptyString => (0%Z, Some (syntaxError "Atoi" s))
  | String c s' =>
      let neg := Ascii.eqb c "-" in
      let digits := if Ascii.eqb c "-" || Ascii.eqb c "+" then s' else s in
      match digits with
      | EmptyString => (0%Z, Some (syntaxError "Atoi" s))
      | _ =>
          match ParseUint digits 0 with
          | (_, syntax) => (0%Z, Some (syntaxError "Atoi" s))
          | (un, _) =>
              let cutoff := (2 ^ 63)%Z in
              if negb neg && (un >=? cutoff)%Z
              then ((cutoff - 1)%Z, Some (rangeError "Atoi" s))
              else if neg && (un >? cutoff)%Z
              then ((- cutoff)%Z, Some (rangeError "Atoi" s))
              else ((if neg then - un else un)%Z, None)
          end
      end
  end.

End strconv.

(** Package [regexp], as far as the catalog pattern needs it: character
    classes, concatenation, greedy repetition, capture groups and the two
    text anchors, matched with Go's leftmost-first (backtracking
    priority) semantics.  The text is read as UTF-8: a class takes one
    character, of one to four bytes, and a byte that starts no character
    counts as the character [RuneError]; offsets count bytes. *)
Module regexp.

Inductive re : Type :=
| BeginText                        (* ^  (no m flag) *)
| EndText                          (* $  (no m flag) *)
| Class (p : Z -> bool)            (* one character of a class *)
| Cat (r1 r2 : re)                 (* r1 r2 *)
| Star (r : re)                    (* r*, greedy *)
| Capture (i : nat) (r : re).      (* the i-th capturing group *)

(** r+ and r{n}. *)
Definition Plus (r : re) : re := Cat r (Star r).
Fixpoint Repeat (n : nat) (r : re) : re :=
  match n with
  | O => Star (Class (fun _ => false))
  | S O => r
  | S n' => Cat r (Repeat n' r)
  end.

(** A compiled expression: the text it was compiled from, its syntax tree
    and [SubexpNames()], whose element 0 is the whole expression's (empty)
    name. *)
Record Regexp : Type := MustCompile {
  source : string;
  expr : re;
  SubexpNames : list string
}.

(** The text captured so far, by group number; the latest first. *)
Definition captures := list (nat * string).

Fixpoint capture (c : captures) (i : nat) : string :=
  match c with
  | [] => EmptyString
  | (j, s) :: c' => if (i =? j)%nat then s else capture c' i
  end.

(** [s[n:]]. *)
Fixpoint from (n : nat) (s : string) : string :=
  match n, s with
  | S n', String _ s' => from n' s'
  | _, _ => s
  end.

(** [run r i s c k]: match [r] at offset [i], where the rest of the text
    is [s], and hand the offset, text and captures after it to the
    continuation [k]; the first alternative that makes [k] succeed wins.
    A repetition first tries one more round (greedy); a round that
    consumes nothing is not repeated, so there are no more rounds than
    bytes left, which is what [rounds] counts down from. *)
Fixpoint run (r : re) (i : nat) (s : string) (c : captures)
    (k : nat -> string -> captures -> option captures) {struct r}
  : option captures :=
  match r with
  | BeginText => if (i =? 0)%nat then k i s c else None
  | EndText => match s with EmptyString => k i s c | String _ _ => None end
  | Class p =>
      let (c0, width) := utf8.DecodeRuneInString s in
      match width with
      | O => None
      | S _ => if p c0 then k (i + width)%nat (from width s) c else None
      end
  | Cat r1 r2 => run r1 i s c (fun i' s' c' => run r2 i' s' c' k)
  | Star r1 =>
      (fix rounds (n : nat) (i : nat) (s : string) (c : captures) {struct n}
         : option captures :=
         match n with
         | O => k i s c
         | S n' =>
             match run r1 i s c
                     (fun i' s' c' =>
                        if (i <? i')%nat then rounds n' i' s' c' else None)
             with
             | Some m => Some m
             | None => k i s c
             end
         end) (String.length s) i s c
  | Capture j r1 =>
      run r1 i s c
        (fun i' s' c' => k i' s' ((j, substring 0 (i' - i) s) :: c'))
  end.

(** The match that starts at offset [i], if there is one. *)
Definition match_at (r : re) (i : nat) (s : string) : option captures :=
  run r i s [] (fun i' _ c => Some ((0, substring 0 (i' - i) s) :: c)).

(** The leftmost match: the offsets at which a character starts are
    tried from left to right.  [skip] is the number of bytes still to pass
    of the character at the offset that was tried last. *)
Fixpoint search (r : re) (i : nat) (s : string) (skip : nat)
  : option captures :=
  match skip with
  | O =>
      match match_at r i s with
      | Some c => Some c
      | None =>
          match s with
          | EmptyString => None
          | String _ s' =>
              search r (S i) s' (snd (utf8.DecodeRuneInString s) - 1)
          end
      end
  | S skip' =>
      match s with
      | EmptyString => None
      | String _ s' => search r (S i) s' skip'
      end
  end.

(** [re.FindStringSubmatch(s)]: the text of the leftmost match and of
    each of its groups (the empty string for a group that took no part);
    the empty slice when nothing matches. *)
Definition FindStringSubmatch (rx : Regexp) (s : string) : list string :=
  match search (expr rx) 0 s 0 with
  | Some c => map (capture c) (seq 0 (List.length (SubexpNames rx)))
  | None => []
  end.

(** The classes of the catalog pattern: [.] (any character but the line
    feed), [\s] (tab, line feed, form feed, carriage return, space) and
    [[0-9]]. *)
Definition any_char (c : Z) : bool := negb (c =? 10)%Z.
Definition space (c : Z) : bool :=
  ((c =? 9) || (c =? 10) || (c =? 12) || (c =? 13) || (c =? 32))%Z.
Definition digit (c : Z) : bool := ((48 <=? c) && (c <=? 57))%Z.

End regexp.

(** Package [path/filepath] on a system whose separator is [/] and whose
    paths have no volume names. *)
Module filepath.

Definition Separator : ascii := "/".
Definition IsPathSeparator (c : ascii) : bool := Ascii.eqb c Separator.

(** [strings.Join(elem, "/")]. *)
Fixpoint join_sep (elem : list string) : string :=
  match elem with
  | [] => EmptyString
  | [e] => e
  | e :: rest => e ++ String Separator (join_sep rest)
  end.

(** One element of the path read by [Clean], with [out] the elements
    written so far, the last one first: empty elements and [.] are
    dropped; [..] removes the element before it when there is one to
    remove, is dropped at the root, and is kept at the start of a path
    that is not rooted; any other element is written. *)
Definition clean_step (rooted : bool) (out : list string) (e : string)
  : list string :=
  if String.eqb e "" then out
  else if String.eqb e "." then out
  else if String.eqb e ".." then
    match out with
    | top :: below =>
        if String.eqb top ".." then e :: out else below
    | [] => if rooted then out else [e]
    end
  else e :: out.

(** [filepath.Clean(path)]: the shortest path naming what [path] names,
    by reading [path] element by element. *)
Definition Clean (path : string) : string :=
  match path with
  | EmptyString => "."
  | String c _ =>
      let rooted := IsPathSeparator c in
      let out := fold_left (clean_step rooted) (strings.Split path Separator) [] in
      if rooted then String Separator (join_sep (rev out))
      else match out with
           | [] => "."
           | _ => join_sep (rev out)
           end
  end.

(** [filepath.Split(path)]: the path up to and with its last separator,
    and the rest; all of it is the rest when there is no separator. *)
Fixpoint Split (path : string) : string * string :=
  match path with
  | EmptyString => (EmptyString, EmptyString)
  | String c p' =>
      let (dir, file) := Split p' in
      if IsPathSeparator c then (String c dir, file)
      else match dir with
           | EmptyString => (EmptyString, String c file)
           | _ => (String c dir, file)
           end
  end.

(** [filepath.Dir(path)]: all but the last element of the path, cleaned. *)
Definition Dir (path : string) : string := Clean (fst (Split path)).

(** [path] without its trailing separators. *)
Fixpoint strip_trailing_slashes (path : string) : string :=
  match path with
  | EmptyString => EmptyString
  | String c p' =>
      match strip_trailing_slashes p' with
      | EmptyString =>
          if IsPathSeparator c then EmptyString else String c EmptyString
      | t => String c t
      end
  end.

(** [filepath.Base(path)]: the last element of the path; ["."] for the
    empty path, ["/"] for a path of separators only. *)
Definition Base (path : string) : string :=
  match path with
  | EmptyString => "."
  | _ =>
      match snd (Split (strip_trailing_slashes path)) with
      | EmptyString => String Separator EmptyString
      | b => b
      end
  end.

(** The suffix of [file] that starts at its last dot, if it has one. *)
Fixpoint last_dot (file : string) : option string :=
  match file with
  | EmptyString => None
  | String c f' =>
      match last_dot f' with
      | Some e => Some e
      | None => if Ascii.eqb c "." then Some file else None
      end
  end.

(** [filepath.Ext(path)]: the suffix of the last element of [path] that
    starts at its last dot; empty when it has no dot. *)
Definition Ext (path : string) : string :=
  match last_dot (snd (Split path)) with
  | Some e => e
  | None => EmptyString
  end.

(** [filepath.Join(elem...)]: the elements, from the first one that is not
    empty, joined by separators and cleaned; empty when all are empty. *)
Fixpoint Join (elem : list string) : string :=
  match elem with
  | [] => EmptyString
  | e :: rest =>
      if String.eqb e "" then Join rest else Clean (join_sep elem)
  end.

End filepath.

(** ** The data model *)

(** One element of [streams] in the probe's output, and the probe's
    output itself (the struct types [media.MediaInfo] and
    [main.mediaInfo], which are the same). *)
Record Stream : Type := {
  Index : Z;
  CodecType : string;
  CodecName : string;
  CodecProfile : string;
  Width : Z;
  Height : Z;
  Bitrate : string;
  PixelFormat : string
}.

Record Format : Type := {
  FilePath : string;
  Duration : string;
  FormatBitrate : string
}.

Record MediaInfo : Type := {
  format : Format;
  Streams : list Stream
}.

(** The value of [var info MediaInfo]. *)
Definition zeroMediaInfo : MediaInfo :=
  {| format := {| FilePath := ""; Duration := ""; FormatBitrate := "" |};
     Streams := [] |}.

(** ** The system the program runs on *)

(** Package [os]: what the program reads of a file's [FileInfo] and of a
    directory entry. *)
Module os.

Definition FileMode : Type := N.
Record FileInfo : Type := { Mode : FileMode }.
Record DirEntry : Type := { Name : string; IsDir : bool }.

End os.

(** What the program does to the world around it, one event per call:
    the directories it asks for, the renames it asks for, the processes it
    runs (by their argument vectors), the lines it logs and the lines it
    prints (the format as the source has it, and the arguments). *)
Inductive event : Type :=
| ev_MkdirAll (path : string) (perm : os.FileMode)
| ev_Rename (oldpath newpath : string)
| ev_run (argv : list string)
| ev_log (format : string) (args : list fmt_arg)
| ev_print (format : string) (args : list fmt_arg).

(** The state the program acts on: the file system, and the events so
    far, in order. *)
Record World (FS : Type) : Type := {
  fs : FS;
  trace : list event
}.
Arguments fs {FS} _.
Arguments trace {FS} _.

(** What is left open: the file system's answers to [os.Stat],
    [os.MkdirAll] and [os.Rename]; what a process that is run to its end
    prints (standard output and error together), whether it fails, and the
    file system it leaves; and [json.Unmarshal] of the probe's output
    into a [MediaInfo]. *)
Class System (FS : Type) : Type := {
  sys_Stat : string -> FS -> os.FileInfo + error;
  sys_MkdirAll : string -> os.FileMode -> FS -> option error * FS;
  sys_Rename : string -> string -> FS -> option error * FS;
  sys_run : list string -> World FS -> (string * option error) * FS;
  sys_Unmarshal : string -> MediaInfo -> MediaInfo * option error
}.

(** Computations on the world. *)
Definition M (FS A : Type) : Type := World FS -> A * World FS.

Definition ret {FS A : Type} (a : A) : M FS A := fun w => (a, w).

Definition bind {FS A B : Type} (m : M FS A) (k : A -> M FS B) : M FS B :=
  fun w => let (a, w') := m w in k a w'.

Declare Scope go_scope.
Delimit Scope go_scope with go.
Notation "x <- m ;; k" := (bind m (fun x => k))
  (at level 61, m at next level, right associativity) : go_scope.
Notation "' pat <- m ;; k" := (bind m (fun x => match x with pat => k end))
  (at level 61, pat pattern, m at next level, right associativity) : go_scope.
Open Scope go_scope.

(** [for _, x := range l { s = body(s, x) }]. *)
Fixpoint for_range {FS A S : Type} (l : list A) (body : S -> A -> M FS S)
    (s : S) : M FS S :=
  match l with
  | [] => ret s
  | x :: l' => s' <- body s x ;; for_range l' body s'
  end.

(** The world after one more event. *)
Definition record {FS : Type} (e : event) (w : World FS) : World FS :=
  {| fs := fs w; trace := (trace w ++ [e])%list |}.

Section Calls.
Context {FS : Type} {sys : System FS}.

(** [os.Stat(name)]. *)
Definition os_Stat (name : string) : M FS (os.FileInfo + error) :=
  fun w => (sys_Stat name (fs w), w).

(** [os.MkdirAll(path, perm)]. *)
Definition os_MkdirAll (path : string) (perm : os.FileMode)
  : M FS (option error) :=
  fun w =>
    let (err, fs') := sys_MkdirAll path perm (fs w) in
    (err, {| fs := fs'; trace := (trace w ++ [ev_MkdirAll path perm])%list |}).

(** [os.Rename(oldpath, newpath)]. *)
Definition os_Rename (oldpath newpath : string) : M FS (option error) :=
  fun w =>
    let (err, fs') := sys_Rename oldpath newpath (fs w) in
    (err, {| fs := fs'; trace := (trace w ++ [ev_Rename oldpath newpath])%list |}).

(** [exec.Command(name, arg...).CombinedOutput()]: the process is run to
    its end; what it printed and whether it failed are returned. *)
Definition exec_CombinedOutput (cmd : list string)
  : M FS (string * option error) :=
  fun w =>
    let (r, fs') := sys_run cmd w in
    (r, {| fs := fs'; trace := (trace w ++ [ev_run cmd])%list |}).

(** [exec.Command(name, arg...).Run()] with the process's standard output
    and error set to the program's own: the same, and what the process
    prints is not returned. *)
Definition exec_Run (cmd : list string) : M FS (option error) :=
  fun w =>
    let (r, fs') := sys_run cmd w in
    (snd r, {| fs := fs'; trace := (trace w ++ [ev_run cmd])%list |}).

(** [log.Printf(format, args...)]. *)
Definition log_Printf (fmt : string) (args : list fmt_arg) : M FS unit :=
  fun w => (tt, record (ev_log fmt args) w).

(** [fmt.Printf(format, args...)]. *)
Definition fmt_Printf (fmt : string) (args : list fmt_arg) : M FS unit :=
  fun w => (tt, record (ev_print fmt args) w).

End Calls.

(** A Go [map[string]string], as the list of its entries. *)
Definition gomap : Type := list (string * string).

(** [v, ok := m[k]]. *)
Fixpoint map_lookup (m : gomap) (k : string) : option string :=
  match m with
  | [] => None
  | (k', v) :: m' => if String.eqb k k' then Some v else map_lookup m' k
  end.

(** [m[k]]: the empty string when [k] is no key of [m]. *)
Definition map_get (m : gomap) (k : string) : string :=
  match map_lookup m k with Some v => v | None => EmptyString end.

(** [m[k] = v]. *)
Definition map_set (m : gomap) (k v : string) : gomap := (k, v) :: m.

(** ** Package [media] (pkg/media/info.go) *)
Module media.

(** [Properties] (info.go, l.34-40). *)
Record Properties : Type := {
  HasVideoStream : bool;
  HasAudioStream : bool;
  IsVertical : bool;
  UnsupportedAudioFormat : bool;
  HighestBitDepth : Z
}.

(** The value of [var props Properties]. *)
Definition zeroProperties : Properties :=
  {| HasVideoStream := false; HasAudioStream := false; IsVertical := false;
     UnsupportedAudioFormat := false; HighestBitDepth := 0 |}.

(** The assignments to the fields of [props]. *)
Definition set_HasVideoStream (p : Properties) (b : bool) : Properties :=
  {| HasVideoStream := b; HasAudioStream := HasAudioStream p;
     IsVertical := IsVertical p;
     UnsupportedAudioFormat := UnsupportedAudioFormat p;
     HighestBitDepth := HighestBitDepth p |}.
Definition set_HasAudioStream (p : Properties) (b : bool) : Properties :=
  {| HasVideoStream := HasVideoStream p; HasAudioStream := b;
     IsVertical := IsVertical p;
     UnsupportedAudioFormat := UnsupportedAudioFormat p;
     HighestBitDepth := HighestBitDepth p |}.
Definition set_IsVertical (p : Properties) (b : bool) : Properties :=
  {| HasVideoStream := HasVideoStream p; HasAudioStream := HasAudioStream p;
     IsVertical := b;
     UnsupportedAudioFormat := UnsupportedAudioFormat p;
     HighestBitDepth := HighestBitDepth p |}.
Definition set_UnsupportedAudioFormat (p : Properties) (b : bool)
  : Properties :=
  {| HasVideoStream := HasVideoStream p; HasAudioStream := HasAudioStream p;
     IsVertical := IsVertical p;
     UnsupportedAudioFormat := b;
     HighestBitDepth := HighestBitDepth p |}.
Definition set_HighestBitDepth (p : Properties) (d : Z) : Properties :=
  {| HasVideoStream := HasVideoStream p; HasAudioStream := HasAudioStream p;
     IsVertical := IsVertical p;
     UnsupportedAudioFormat := UnsupportedAudioFormat p;
     HighestBitDepth := d |}.

(** The pattern of [GetBitDepth] (info.go, l.129), and its syntax tree:
    what [regexp.MustCompile] makes of it. *)
Definition pixelFormatExpStr : string :=
  "^.{5}\s(?<name>[^\r\n\s=]*)\s*(?P<nb_components>[0-9])\s*(?P<bpp>[0-9]*)\s*(?P<bit_depth>(?:[0-9]+-)*[0-9]+)$".

(** The class of the characters of a name: none of carriage return, line
    feed, white space and the equals sign. *)
Definition name_char (c : Z) : bool :=
  negb ((c =? 13)%Z || (c =? 10)%Z || regexp.space c || (c =? 61)%Z).

Definition pixelFormatExp : regexp.Regexp :=
  let spaces := regexp.Star (regexp.Class regexp.space) in
  let digit := regexp.Class regexp.digit in
  let dash := regexp.Class (Z.eqb 45) in
  regexp.MustCompile pixelFormatExpStr
    (regexp.Cat regexp.BeginText
    (regexp.Cat (regexp.Repeat 5 (regexp.Class regexp.any_char))
    (regexp.Cat (regexp.Class regexp.space)
    (regexp.Cat (regexp.Capture 1 (regexp.Star (regexp.Class name_char)))
    (regexp.Cat spaces
    (regexp.Cat (regexp.Capture 2 digit)
    (regexp.Cat spaces
    (regexp.Cat (regexp.Capture 3 (regexp.Star digit))
    (regexp.Cat spaces
    (regexp.Cat (regexp.Capture 4
                   (regexp.Cat
                      (regexp.Star (regexp.Cat (regexp.Plus digit) dash))
                      (regexp.Plus digit)))
                regexp.EndText))))))))))
    [""; "name"; "nb_components"; "bpp"; "bit_depth"].

(** The loop of [processPixelFormatMatch] over [SubexpNames()], from index
    [i] on.  ([match[i]] is in range: a match has an element for each
    name.) *)
Fixpoint collectSubexp (names : list string) (i : nat) (match_ : list string)
    (result : gomap) : gomap :=
  match names with
  | [] => result
  | name :: names' =>
      collectSubexp names' (S i) match_
        (if negb (i =? 0)%nat && negb (String.eqb name "")
         then map_set result name (nth i match_ EmptyString)
         else result)
  end.

(** [processPixelFormatMatch] (info.go, l.81-116). *)
Definition processPixelFormatMatch (match_ : list string)
    (pixelFormat : string) (pixelFormatExp : regexp.Regexp)
  : Z * option error :=
  let result := collectSubexp (regexp.SubexpNames pixelFormatExp) 0 match_ [] in
  if String.eqb (map_get result "name") pixelFormat then
    match map_lookup result "bit_depth" with
    | None =>
        ((-1)%Z, Some (fmt_Errorf "bit depth not found for pixel format %s"
                         [arg_string pixelFormat]))
    | Some bitDepthStr =>
        match map_lookup result "nb_components" with
        | None =>
            ((-1)%Z,
             Some (fmt_Errorf "number of components not found for pixel format %s"
                     [arg_string pixelFormat]))
        | Some nbComponentsStr =>
            match strconv.Atoi nbComponentsStr with
            | (_, Some err) =>
                ((-1)%Z,
                 Some (fmt_Errorf "error converting number of components to int: %w"
                         [arg_error err]))
            | (nbComponentsInt, None) =>
                let bitDepthStr :=
                  if (nbComponentsInt >? 1)%Z
                  then hd EmptyString (strings.Split bitDepthStr "-")
                  else bitDepthStr in
                let (bitDepth, _) := strconv.Atoi bitDepthStr in
                (bitDepth, None)
            end
        end
    end
  else
    ((-1)%Z, Some (fmt_Errorf "pixel format %s not found" [arg_string pixelFormat])).

(** The loop of [GetBitDepth] over the lines of the catalog: the depth of
    the first line that matches the pattern and that
    [processPixelFormatMatch] accepts. *)
Fixpoint scanCatalog (outputArr : list string) (pixelFormat : string)
  : option Z :=
  match outputArr with
  | [] => None
  | line :: rest =>
      let match_ := regexp.FindStringSubmatch pixelFormatExp line in
      if (0 <? List.length match_)%nat then
        match processPixelFormatMatch match_ pixelFormat pixelFormatExp with
        | (bitDepth, None) => Some bitDepth
        | (_, Some _) => scanCatalog rest pixelFormat
        end
      else scanCatalog rest pixelFormat
  end.

(** [IsMediaFile] (info.go, l.43-53): the loop over the extensions stops
    at the first one the lower-case path ends with. *)
Definition mediaExtensions : list string :=
  [".mp4"; ".avi"; ".mkv"; ".mov"; ".flv"; ".wmv"; ".mp3"; ".wav"; ".aac";
   ".ogg"; ".flac"].

Definition IsMediaFile {tables : unicode.CaseTables} (filePath : string)
  : bool :=
  existsb
    (fun ext =>
       let lowercaseFilePath := strings.ToLower filePath in
       strings.HasSuffix lowercaseFilePath ext)
    mediaExtensions.

(** [IsAudioCodecSupported] (info.go, l.146-157). *)
Definition IsAudioCodecSupported (codecName : string) : bool :=
  let supportedFormats := ["mp3"; "opus"; "flac"; "ac3"] in
  if strings.Contains codecName "pcm_" then true
  else if slices.Contains supportedFormats codecName then true
  else false.

Section WithSystem.
Context {FS : Type} {sys : System FS}.

(** [GetMediaInfo] (info.go, l.56-79). *)
Definition GetMediaInfo (filePath : string) : M FS (MediaInfo * option error) :=
  let info := zeroMediaInfo in
  '(output, err) <- exec_CombinedOutput
      ["ffprobe"; "-hide_banner"; "-loglevel"; "fatal"; "-show_error";
       "-show_format"; "-show_streams"; "-show_private_data";
       "-print_format"; "json"; filePath] ;;
  match err with
  | Some err =>
      ret (info, Some (fmt_Errorf "error executing ffprobe: %w" [arg_error err]))
  | None =>
      match sys_Unmarshal output info with
      | (info, Some err) =>
          ret (info, Some (fmt_Errorf "error unmarshalling ffprobe output: %w"
                             [arg_error err]))
      | (info, None) => ret (info, None)
      end
  end.

(** [GetBitDepth] (info.go, l.119-143). *)
Definition GetBitDepth (pixelFormat : string) : M FS (Z * option error) :=
  '(output, err) <- exec_CombinedOutput ["ffmpeg"; "-hide_banner"; "-pix_fmts"] ;;
  match err with
  | Some err =>
      ret ((-1)%Z, Some (fmt_Errorf "error executing ffmpeg: %w" [arg_error err]))
  | None =>
      let outputArr := strings.Split output "010" in
      match scanCatalog outputArr pixelFormat with
      | Some bitDepth => ret (bitDepth, None)
      | None =>
          ret ((-1)%Z, Some (fmt_Errorf "pixel format %s not found"
                               [arg_string pixelFormat]))
      end
  end.

(** The body of the loop of [AnalyzeMediaInfo] (info.go, l.163-190). *)
Definition analyzeStream (props : Properties) (stream : Stream)
  : M FS Properties :=
  props <-
    (if String.eqb (CodecType stream) "video" then
       let props := set_HasVideoStream props true in
       '(bitDepth, err) <- GetBitDepth (PixelFormat stream) ;;
       bitDepth <-
         match err with
         | Some err =>
             _ <- log_Printf "Error getting bit depth for pixel format %s: %v\n"
                    [arg_string (PixelFormat stream); arg_error err] ;;
             _ <- log_Printf "Using default bit depth of 8\n" [] ;;
             ret 8%Z
         | None => ret bitDepth
         end ;;
       let props :=
         if (bitDepth >? HighestBitDepth props)%Z
         then set_HighestBitDepth props bitDepth else props in
       let props :=
         if (Width stream >? Height stream)%Z
         then set_IsVertical props false
         else set_IsVertical props true in
       ret props
     else ret props) ;;
  if String.eqb (CodecType stream) "audio" then
    let props := set_HasAudioStream props true in
    ret (set_UnsupportedAudioFormat props
           (negb (IsAudioCodecSupported (CodecName stream))))
  else ret props.

(** [AnalyzeMediaInfo] (info.go, l.160-193). *)
Definition AnalyzeMediaInfo (info : MediaInfo) : M FS Properties :=
  for_range (Streams info) analyzeStream zeroProperties.

End WithSystem.

End media.

(** ** Package [ffmpeg]: the plan builders *)
Module ffmpeg.

(** [UseHardwareAcceleration] (l.11). *)
Definition UseHardwareAcceleration : bool := true.

(** [CreateProxyCommand] (l.14-55); [append(cmd, ...)] is [cmd ++ [...]]. *)
Definition CreateProxyCommand (filePath proxyFilePath : string)
    (props : media.Properties) : list string :=
  let cmd : list string := [] in
  let cmd := (cmd ++ ["ffmpeg"; "-y"; "-hide_banner"; "-loglevel"; "error"])%list in
  let cmd :=
    if UseHardwareAcceleration then (cmd ++ ["-hwaccel"; "cuda"])%list else cmd in
  let cmd := (cmd ++ ["-i"; filePath])%list in
  let cmd :=
    if media.HasVideoStream props then
      let cmd :=
        if UseHardwareAcceleration
        then (cmd ++ ["-c:v"; "h264_nvenc"])%list
        else (cmd ++ ["-c:v"; "libx264"])%list in
      let cmd :=
        if (media.HighestBitDepth props >? 8)%Z
        then (cmd ++ ["-pix_fmt"; "yuv420p"])%list else cmd in
      let cmd := (cmd ++ ["-maxrate"; "7M"; "-preset"; "default"])%list in
      if media.IsVertical props
      then (cmd ++ ["-vf"; "scale=540:-2"])%list
      else (cmd ++ ["-vf"; "scale=960:-2"])%list
    else cmd in
  let cmd :=
    if media.HasAudioStream props then
      if media.UnsupportedAudioFormat props
      then (cmd ++ ["-c:a"; "pcm_s16le"])%list else cmd
    else cmd in
  let cmd := (cmd ++ [proxyFilePath])%list in
  cmd.

(** [CreateConvertedOriginalCommand] (l.58-69). *)
Definition CreateConvertedOriginalCommand (filePath : string) : list string :=
  let cmd : list string := [] in
  let fileName := filepath.Base filePath in
  let parentDir := filepath.Dir filePath in
  let inputFilePath := filepath.Join [parentDir; "Originals"; fileName] in
  let cmd := (cmd ++ ["ffmpeg"; "-y"; "-hide_banner"; "-loglevel"; "error"])%list in
  let cmd :=
    (cmd ++ ["-i"; inputFilePath; "-c:v"; "copy"; "-c:a"; "pcm_s16le"; filePath])%list in
  cmd.

End ffmpeg.

(** ** Package [audio]: unsupported-audio remediation *)
Module audio.
Section WithSystem.
Context {FS : Type} {sys : System FS}.

(** [ProcessUnsupportedAudio] (l.92-139). *)
Definition ProcessUnsupportedAudio (filePath : string) : M FS (option error) :=
  _ <- log_Printf "Moving unsupported audio file to Originals: %s\n"
         [arg_string filePath] ;;
  let parentDir := filepath.Dir filePath in
  r <- os_Stat parentDir ;;
  match r with
  | inr err =>
      ret (Some (fmt_Errorf "error getting parent directory info: %w"
                   [arg_error err]))
  | inl parentDirInfo =>
      let originalsDir := filepath.Join [parentDir; "Originals"] in
      r <- os_Stat originalsDir ;;
      mk <- match r with
            | inr _ => os_MkdirAll originalsDir (os.Mode parentDirInfo)
            | inl _ => ret None
            end ;;
      match mk with
      | Some err =>
          ret (Some (fmt_Errorf "error creating Originals directory: %w"
                       [arg_error err]))
      | None =>
          let fileName := filepath.Base filePath in
          let inputFilePath := filepath.Join [originalsDir; fileName] in
          r <- os_Stat inputFilePath ;;
          match r with
          | inl _ =>
              ret (Some (fmt_Errorf "original file already exists: %s"
                           [arg_string inputFilePath]))
          | inr _ =>
              mv <- os_Rename filePath inputFilePath ;;
              match mv with
              | Some err =>
                  ret (Some (fmt_Errorf "error moving file to Originals: %w"
                               [arg_error err]))
              | None =>
                  let cmd := ffmpeg.CreateConvertedOriginalCommand filePath in
                  if (List.length cmd =? 0)%nat then
                    ret (Some (errors_New
                                 "could not generate ffmpeg command for original file"))
                  else
                    _ <- log_Printf
                           "Executing ffmpeg command for original file: %s\n"
                           [arg_string (String.concat " " cmd)] ;;
                    run <- exec_Run cmd ;;
                    match run with
                    | Some err =>
                        ret (Some (fmt_Errorf
                                     "error executing ffmpeg command for original file: %w"
                                     [arg_error err]))
                    | None => ret None
                    end
              end
          end
      end
  end.

End WithSystem.
End audio.

(** ** Package [proxy]: the proxy workflow (pkg/proxy/proxy.go) *)
Module proxy.
Section WithSystem.
Context {FS : Type} {sys : System FS}.

(** [CreateProxyDirectory] (proxy.go, l.17-34). *)
Definition CreateProxyDirectory (filePath : string) : M FS (string * option error) :=
  r <- os_Stat (filepath.Dir filePath) ;;
  match r with
  | inr err =>
      ret ("", Some (fmt_Errorf "error getting parent directory: %w" [arg_error err]))
  | inl parentDir =>
      let proxyDir := filepath.Join [filepath.Dir filePath; "Proxy"] in
      r <- os_Stat proxyDir ;;
      match r with
      | inl _ => ret (proxyDir, None)
      | inr _ =>
          mk <- os_MkdirAll proxyDir (os.Mode parentDir) ;;
          match mk with
          | Some err =>
              ret ("", Some (fmt_Errorf "error creating proxy directory: %w"
                               [arg_error err]))
          | None => ret (proxyDir, None)
          end
      end
  end.

(** [GenerateProxy] (proxy.go, l.37-87). *)
Definition GenerateProxy (filePath : string) (fileInfo : os.DirEntry)
  : M FS (bool * option error) :=
  let parentDir := filepath.Dir filePath in
  let fileName :=
    strings.TrimSuffix (os.Name fileInfo) (filepath.Ext (os.Name fileInfo)) in
  let proxyFilePath := filepath.Join [parentDir; "Proxy"; fileName ++ ".mov"] in
  r <- os_Stat proxyFilePath ;;
  match r with
  | inl _ =>
      _ <- log_Printf "Proxy file already exists: %s\n" [arg_string proxyFilePath] ;;
      ret (false, None)
  | inr _ =>
      '(mediaInfo, err) <- media.GetMediaInfo filePath ;;
      match err with
      | Some err =>
          ret (false, Some (fmt_Errorf "error getting media info: %w" [arg_error err]))
      | None =>
          if (List.length (Streams mediaInfo) =? 0)%nat then
            ret (false, Some (errors_New "no streams found in media file"))
          else
            props <- media.AnalyzeMediaInfo mediaInfo ;;
            if negb (media.HasVideoStream props) && negb (media.HasAudioStream props)
            then ret (false, Some (errors_New "no video or audio stream found"))
            else
              '(_, err) <- CreateProxyDirectory filePath ;;
              match err with
              | Some err =>
                  ret (false, Some (fmt_Errorf "error creating proxy directory: %w"
                                      [arg_error err]))
              | None =>
                  let ffmpegCmd :=
                    ffmpeg.CreateProxyCommand filePath proxyFilePath props in
                  if (List.length ffmpegCmd =? 0)%nat then
                    ret (false, Some (errors_New "could not generate ffmpeg command"))
                  else
                    _ <- log_Printf "Executing ffmpeg command: %s\n"
                           [arg_string (String.concat " " ffmpegCmd)] ;;
                    run <- exec_Run ffmpegCmd ;;
                    match run with
                    | Some err =>
                        ret (false,
                             Some (fmt_Errorf "error executing ffmpeg command: %w"
                                     [arg_error err]))
                    | None => ret (true, None)
                    end
              end
      end
  end.

End WithSystem.
End proxy.

(** ** Package [main]: the monolithic variant (main.go) *)
Module main.

(** [useHwaccel] (main.go, l.17). *)
Definition useHwaccel : bool := true.

(** [mediaProperties] (main.go, l.150-156). *)
Record mediaProperties : Type := {
  hasVideoStream : bool;
  hasAudioStream : bool;
  isVertical : bool;
  unsupportedAudioFormat : bool;
  highestBitDepth : Z
}.

(** The value of [var mediaProperties mediaProperties]. *)
Definition zeroProperties : mediaProperties :=
  {| hasVideoStream := false; hasAudioStream := false; isVertical := false;
     unsupportedAudioFormat := false; highestBitDepth := 0 |}.

(** The assignments to the fields of [mediaProperties]. *)
Definition set_hasVideoStream (p : mediaProperties) (b : bool) : mediaProperties :=
  {| hasVideoStream := b; hasAudioStream := hasAudioStream p;
     isVertical := isVertical p;
     unsupportedAudioFormat := unsupportedAudioFormat p;
     highestBitDepth := highestBitDepth p |}.
Definition set_hasAudioStream (p : mediaProperties) (b : bool) : mediaProperties :=
  {| hasVideoStream := hasVideoStream p; hasAudioStream := b;
     isVertical := isVertical p;
     unsupportedAudioFormat := unsupportedAudioFormat p;
     highestBitDepth := highestBitDepth p |}.
Definition set_isVertical (p : mediaProperties) (b : bool) : mediaProperties :=
  {| hasVideoStream := hasVideoStream p; hasAudioStream := hasAudioStream p;
     isVertical := b;
     unsupportedAudioFormat := unsupportedAudioFormat p;
     highestBitDepth := highestBitDepth p |}.
Definition set_unsupportedAudioFormat (p : mediaProperties) (b : bool)
  : mediaProperties :=
  {| hasVideoStream := hasVideoStream p; hasAudioStream := hasAudioStream p;
     isVertical := isVertical p;
     unsupportedAudioFormat := b;
     highestBitDepth := highestBitDepth p |}.
Definition set_highestBitDepth (p : mediaProperties) (d : Z) : mediaProperties :=
  {| hasVideoStream := hasVideoStream p; hasAudioStream := hasAudioStream p;
     isVertical := isVertical p;
     unsupportedAudioFormat := unsupportedAudioFormat p;
     highestBitDepth := d |}.

(** The pattern of [getBitDepth] (main.go, l.121): the one of package
    [media]. *)
Definition pixelFormatExpStr : string :=
  "^.{5}\s(?<name>[^\r\n\s=]*)\s*(?P<nb_components>[0-9])\s*(?P<bpp>[0-9]*)\s*(?P<bit_depth>(?:[0-9]+-)*[0-9]+)$".

Definition pixelFormatExp : regexp.Regexp :=
  regexp.MustCompile pixelFormatExpStr
    (regexp.expr media.pixelFormatExp)
    [""; "name"; "nb_components"; "bpp"; "bit_depth"].

(** The loop of [processPixelFormatMatch] over [SubexpNames()], from index
    [i] on. *)
Fixpoint collectSubexp (names : list string) (i : nat) (match_ : list string)
    (result : gomap) : gomap :=
  match names with
  | [] => result
  | name :: names' =>
      collectSubexp names' (S i) match_
        (if negb (i =? 0)%nat && negb (String.eqb name "")
         then map_set result name (nth i match_ EmptyString)
         else result)
  end.

(** [processPixelFormatMatch] (main.go, l.74-109). *)
Definition processPixelFormatMatch (match_ : list string)
    (pixelFormat : string) (pixelFormatExp : regexp.Regexp)
  : Z * option error :=
  let result := collectSubexp (regexp.SubexpNames pixelFormatExp) 0 match_ [] in
  if String.eqb (map_get result "name") pixelFormat then
    match map_lookup result "bit_depth" with
    | None =>
        ((-1)%Z, Some (fmt_Errorf "bit depth not found for pixel format %s"
                         [arg_string pixelFormat]))
    | Some bitDepthStr =>
        match map_lookup result "nb_components" with
        | None =>
            ((-1)%Z,
             Some (fmt_Errorf "number of components not found for pixel format %s"
                     [arg_string pixelFormat]))
        | Some nbComponentsStr =>
            match strconv.Atoi nbComponentsStr with
            | (_, Some err) =>
                ((-1)%Z,
                 Some (fmt_Errorf "error converting number of components to int: %w"
                         [arg_error err]))
            | (nbComponentsInt, None) =>
                let bitDepthStr :=
                  if (nbComponentsInt >? 1)%Z
                  then hd EmptyString (strings.Split bitDepthStr "-")
                  else bitDepthStr in
                let (bitDepth, _) := strconv.Atoi bitDepthStr in
                (bitDepth, None)
            end
        end
    end
  else
    ((-1)%Z, Some (fmt_Errorf "pixel format %s not found" [arg_string pixelFormat])).

(** The loop of [getBitDepth] over the lines of the catalog. *)
Fixpoint scanCatalog (outputArr : list string) (pixelFormat : string)
  : option Z :=
  match outputArr with
  | [] => None
  | line :: rest =>
      let match_ := regexp.FindStringSubmatch pixelFormatExp line in
      if (0 <? List.length match_)%nat then
        match processPixelFormatMatch match_ pixelFormat pixelFormatExp with
        | (bitDepth, None) => Some bitDepth
        | (_, Some _) => scanCatalog rest pixelFormat
        end
      else scanCatalog rest pixelFormat
  end.

(** [isMediaFile] (main.go, l.19-29). *)
Definition mediaExtensions : list string :=
  [".mp4"; ".avi"; ".mkv"; ".mov"; ".flv"; ".wmv"; ".mp3"; ".wav"; ".aac";
   ".ogg"; ".flac"].

Definition isMediaFile {tables : unicode.CaseTables} (filePath : string)
  : bool :=
  existsb
    (fun ext =>
       let lowercaseFilePath := strings.ToLower filePath in
       strings.HasSuffix lowercaseFilePath ext)
    mediaExtensions.

(** [isAudioCodecSupported] (main.go, l.137-148). *)
Definition isAudioCodecSupported (codecName : string) : bool :=
  let supportedFormats := ["mp3"; "opus"; "flac"; "ac3"] in
  if strings.Contains codecName "pcm_" then true
  else if slices.Contains supportedFormats codecName then true
  else false.

(** [createFfmpegCommandForProxy] (main.go, l.215-255). *)
Definition createFfmpegCommandForProxy (filePath proxyFilePath : string)
    (media : mediaProperties) : list string :=
  let cmd : list string := [] in
  let cmd := (cmd ++ ["ffmpeg"; "-y"; "-hide_banner"; "-loglevel"; "error"])%list in
  let cmd := if useHwaccel then (cmd ++ ["-hwaccel"; "cuda"])%list else cmd in
  let cmd := (cmd ++ ["-i"; filePath])%list in
  let cmd :=
    if hasVideoStream media then
      let cmd :=
        if useHwaccel
        then (cmd ++ ["-c:v"; "h264_nvenc"])%list
        else (cmd ++ ["-c:v"; "libx264"])%list in
      let cmd :=
        if (highestBitDepth media >? 8)%Z
        then (cmd ++ ["-pix_fmt"; "yuv420p"])%list else cmd in
      let cmd := (cmd ++ ["-maxrate"; "6M"; "-preset"; "fast"])%list in
      if isVertical media
      then (cmd ++ ["-vf"; "scale=540:-2"])%list
      else (cmd ++ ["-vf"; "scale=960:-2"])%list
    else cmd in
  let cmd :=
    if hasAudioStream media then
      if unsupportedAudioFormat media
      then (cmd ++ ["-c:a"; "pcm_s16le"])%list else cmd
    else cmd in
  let cmd := (cmd ++ [proxyFilePath])%list in
  cmd.

(** [createFfmpegCommandForOriginal] (main.go, l.257-269). *)
Definition createFfmpegCommandForOriginal (filePath : string) : list string :=
  let cmd : list string := [] in
  let fileName := filepath.Base filePath in
  let parentDir := filepath.Dir filePath in
  let inputFilePath := filepath.Join [parentDir; "Originals"; fileName] in
  let cmd := (cmd ++ ["ffmpeg"; "-y"; "-hide_banner"; "-loglevel"; "error"])%list in
  let cmd :=
    (cmd ++ ["-i"; inputFilePath; "-c:v"; "copy"; "-c:a"; "pcm_s16le"; filePath])%list in
  cmd.

Section WithSystem.
Context {FS : Type} {sys : System FS}.

(** [getMediaInfo] (main.go, l.49-72). *)
Definition getMediaInfo (filePath : string) : M FS (MediaInfo * option error) :=
  let info := zeroMediaInfo in
  '(output, err) <- exec_CombinedOutput
      ["ffprobe"; "-hide_banner"; "-loglevel"; "fatal"; "-show_error";
       "-show_format"; "-show_streams"; "-show_private_data";
       "-print_format"; "json"; filePath] ;;
  match err with
  | Some err =>
      ret (info, Some (fmt_Errorf "error executing ffprobe: %w" [arg_error err]))
  | None =>
      match sys_Unmarshal output info with
      | (info, Some err) =>
          ret (info, Some (fmt_Errorf "error unmarshalling ffprobe output: %w"
                             [arg_error err]))
      | (info, None) => ret (info, None)
      end
  end.

(** [getBitDepth] (main.go, l.111-135). *)
Definition getBitDepth (pixelFormat : string) : M FS (Z * option error) :=
  '(output, err) <- exec_CombinedOutput ["ffmpeg"; "-hide_banner"; "-pix_fmts"] ;;
  match err with
  | Some err =>
      ret ((-1)%Z, Some (fmt_Errorf "error executing ffmpeg: %w" [arg_error err]))
  | None =>
      let outputArr := strings.Split output "010" in
      match scanCatalog outputArr pixelFormat with
      | Some bitDepth => ret (bitDepth, None)
      | None =>
          ret ((-1)%Z, Some (fmt_Errorf "pixel format %s not found"
                               [arg_string pixelFormat]))
      end
  end.

(** The body of the loop of [analyzeMediaInfo] (main.go, l.161-191). *)
Definition analyzeStream (mediaProperties : mediaProperties) (stream : Stream)
  : M FS main.mediaProperties :=
  mediaProperties <-
    (if String.eqb (CodecType stream) "video" then
       let mediaProperties := set_hasVideoStream mediaProperties true in
       '(bitDepth, err) <- getBitDepth (PixelFormat stream) ;;
       bitDepth <-
         match err with
         | Some err =>
             _ <- log_Printf "Error getting bit depth for pixel format %s: %v\n"
                    [arg_string (PixelFormat stream); arg_error err] ;;
             _ <- log_Printf "Using default bit depth of 8\n" [] ;;
             ret 8%Z
         | None => ret bitDepth
         end ;;
       _ <- fmt_Printf "Bit depth for pixel format %s: %d\n"
              [arg_string (PixelFormat stream); arg_int bitDepth] ;;
       let mediaProperties :=
         if (bitDepth >? highestBitDepth mediaProperties)%Z
         then set_highestBitDepth mediaProperties bitDepth
         else mediaProperties in
       let mediaProperties :=
         if (Width stream >? Height stream)%Z
         then set_isVertical mediaProperties false
         else set_isVertical mediaProperties true in
       ret mediaProperties
     else ret mediaProperties) ;;
  if String.eqb (CodecType stream) "audio" then
    let mediaProperties := set_hasAudioStream mediaProperties true in
    ret (set_unsupportedAudioFormat mediaProperties
           (negb (isAudioCodecSupported (CodecName stream))))
  else ret mediaProperties.

(** [analyzeMediaInfo] (main.go, l.158-194). *)
Definition analyzeMediaInfo (info : MediaInfo) : M FS mediaProperties :=
  for_range (Streams info) analyzeStream zeroProperties.

(** [createProxyDirectory] (main.go, l.196-213). *)
Definition createProxyDirectory (filePath : string) : M FS (string * option error) :=
  r <- os_Stat (filepath.Dir filePath) ;;
  match r with
  | inr err =>
      ret ("", Some (fmt_Errorf "error getting parent directory: %w" [arg_error err]))
  | inl parentDir =>
      let proxyDir := filepath.Join [filepath.Dir filePath; "Proxy"] in
      r <- os_Stat proxyDir ;;
      match r with
      | inl _ => ret (proxyDir, None)
      | inr _ =>
          mk <- os_MkdirAll proxyDir (os.Mode parentDir) ;;
          match mk with
          | Some err =>
              ret ("", Some (fmt_Errorf "error creating proxy directory: %w"
                               [arg_error err]))
          | None => ret (proxyDir, None)
          end
      end
  end.

(** [processUnsupportedAudioOriginal] (main.go, l.271-315). *)
Definition processUnsupportedAudioOriginal (filePath : string)
  : M FS (bool * option error) :=
  _ <- log_Printf "Moving unsupported audio file to Originals: %s\n"
         [arg_string filePath] ;;
  let parentDir := filepath.Dir filePath in
  r <- os_Stat parentDir ;;
  match r with
  | inr err =>
      ret (false, Some (fmt_Errorf "error getting parent directory info: %w"
                          [arg_error err]))
  | inl parentDirInfo =>
      let originalsDir := filepath.Join [parentDir; "Originals"] in
      r <- os_Stat originalsDir ;;
      mk <- match r with
            | inr _ => os_MkdirAll originalsDir (os.Mode parentDirInfo)
            | inl _ => ret None
            end ;;
      match mk with
      | Some err =>
          ret (false, Some (fmt_Errorf "error creating Originals directory: %w"
                              [arg_error err]))
      | None =>
          let fileName := filepath.Base filePath in
          let inputFilePath := filepath.Join [originalsDir; fileName] in
          r <- os_Stat inputFilePath ;;
          match r with
          | inl _ =>
              ret (false, Some (fmt_Errorf "original file already exists: %s"
                                  [arg_string inputFilePath]))
          | inr _ =>
              mv <- os_Rename filePath inputFilePath ;;
              match mv with
              | Some err =>
                  ret (false, Some (fmt_Errorf "error moving file to Originals: %w"
                                      [arg_error err]))
              | None =>
                  let cmd := createFfmpegCommandForOriginal filePath in
                  if (List.length cmd =? 0)%nat then
                    ret (false,
                         Some (errors_New
                                 "could not generate ffmpeg command for original file"))
                  else
                    _ <- log_Printf
                           "Executing ffmpeg command for original file: %s\n"
                           [arg_string (String.concat " " cmd)] ;;
                    run <- exec_Run cmd ;;
                    match run with
                    | Some err =>
                        ret (false,
                             Some (fmt_Errorf
                                     "error executing ffmpeg command for original file: %w"
                                     [arg_error err]))
                    | None => ret (true, None)
                    end
              end
          end
      end
  end.

(** [processFile] (main.go, l.317-374). *)
Definition processFile (file : os.DirEntry) (filePath : string)
  : M FS (bool * option error) :=
  _ <- log_Printf "Processing file: %s\n" [arg_string filePath] ;;
  let parentDir := filepath.Dir filePath in
  let fileName := strings.TrimSuffix (os.Name file) (filepath.Ext (os.Name file)) in
  let proxyFilePath := filepath.Join [parentDir; "Proxy"; fileName ++ ".mov"] in
  r <- os_Stat proxyFilePath ;;
  match r with
  | inl _ =>
      _ <- log_Printf "Proxy file already exists: %s\n" [arg_string proxyFilePath] ;;
      ret (false, None)
  | inr _ =>
      '(mediaInfo, err) <- getMediaInfo filePath ;;
      match err with
      | Some err =>
          ret (false, Some (fmt_Errorf "error getting media info: %w" [arg_error err]))
      | None =>
          if (List.length (Streams mediaInfo) =? 0)%nat then
            ret (false, Some (errors_New "no streams found in media file"))
          else
            mediaProperties <- analyzeMediaInfo mediaInfo ;;
            if negb (hasVideoStream mediaProperties)
               && negb (hasAudioStream mediaProperties)
            then ret (false, Some (errors_New "no video or audio stream found"))
            else
              '(_, err) <- createProxyDirectory filePath ;;
              match err with
              | Some err =>
                  ret (false, Some (fmt_Errorf "error creating proxy directory: %w"
                                      [arg_error err]))
              | None =>
                  let ffmpegCmd :=
                    createFfmpegCommandForProxy filePath proxyFilePath mediaProperties in
                  if (List.length ffmpegCmd =? 0)%nat then
                    ret (false, Some (errors_New "could not generate ffmpeg command"))
                  else
                    _ <- log_Printf "Executing ffmpeg command: %s\n"
                           [arg_string (String.concat " " ffmpegCmd)] ;;
                    run <- exec_Run ffmpegCmd ;;
                    match run with
                    | Some err =>
                        ret (false,
                             Some (fmt_Errorf
                                     "error executing ffmpeg command for original file: %w"
                                     [arg_error err]))
                    | None =>
                        if unsupportedAudioFormat mediaProperties then
                          _ <- log_Printf
                                 "Unsupported audio format detected. Converting to PCM for file: %s\n"
                                 [arg_string filePath] ;;
                          '(_, err) <- processUnsupportedAudioOriginal filePath ;;
                          match err with
                          | Some err =>
                              ret (false,
                                   Some (fmt_Errorf
                                           "error processing unsupported audio source file: %w"
                                           [arg_error err]))
                          | None => ret (true, None)
                          end
                        else ret (true, None)
                    end
              end
      end
  end.

(** The body of the loop of [main] over the entries of the watched
    directory (main.go, l.392-424), and the loop. *)
Definition processEntry {tables : unicode.CaseTables} (watchPath : string)
    (file : os.DirEntry) : M FS unit :=
  if os.IsDir file then ret tt
  else
    let filePath := strings.TrimRight watchPath "/" ++ "/" ++ os.Name file in
    if negb (isMediaFile filePath) then
      log_Printf "Skipping non-media file: %s\n" [arg_string filePath]
    else
      let parentDir := filepath.Dir filePath in
      if String.eqb parentDir "Proxy" then
        log_Printf "Skipping proxy file: %s\n" [arg_string filePath]
      else
        '(changed, err) <- processFile file filePath ;;
        match err with
        | Some err =>
            log_Printf "Error processing file %s: %v\n"
              [arg_string filePath; arg_error err]
        | None =>
            if changed then
              log_Printf "File %s has been processed and saved as %s\n"
                [arg_string filePath;
                 arg_string (filepath.Join [parentDir; "Proxy"; os.Name file])]
            else
              log_Printf "File %s has not been changed\n" [arg_string filePath]
        end.

Definition processEntries {tables : unicode.CaseTables} (watchPath : string)
    (files : list os.DirEntry) : M FS unit :=
  for_range files (fun _ file => processEntry watchPath file) tt.

End WithSystem.
End main.

(** ** A system to run the program on

    A file system that is the list of its paths, a catalog and a probe
    result that are given, and an [ffmpeg] that writes its output file:
    enough of a system to run the program on concrete inputs. *)
Module sim.

Definition FS : Type := list (string * os.FileInfo).

Fixpoint lookup (files : FS) (name : string) : option os.FileInfo :=
  match files with
  | [] => None
  | (n, fi) :: files' => if String.eqb name n then Some fi else lookup files' name
  end.

Fixpoint remove (files : FS) (name : string) : FS :=
  match files with
  | [] => []
  | (n, fi) :: files' =>
      if String.eqb name n then remove files' name else (n, fi) :: remove files' name
  end.

Definition ENOENT : error := errors_New "no such file or directory".

Definition Stat (name : string) (files : FS) : os.FileInfo + error :=
  match lookup files name with
  | Some fi => inl fi
  | None => inr ENOENT
  end.

Definition MkdirAll (path : string) (perm : os.FileMode) (files : FS)
  : option error * FS :=
  match lookup files path with
  | Some _ => (None, files)
  | None => (None, (path, {| os.Mode := perm |}) :: files)
  end.

Definition Rename (oldpath newpath : string) (files : FS) : option error * FS :=
  match lookup files oldpath with
  | Some fi => (None, (newpath, fi) :: remove (remove files oldpath) newpath)
  | None => (Some ENOENT, files)
  end.

(** [ffmpeg -hide_banner -pix_fmts] prints the catalog, [ffprobe] prints a
    document, and any other process writes the file its last argument
    names. *)
Definition run (catalog : string) (argv : list string) (w : World FS)
  : (string * option error) * FS :=
  if list_eq_dec string_dec argv ["ffmpeg"; "-hide_banner"; "-pix_fmts"]
  then ((catalog, None), fs w)
  else if String.eqb (hd "" argv) "ffprobe"
  then (("{}", None), fs w)
  else (("", None), (last argv "", {| os.Mode := 420%N |}) :: fs w).

#[local] Instance system (catalog : string) (probe : MediaInfo) : System FS := {
  sys_Stat := Stat;
  sys_MkdirAll := MkdirAll;
  sys_Rename := Rename;
  sys_run := run catalog;
  sys_Unmarshal := fun _ _ => (probe, None)
}.

(** Lines of the catalog as [ffmpeg -pix_fmts] prints it. *)
Definition catalog : string :=
  String.concat (String "010" "")
    ["Pixel formats:";
     "I.... = Supported Input  format for conversion";
     ".O... = Supported Output format for conversion";
     "..H.. = Hardware accelerated format";
     "...P. = Paletted format";
     "....B = Bitstream format";
     "FLAGS NAME            NB_COMPONENTS BITS_PER_PIXEL BIT_DEPTHS";
     "-----";
     "IO... yuv420p                3             12      8-8-8";
     "IO... rgb24                  3             24      8-8-8";
     "IO..B monow                  1              1      1";
     "IO... gray                   1              8      8";
     "IO... rgb565le               3             16      5-6-5";
     "IO... yuv420p10le            3             15      10-10-10";
     ""].

Definition video (pix_fmt : string) (width height : Z) : Stream :=
  {| Index := 0; CodecType := "video"; CodecName := "h264";
     CodecProfile := "High"; Width := width; Height := height;
     Bitrate := ""; PixelFormat := pix_fmt |}.

Definition audio (codec : string) : Stream :=
  {| Index := 1; CodecType := "audio"; CodecName := codec;
     CodecProfile := ""; Width := 0; Height := 0;
     Bitrate := ""; PixelFormat := "" |}.

Definition probed (streams : list Stream) : MediaInfo :=
  {| format := {| FilePath := "/media/clip.mp4"; Duration := "";
                  FormatBitrate := "" |};
     Streams := streams |}.

Definition dir : os.FileInfo := {| os.Mode := 493%N |}.
Definition file : os.FileInfo := {| os.Mode := 420%N |}.

Definition world (files : FS) : World FS := {| fs := files; trace := [] |}.

(** Two entries of the case tables, for the characters above ASCII whose
    lower-case forms are ASCII letters: the Kelvin sign (U+212A, [k]) and
    the capital I with a dot above (U+0130, [i]). *)
#[local] Instance tables : unicode.CaseTables := {
  unicode.To_LowerCase := fun r =>
    if (r =? 8490)%Z then 107%Z else if (r =? 304)%Z then 105%Z else r
}.

End sim.

(** ** The vocabulary of the specification *)

(** What the specification says of a codec name: it contains ["pcm_"], or
    is one of the four supported names. *)
Definition supported_by_spec (codecName : string) : Prop :=
  (exists pre post, codecName = pre ++ "pcm_" ++ post) \/
  codecName = "mp3" \/ codecName = "opus" \/ codecName = "flac" \/
  codecName = "ac3".

(** A stream of kind [video]. *)
Definition is_video (s : Stream) : bool := String.eqb (CodecType s) "video".

(** The depth the analyzer goes on with after a resolution: the depth
    found, and 8 when the resolution failed. *)
Definition depth_used (r : Z * option error) : Z :=
  match r with
  | (bitDepth, None) => bitDepth
  | (_, Some _) => 8%Z
  end.

(** The depths used for the video streams of a list, in order, when a
    loop whose body leaves the world [next s w] and whose resolution is
    [resolve] runs over it from the world [w]. *)
Fixpoint depths_used {W : Type} (resolve : string -> W -> Z * option error)
    (next : Stream -> W -> W) (streams : list Stream) (w : W) : list Z :=
  match streams with
  | [] => []
  | s :: rest =>
      ((if is_video s then [depth_used (resolve (PixelFormat s) w)] else [])
         ++ depths_used resolve next rest (next s w))%list
  end.

(** The depths the analyzer of package [media], and the one of [main],
    use for the video streams of a list when they start in the world [w]:
    each stream's depth is resolved in the world the loop has reached. *)
Definition media_depths_used {FS : Type} {sys : System FS}
    (streams : list Stream) (w : World FS) : list Z :=
  depths_used (fun pf w => fst (media.GetBitDepth pf w))
    (fun s w => snd (media.analyzeStream media.zeroProperties s w)) streams w.

Definition main_depths_used {FS : Type} {sys : System FS}
    (streams : list Stream) (w : World FS) : list Z :=
  depths_used (fun pf w => fst (main.getBitDepth pf w))
    (fun s w => snd (main.analyzeStream main.zeroProperties s w)) streams w.

(** The largest of 0 and the elements of a list. *)
Definition highest (depths : list Z) : Z := fold_right Z.max 0%Z depths.

(** The terminal states of the proxy workflow, and the state a result
    [(changed, err)] stands for. *)
Inductive State : Type :=
| Skipped
| Succeeded
| Failed (reason : error).

Definition state_of (r : bool * option error) : State :=
  match r with
  | (_, Some err) => Failed err
  | (true, None) => Succeeded
  | (false, None) => Skipped
  end.

(** The proxy path the workflows compute for a file: in the directory
    [Proxy] of the file's directory, the file's name with [.mov] for its
    extension. *)
Definition proxy_path (filePath : string) (file : os.DirEntry) : string :=
  filepath.Join
    [filepath.Dir filePath; "Proxy";
     strings.TrimSuffix (os.Name file) (filepath.Ext (os.Name file)) ++ ".mov"].

(** The path of a file's original once relocated: the file's base name in
    the directory [Originals] of the file's directory. *)
Definition originals_dir (filePath : string) : string :=
  filepath.Join [filepath.Dir filePath; "Originals"].

Definition relocated_path (filePath : string) : string :=
  filepath.Join [originals_dir filePath; filepath.Base filePath].

(** [path] is there: [os.Stat] answers with its [FileInfo]. *)
Definition exists_path {FS : Type} {sys : System FS} (files : FS) (path : string)
  : Prop :=
  exists info, sys_Stat path files = inl info.

(** A file with the base name of [filePath] is in the directory
    [Originals] of the parent directory of [filePath]: the parent
    directory, its directory [Originals] and the file in it are there. *)
Definition original_exists {FS : Type} {sys : System FS} (files : FS)
    (filePath : string) : Prop :=
  exists_path files (filepath.Dir filePath)
  /\ exists_path files (originals_dir filePath)
  /\ exists_path files (relocated_path filePath).

(** The error of the remediation when the original's place is taken. *)
Definition OriginalAlreadyExists (filePath : string) : error :=
  fmt_Errorf "original file already exists: %s"
    [arg_string (relocated_path filePath)].

(** The properties of the specification's end-to-end scenario. *)
Definition scenario : media.Properties :=
  {| media.HasVideoStream := true; media.HasAudioStream := true;
     media.IsVertical := false; media.UnsupportedAudioFormat := true;
     media.HighestBitDepth := 8 |}.

(** What C5 asks of a plan from [filePath] to [proxyFilePath].  The two
    paths are the plan's operands: the source after [-i] and the
    destination at the end; the tokens between them are the options the
    builder adds, and a [-pix_fmt] token is one of those. *)
Definition scenario_plan (plan : list string) (filePath proxyFilePath : string)
  : Prop :=
  In "scale=960:-2" plan
  /\ (exists pre post, plan = (pre ++ ["-c:a"; "pcm_s16le"] ++ post)%list)
  /\ (exists options,
        plan = (["ffmpeg"; "-y"; "-hide_banner"; "-loglevel"; "error";
                 "-hwaccel"; "cuda"; "-i"; filePath]
                  ++ options ++ [proxyFilePath])%list
        /\ ~ In "-pix_fmt" options)
  /\ last plan "" = proxyFilePath.

(** *** Paths *)

(** A string without a separator. *)
Fixpoint no_sep (s : string) : bool :=
  match s with
  | EmptyString => true
  | String c s' => negb (filepath.IsPathSeparator c) && no_sep s'
  end.

(** The name of a file or of a directory: not empty, without a separator,
    and neither [.] nor [..]. *)
Definition is_name (e : string) : bool :=
  no_sep e && negb (String.eqb e "") && negb (String.eqb e ".")
  && negb (String.eqb e "..").

(** The path of the entry [name] of the directory [dir], as a string:
    [dir/name], but [/name] in the root and [name] in [.]. *)
Definition child (dir name : string) : string :=
  if String.eqb dir "/" then "/" ++ name
  else if String.eqb dir "." then name
  else dir ++ "/" ++ name.

(** How [filepath.Clean] works: whether the path is rooted, the elements
    it keeps (the last one first), and the path written from them. *)
Definition rooted (path : string) : bool :=
  match path with
  | EmptyString => false
  | String c _ => filepath.IsPathSeparator c
  end.

Definition elements (path : string) : list string :=
  fold_left (filepath.clean_step (rooted path))
    (strings.Split path filepath.Separator) [].

Definition render (r : bool) (out : list string) : string :=
  if r then String filepath.Separator (filepath.join_sep (rev out))
  else match out with
       | [] => "."
       | _ => filepath.join_sep (rev out)
       end.

(** The elements [Clean] keeps are names, above the [..] a path that is
    not rooted starts with. *)
Definition kept_elements (r : bool) (out : list string) : Prop :=
  exists names k,
    out = (names ++ repeat ".." k)%list
    /\ Forall (fun e => is_name e = true) names
    /\ (r = true -> k = 0%nat).

Definition kept (e : string) : Prop := is_name e = true \/ e = "..".

(** A system in which whatever is there is in a directory that is
    there. *)
Definition coherent {FS : Type} (sys : System FS) : Prop :=
  forall (files : FS) (path : string),
    exists_path files path -> exists_path files (filepath.Dir path).

(** The properties of package [media] as [main]'s record. *)
Definition to_main (props : media.Properties) : main.mediaProperties :=
  {| main.hasVideoStream := media.HasVideoStream props;
     main.hasAudioStream := media.HasAudioStream props;
     main.isVertical := media.IsVertical props;
     main.unsupportedAudioFormat := media.UnsupportedAudioFormat props;
     main.highestBitDepth := media.HighestBitDepth props |}.

(** *** Further vocabulary *)

(** A stream of kind [audio], and a stream the analyzers look at. *)
Definition is_audio (s : Stream) : bool := String.eqb (CodecType s) "audio".

Definition is_analyzed (s : Stream) : bool := is_video s || is_audio s.

(** The probe's output without the streams the analyzers do not look
    at. *)
Definition analyzed_only (info : MediaInfo) : MediaInfo :=
  {| format := format info; Streams := filter is_analyzed (Streams info) |}.

(** The last audio stream of a list. *)
Definition last_audio (streams : list Stream) : option Stream :=
  find is_audio (rev streams).

(** The catalog command. *)
Definition pix_fmts : list string := ["ffmpeg"; "-hide_banner"; "-pix_fmts"].

(** The events that are calls to the system, as opposed to lines logged
    or printed. *)
Definition is_call (e : event) : bool :=
  match e with
  | ev_log _ _ | ev_print _ _ => false
  | _ => true
  end.

(** [w'] is [w] after the events [ext]. *)
Definition after {FS : Type} (w w' : World FS) (ext : list event) : Prop :=
  trace w' = (trace w ++ ext)%list.

(** A computation all of whose events are in [Q], in every world. *)
Definition emits {FS A : Type} (Q : event -> Prop) (m : M FS A) : Prop :=
  forall w, exists ext, after w (snd (m w)) ext /\ Forall Q ext.

(** A system in which no process can be run. *)
Module broken.

Definition exit_status : error := errors_New "exit status 1".

#[local] Instance system : System sim.FS := {
  sys_Stat := sim.Stat;
  sys_MkdirAll := sim.MkdirAll;
  sys_Rename := sim.Rename;
  sys_run := fun _ w => (("", Some exit_status), fs w);
  sys_Unmarshal := fun _ info => (info, None)
}.

End broken.

(** *** What a match of an expression is *)

(** Where a match stands: the offset in the text, the text left, the
    captures so far. *)
Definition cursor : Type := (nat * string * regexp.captures)%type.

(** Any number of rounds of [R], one after the other. *)
Inductive rounds_of (R : cursor -> cursor -> Prop) : cursor -> cursor -> Prop :=
| rounds_none (x : cursor) : rounds_of R x x
| rounds_more (x y z : cursor) : R x y -> rounds_of R y z -> rounds_of R x z.

(** [steps r x y]: a match of [r] leads from [x] to [y]. *)
Fixpoint steps (r : regexp.re) (x y : cursor) : Prop :=
  match r with
  | regexp.BeginText => y = x /\ fst (fst x) = 0%nat
  | regexp.EndText => y = x /\ snd (fst x) = EmptyString
  | regexp.Class p =>
      exists c0 width,
        utf8.DecodeRuneInString (snd (fst x)) = (c0, S width)
        /\ p c0 = true
        /\ y = ((fst (fst x) + S width)%nat,
                regexp.from (S width) (snd (fst x)), snd x)
  | regexp.Cat r1 r2 => exists z, steps r1 x z /\ steps r2 z y
  | regexp.Star r1 => rounds_of (steps r1) x y
  | regexp.Capture j r1 =>
      exists i' s' c',
        steps r1 x (i', s', c')
        /\ y = (i', s',
                (j, substring 0 (i' - fst (fst x)) (snd (fst x))) :: c')
  end.

(** An expression without capturing groups. *)
Fixpoint no_groups (r : regexp.re) : bool :=
  match r with
  | regexp.Cat r1 r2 => no_groups r1 && no_groups r2
  | regexp.Star r1 => no_groups r1
  | regexp.Capture _ _ => false
  | _ => true
  end.

(** The largest [int]. *)
Definition MaxInt : Z := (2 ^ 63 - 1)%Z.

(** The tokens by which a plan asks for something that depends on the
    properties. *)
Definition plan_options : list string :=
  ["-c:v"; "-pix_fmt"; "scale=540:-2"; "scale=960:-2"; "-c:a"].

(** What the options of a plan say of the properties it was built
    from. *)
Definition options_reflect (plan : list string)
    (video vertical audio unsupported : bool) (depth : Z) : Prop :=
  (In "-c:v" plan <-> video = true)
  /\ (In "-pix_fmt" plan <-> video = true /\ (8 < depth)%Z)
  /\ (In "scale=540:-2" plan <-> video = true /\ vertical = true)
  /\ (In "scale=960:-2" plan <-> video = true /\ vertical = false)
  /\ (In "-c:a" plan <-> audio = true /\ unsupported = true).

(** The probe command of a file. *)
Definition probe (filePath : string) : list string :=
  ["ffprobe"; "-hide_banner"; "-loglevel"; "fatal"; "-show_error";
   "-show_format"; "-show_streams"; "-show_private_data"; "-print_format";
   "json"; filePath].

(** The directory [Proxy] of a file's directory. *)
Definition proxy_dir (filePath : string) : string :=
  filepath.Join [filepath.Dir filePath; "Proxy"].

(** An event that is a call to the system is one that [P] allows. *)
Definition calls_in (P : event -> Prop) (e : event) : Prop :=
  is_call e = true -> P e.


(** The calls of the remediation of a file: the creation of the
    directory [Originals], the move of the file into it, and the
    conversion back. *)
Definition remediation_call (filePath : string) (e : event) : Prop :=
  (exists perm, e = ev_MkdirAll (originals_dir filePath) perm)
  \/ e = ev_Rename filePath (relocated_path filePath)
  \/ e = ev_run (ffmpeg.CreateConvertedOriginalCommand filePath).

(** The calls of the workflow of [main] for a file. *)
Definition processFile_call (filePath : string) (file : os.DirEntry) (e : event)
  : Prop :=
  e = ev_run (probe filePath)
  \/ e = ev_run pix_fmts
  \/ (exists perm, e = ev_MkdirAll (proxy_dir filePath) perm)
  \/ (exists props,
        e = ev_run (main.createFfmpegCommandForProxy filePath
                      (proxy_path filePath file) props))
  \/ remediation_call filePath e.

(** An event that is a rename. *)
Definition is_rename (e : event) : bool :=
  match e with
  | ev_Rename _ _ => true
  | _ => false
  end.



(** The path [main] gives the entry [file] of the watched directory. *)
Definition entry_path (watchPath : string) (file : os.DirEntry) : string :=
  strings.TrimRight watchPath "/" ++ "/" ++ os.Name file.

(** The entries of a directory that [main] hands to its workflow, as far
    as their kind and name decide. *)
Definition eligible {tables : unicode.CaseTables} (watchPath : string)
    (file : os.DirEntry) : bool :=
  negb (os.IsDir file) && main.isMediaFile (entry_path watchPath file).

(** The error of the workflows for a file with nothing to make a proxy
    of. *)
Definition nothing_to_do (info : MediaInfo) : error :=
  match Streams info with
  | [] => errors_New "no streams found in media file"
  | _ => errors_New "no video or audio stream found"
  end.

(** A text whose first byte, if it has one, is an ASCII character. *)
Definition starts_ASCII (y : string) : bool :=
  match y with
  | EmptyString => true
  | String c _ => (utf8.byte c <? utf8.RuneSelf)%Z
  end.

(** * Properties *)

(** ** Byte strings *)

Lemma HasPrefix_app (p t : string) : strings.HasPrefix (p ++ t) p = true.
Proof.
  induction p as [|c p IH]; simpl.
  - destruct t; reflexivity.
  - now rewrite Ascii.eqb_refl, IH.
Qed.

Lemma HasPrefix_inv (p s : string) :
  strings.HasPrefix s p = true -> exists t, s = p ++ t.
Proof.
  revert s; induction p as [|c p IH]; intros s H.
  - now exists s.
  - destruct s as [|d s]; simpl in H; [discriminate|].
    apply andb_true_iff in H as [Hc Hp].
    apply Ascii.eqb_eq in Hc; subst d.
    destruct (IH _ Hp) as [t ->].
    now exists t.
Qed.

(** [strings.Contains] decides "has [sub] as a substring". *)
Lemma Contains_spec (s sub : string) :
  strings.Contains s sub = true <-> exists pre post, s = pre ++ sub ++ post.
Proof.
  split.
  - induction s as [|c s IH]; cbn [strings.Contains]; intros H.
    + rewrite orb_false_r in H.
      destruct (HasPrefix_inv _ _ H) as [t Ht].
      now exists EmptyString, t.
    + apply orb_true_iff in H as [H|H].
      * destruct (HasPrefix_inv _ _ H) as [t Ht].
        now exists EmptyString, t.
      * destruct (IH H) as (pre & post & ->).
        now exists (String c pre), post.
  - intros (pre & post & ->).
    induction pre as [|c pre IH].
    + change ("" ++ sub ++ post) with (sub ++ post).
      destruct (sub ++ post) eqn:E; cbn [strings.Contains];
        rewrite <- E, HasPrefix_app; reflexivity.
    + change (String c pre ++ sub ++ post) with (String c (pre ++ sub ++ post)).
      cbn [strings.Contains]. rewrite IH. apply orb_true_r.
Qed.

Lemma slices_Contains_spec (l : list string) (v : string) :
  slices.Contains l v = true <-> In v l.
Proof.
  unfold slices.Contains. rewrite existsb_exists. split.
  - intros (x & Hx & E). apply String.eqb_eq in E. now subst.
  - intros H. exists v. split; [assumption | apply String.eqb_refl].
Qed.

(** ** The codec-support predicate *)

Lemma IsAudioCodecSupported_iff (codecName : string) :
  media.IsAudioCodecSupported codecName = true <-> supported_by_spec codecName.
Proof.
  unfold media.IsAudioCodecSupported, supported_by_spec.
  destruct (strings.Contains codecName "pcm_") eqn:Hc.
  - apply Contains_spec in Hc. tauto.
  - assert (Hn : ~ exists pre post, codecName = pre ++ "pcm_" ++ post).
    { intros H. apply Contains_spec in H. congruence. }
    destruct (slices.Contains _ codecName) eqn:Hs.
    + apply slices_Contains_spec in Hs. simpl in Hs. intuition auto.
    + split; [discriminate|].
      intros [H|H]; [contradiction|].
      assert (Hin : In codecName ["mp3"; "opus"; "flac"; "ac3"]).
      { simpl. intuition auto. }
      apply slices_Contains_spec in Hin. congruence.
Qed.

Lemma main_isAudioCodecSupported_eq (codecName : string) :
  main.isAudioCodecSupported codecName = media.IsAudioCodecSupported codecName.
Proof. reflexivity. Qed.

(** C1.  For every codec name, the codec-support predicate (of package
    [media] and of [main]) is true exactly when the name contains the
    substring ["pcm_"] or is one of ["mp3"], ["opus"], ["flac"], ["ac3"];
    it is true of ["pcm_s16le"], ["mp3"], ["opus"], ["flac"], ["ac3"] and
    ["pcm_anything"], and false of ["aac"]. *)
Theorem C1_codec_support :
  forall codecName : string,
    (media.IsAudioCodecSupported codecName = true <-> supported_by_spec codecName)
    /\ (main.isAudioCodecSupported codecName = true <-> supported_by_spec codecName)
    /\ map media.IsAudioCodecSupported
         ["pcm_s16le"; "mp3"; "opus"; "flac"; "ac3"; "pcm_anything"; "aac"]
       = [true; true; true; true; true; true; false]
    /\ map main.isAudioCodecSupported
         ["pcm_s16le"; "mp3"; "opus"; "flac"; "ac3"; "pcm_anything"; "aac"]
       = [true; true; true; true; true; true; false].
Proof.
  intros codecName. repeat split.
  - apply IsAudioCodecSupported_iff.
  - apply IsAudioCodecSupported_iff.
  - rewrite main_isAudioCodecSupported_eq. apply IsAudioCodecSupported_iff.
  - rewrite main_isAudioCodecSupported_eq. apply IsAudioCodecSupported_iff.
Qed.

(** ** Paths *)

Example Clean_examples :
  map filepath.Clean
    [""; "abc"; "abc/def"; "."; ".."; "../.."; "../../abc"; "/abc"; "/";
     "abc/"; "abc/def/"; "./"; "../"; "/abc/"; "abc//def//ghi"; "//abc";
     "///abc"; "//abc//"; "abc//"; "abc/./def"; "/./abc/def"; "abc/.";
     "abc/def/ghi/../jkl"; "abc/def/../ghi/../jkl"; "abc/def/..";
     "abc/def/../.."; "/abc/def/../.."; "abc/def/../../..";
     "/abc/def/../../.."; "abc/def/../../../ghi/jkl/../../../mno";
     "/../abc"; "abc/./../def"; "abc//./../def"; "abc/../../././../def"]
  = ["."; "abc"; "abc/def"; "."; ".."; "../.."; "../../abc"; "/abc"; "/";
     "abc"; "abc/def"; "."; ".."; "/abc"; "abc/def/ghi"; "/abc";
     "/abc"; "/abc"; "abc"; "abc/def"; "/abc/def"; "abc";
     "abc/def/jkl"; "abc/jkl"; "abc";
     "."; "/"; "..";
     "/"; "../../mno";
     "/abc"; "def"; "def"; "../../def"].
Proof. vm_compute. reflexivity. Qed.

Example Dir_Base_Ext_examples :
  map filepath.Dir ["/foo/bar/baz.js"; "/foo/bar/baz/"; "dev.txt"; "../todo.txt"; ".."; "."; "/"; ""; "/a/b"]
  = ["/foo/bar"; "/foo/bar/baz"; "."; ".."; "."; "."; "/"; "."; "/a"]
  /\ map filepath.Base ["/foo/bar/baz.js"; "/foo/bar/baz/"; "dev.txt"; "../todo.txt"; ".."; "."; "/"; ""; "a/b/"]
  = ["baz.js"; "baz"; "dev.txt"; "todo.txt"; ".."; "."; "/"; "."; "b"]
  /\ map filepath.Ext ["index"; "index.js"; "main.test.js"; "a.b/c"; "clip.MP4"; ".bashrc"]
  = [""; ".js"; ".js"; ""; ".MP4"; ".bashrc"]
  /\ filepath.Join ["a"; "b"; "c"] = "a/b/c"
  /\ filepath.Join ["a"; "b/c"] = "a/b/c"
  /\ filepath.Join ["a/b"; "../../../xyz"] = "../xyz"
  /\ filepath.Join [""; ""] = ""
  /\ filepath.Join [""; "a"] = "a"
  /\ filepath.Join ["."; "Proxy"; "clip.mov"] = "Proxy/clip.mov"
  /\ filepath.Join ["/"; "Proxy"; "clip.mov"] = "/Proxy/clip.mov".
Proof. vm_compute. repeat split. Qed.

(** *** The cleaning of paths *)

Lemma append_assoc (a b c : string) : (a ++ b) ++ c = a ++ b ++ c.
Proof. induction a as [|x a IH]; simpl; [reflexivity | now rewrite IH]. Qed.

Lemma append_nil_r (a : string) : a ++ "" = a.
Proof. induction a as [|x a IH]; simpl; [reflexivity | now rewrite IH]. Qed.

Lemma Split_nonempty (s : string) (sep : ascii) : strings.Split s sep <> [].
Proof.
  destruct s as [|c s]; simpl; [discriminate|].
  destruct (Ascii.eqb c sep); [discriminate|].
  destruct (strings.Split s sep); discriminate.
Qed.

Lemma Split_app (x y : string) (sep : ascii) :
  strings.Split (x ++ String sep y) sep
  = (strings.Split x sep ++ strings.Split y sep)%list.
Proof.
  induction x as [|c x IH]; simpl.
  - now rewrite Ascii.eqb_refl.
  - destruct (Ascii.eqb c sep); [now rewrite IH|].
    rewrite IH. pose proof (Split_nonempty x sep).
    destruct (strings.Split x sep); [contradiction | reflexivity].
Qed.

Lemma Split_no_sep (e : string) :
  no_sep e = true -> strings.Split e filepath.Separator = [e].
Proof.
  induction e as [|c e IH]; simpl; [reflexivity|].
  unfold filepath.IsPathSeparator. intros H. apply andb_true_iff in H as [Hc He].
  apply negb_true_iff in Hc. rewrite Hc, (IH He). reflexivity.
Qed.

Lemma Split_elements_no_sep (s : string) :
  Forall (fun e => no_sep e = true) (strings.Split s filepath.Separator).
Proof.
  induction s as [|c s IH]; simpl.
  - repeat constructor.
  - destruct (Ascii.eqb c filepath.Separator) eqn:E.
    + constructor; [reflexivity | exact IH].
    + pose proof (Split_nonempty s filepath.Separator).
      destruct (strings.Split s filepath.Separator) as [|f fs]; [contradiction|].
      inversion IH; subst. constructor; [|assumption].
      simpl. unfold filepath.IsPathSeparator. now rewrite E.
Qed.

Lemma join_sep_cons (a b : string) (l : list string) :
  filepath.join_sep (a :: b :: l) = a ++ "/" ++ filepath.join_sep (b :: l).
Proof. reflexivity. Qed.

Lemma join_sep_snoc (l : list string) (e : string) :
  l <> [] -> filepath.join_sep (l ++ [e]) = filepath.join_sep l ++ "/" ++ e.
Proof.
  induction l as [|a l IH]; intros H; [contradiction|].
  destruct l as [|b l]; [reflexivity|].
  change ((a :: b :: l) ++ [e])%list with (a :: (b :: l) ++ [e])%list.
  change ((b :: l) ++ [e])%list with (b :: l ++ [e])%list at 1.
  rewrite join_sep_cons, join_sep_cons.
  change (b :: l ++ [e])%list with ((b :: l) ++ [e])%list.
  rewrite IH by discriminate.
  now rewrite !append_assoc.
Qed.

Lemma Split_join_sep (l : list string) :
  l <> [] -> Forall (fun e => no_sep e = true) l ->
  strings.Split (filepath.join_sep l) filepath.Separator = l.
Proof.
  induction l as [|a l IH]; intros H Hl; [contradiction|].
  inversion Hl as [|? ? Ha Hl']; subst.
  destruct l as [|b l]; [now apply Split_no_sep|].
  rewrite join_sep_cons.
  change (a ++ "/" ++ filepath.join_sep (b :: l))
    with (a ++ String filepath.Separator (filepath.join_sep (b :: l))).
  rewrite Split_app, (Split_no_sep a Ha), IH by (discriminate || assumption).
  reflexivity.
Qed.

(** The elements [Clean] keeps. *)

Lemma is_name_inv (e : string) :
  is_name e = true ->
  no_sep e = true /\ String.eqb e "" = false /\ String.eqb e "." = false
  /\ String.eqb e ".." = false.
Proof.
  unfold is_name. intros H.
  repeat (apply andb_true_iff in H as [H ?]).
  repeat split; try assumption; now apply negb_true_iff.
Qed.

Lemma clean_step_name (r : bool) (out : list string) (e : string) :
  is_name e = true -> filepath.clean_step r out e = e :: out.
Proof.
  intros H. apply is_name_inv in H as (_ & H1 & H2 & H3).
  unfold filepath.clean_step. now rewrite H1, H2, H3.
Qed.

Lemma kept_elements_nil (r : bool) : kept_elements r [].
Proof. exists [], 0%nat. repeat split; auto. Qed.

Lemma kept_elements_step (r : bool) (out : list string) (e : string) :
  kept_elements r out -> no_sep e = true -> kept_elements r (filepath.clean_step r out e).
Proof.
  intros (names & k & -> & Hn & Hk) He.
  unfold filepath.clean_step.
  destruct (String.eqb_spec e "") as [->|Hne]; [exists names, k; auto|].
  destruct (String.eqb_spec e ".") as [->|Hnd]; [exists names, k; auto|].
  destruct (String.eqb_spec e "..") as [->|Hdd].
  - destruct names as [|n names].
    + simpl. destruct k as [|k]; simpl.
      * destruct r; [apply kept_elements_nil|].
        exists [], 1%nat. repeat split; [constructor | discriminate].
      * exists [], (S (S k)). repeat split; [constructor|].
        intros Hr. specialize (Hk Hr). discriminate.
    + simpl. inversion Hn as [|? ? Hname Hn']; subst.
      apply is_name_inv in Hname as (_ & _ & _ & ->).
      exists names, k. auto.
  - exists (e :: names), k. repeat split; [|assumption].
    constructor; [|assumption].
    unfold is_name. rewrite He. simpl.
    repeat (apply andb_true_iff; split); simpl; apply negb_true_iff;
      now apply String.eqb_neq.
Qed.

Lemma kept_elements_fold (r : bool) (l out : list string) :
  Forall (fun e => no_sep e = true) l -> kept_elements r out ->
  kept_elements r (fold_left (filepath.clean_step r) l out).
Proof.
  revert out. induction l as [|e l IH]; intros out Hl Hout; simpl; [assumption|].
  inversion Hl; subst. apply IH; [assumption|]. now apply kept_elements_step.
Qed.

Lemma elements_kept (path : string) :
  kept_elements (rooted path) (elements path).
Proof. apply kept_elements_fold; [apply Split_elements_no_sep | apply kept_elements_nil]. Qed.

Lemma Clean_render (path : string) :
  path <> "" -> filepath.Clean path = render (rooted path) (elements path).
Proof. destruct path; [contradiction | reflexivity]. Qed.

Lemma kept_first (e : string) :
  kept e -> exists c e', e = String c e' /\ filepath.IsPathSeparator c = false
                         /\ no_sep e = true /\ e <> ".".
Proof.
  intros [H| ->].
  - apply is_name_inv in H as (Hs & H0 & H1 & _).
    destruct e as [|c e']; [discriminate|].
    exists c, e'. simpl in Hs. apply andb_true_iff in Hs as [Hc Hs'].
    repeat split.
    + now apply negb_true_iff in Hc.
    + simpl. now rewrite Hc, Hs'.
    + now apply String.eqb_neq.
  - exists "."%char, ".". repeat split. discriminate.
Qed.

Lemma kept_elements_kept (r : bool) (out : list string) : kept_elements r out -> Forall kept out.
Proof.
  intros (names & k & -> & Hn & _). apply Forall_app. split.
  - eapply Forall_impl; [|exact Hn]. intros e H. now left.
  - apply Forall_forall. intros e H. apply repeat_spec in H. now right.
Qed.

Lemma join_sep_kept (l : list string) :
  l <> [] -> Forall kept l ->
  exists c t, filepath.join_sep l = String c t
              /\ filepath.IsPathSeparator c = false
              /\ filepath.join_sep l <> ".".
Proof.
  destruct l as [|a l]; intros H Hl; [contradiction|].
  inversion Hl as [|? ? Ha Hl']; subst.
  destruct (kept_first a Ha) as (c & a' & -> & Hc & _ & Hdot).
  destruct l as [|b l].
  - exists c, a'. auto.
  - rewrite join_sep_cons. simpl. eexists c, _. repeat split; [assumption|].
    intros E. inversion E as [[Ec Et]]. destruct a'; discriminate.
Qed.

Lemma Forall_rev_iff {A : Type} (P : A -> Prop) (l : list A) :
  Forall P l -> Forall P (rev l).
Proof.
  intros H. apply Forall_forall. intros x Hx. apply in_rev in Hx.
  revert x Hx. now apply Forall_forall.
Qed.

Lemma rev_nonempty {A : Type} (l : list A) : l <> [] -> rev l <> [].
Proof.
  destruct l as [|a l]; [contradiction|]. intros _ E.
  apply (f_equal (@List.length A)) in E. simpl in E.
  rewrite length_app in E. simpl in E. lia.
Qed.

Lemma render_cases (r : bool) (out : list string) :
  kept_elements r out ->
  (out = [] /\ render r out = if r then "/" else ".")
  \/ (out <> [] /\ exists c t,
         filepath.join_sep (rev out) = String c t
         /\ filepath.IsPathSeparator c = false
         /\ filepath.join_sep (rev out) <> "."
         /\ render r out
            = if r then String filepath.Separator (filepath.join_sep (rev out))
              else filepath.join_sep (rev out)).
Proof.
  intros Hwf. destruct out as [|e out]; [left; destruct r; auto|].
  right. split; [discriminate|].
  destruct (join_sep_kept (rev (e :: out))) as (c & t & E & Hc & Hd).
  - apply rev_nonempty. discriminate.
  - apply Forall_rev_iff. eapply kept_elements_kept; eassumption.
  - exists c, t. repeat split; assumption.
Qed.

Lemma rooted_render (r : bool) (out : list string) :
  kept_elements r out -> rooted (render r out) = r.
Proof.
  intros Hwf. destruct (render_cases r out Hwf) as [[_ ->]|(_ & c & t & E & Hc & _ & ->)].
  - destruct r; reflexivity.
  - destruct r; [reflexivity|]. rewrite E. exact Hc.
Qed.

Lemma render_child (r : bool) (out : list string) (e : string) :
  kept_elements r out -> is_name e = true ->
  render r (e :: out) = child (render r out) e.
Proof.
  intros Hwf He.
  destruct (render_cases r out Hwf) as [[-> ->]|(Hne & c & t & E & Hc & Hd & ->)].
  - destruct r; reflexivity.
  - unfold render. simpl rev.
    rewrite join_sep_snoc by now apply rev_nonempty.
    destruct r.
    + rewrite E. unfold child.
      replace (String.eqb (String filepath.Separator (String c t)) "/") with false
        by (simpl; now destruct t).
      replace (String.eqb (String filepath.Separator (String c t)) ".") with false
        by reflexivity.
      reflexivity.
    + unfold child.
      replace (String.eqb (filepath.join_sep (rev out)) "/") with false.
      2:{ symmetry. apply String.eqb_neq. rewrite E. intros X.
          inversion X; subst. discriminate. }
      replace (String.eqb (filepath.join_sep (rev out)) ".") with false.
      2:{ symmetry. now apply String.eqb_neq. }
      reflexivity.
Qed.

Lemma fold_names (r : bool) (l acc : list string) :
  Forall (fun e => is_name e = true) l ->
  fold_left (filepath.clean_step r) l acc = (rev l ++ acc)%list.
Proof.
  revert acc. induction l as [|e l IH]; intros acc Hl; [reflexivity|].
  inversion Hl; subst. simpl. rewrite clean_step_name by assumption.
  rewrite IH by assumption. now rewrite <- app_assoc.
Qed.

Lemma fold_dotdots (k j : nat) :
  fold_left (filepath.clean_step false) (repeat ".." k) (repeat ".." j)
  = repeat ".." (k + j).
Proof.
  revert j. induction k as [|k IH]; intros j; [reflexivity|].
  simpl repeat at 1. simpl fold_left.
  replace (filepath.clean_step false (repeat ".." j) "..")
    with (repeat ".." (S j)) by (destruct j; reflexivity).
  rewrite IH. f_equal. lia.
Qed.

Lemma fold_rev_wf (r : bool) (out : list string) :
  kept_elements r out -> fold_left (filepath.clean_step r) (rev out) [] = out.
Proof.
  intros (names & k & -> & Hn & Hk).
  rewrite rev_app_distr, rev_repeat, fold_left_app.
  assert (E : fold_left (filepath.clean_step r) (repeat ".." k) [] = repeat ".." k).
  { destruct r.
    - now rewrite (Hk eq_refl).
    - change (@nil string) with (repeat ".." 0). rewrite fold_dotdots.
      f_equal. lia. }
  rewrite E, fold_names by now apply Forall_rev_iff.
  now rewrite rev_involutive.
Qed.

Lemma kept_elements_no_sep (r : bool) (out : list string) :
  kept_elements r out -> Forall (fun e => no_sep e = true) out.
Proof.
  intros H. apply kept_elements_kept in H. eapply Forall_impl; [|exact H].
  intros e He. now destruct (kept_first e He) as (_ & _ & _ & _ & Hs & _).
Qed.

Lemma elements_render (r : bool) (out : list string) :
  kept_elements r out -> elements (render r out) = out.
Proof.
  intros Hwf. unfold elements. rewrite (rooted_render r out Hwf).
  destruct out as [|e out]; [destruct r; reflexivity|].
  assert (Hs : strings.Split (filepath.join_sep (rev (e :: out))) filepath.Separator
               = rev (e :: out)).
  { apply Split_join_sep; [apply rev_nonempty; discriminate|].
    apply Forall_rev_iff. now apply (kept_elements_no_sep r). }
  destruct r.
  - change (render true (e :: out))
      with ("" ++ String filepath.Separator (filepath.join_sep (rev (e :: out)))).
    rewrite Split_app, Hs. cbn [strings.Split app fold_left].
    change (filepath.clean_step true [] "") with (@nil string).
    now apply fold_rev_wf.
  - change (render false (e :: out)) with (filepath.join_sep (rev (e :: out))).
    rewrite Hs. now apply fold_rev_wf.
Qed.

(** [Clean] leaves a clean path alone. *)
Lemma Clean_idempotent (path : string) :
  filepath.Clean (filepath.Clean path) = filepath.Clean path.
Proof.
  destruct (String.eqb_spec path "") as [->|Hne]; [reflexivity|].
  rewrite (Clean_render path Hne).
  pose proof (elements_kept path) as Hwf.
  set (r := rooted path) in *. set (out := elements path) in *.
  assert (Hr : render r out <> "").
  { destruct (render_cases r out Hwf) as [[_ ->]|(_ & c & t & E & _ & _ & ->)];
      destruct r; try discriminate. now rewrite E. }
  rewrite (Clean_render _ Hr), (rooted_render r out Hwf), (elements_render r out Hwf).
  reflexivity.
Qed.

Lemma rooted_app (x y : string) : x <> "" -> rooted (x ++ y) = rooted x.
Proof. destruct x; [contradiction | reflexivity]. Qed.

Lemma append_nonempty (x y : string) : x <> "" -> x ++ y <> "".
Proof. destruct x; [contradiction | discriminate]. Qed.

(** The clean path of a name in a directory. *)
Lemma Clean_snoc (x e : string) :
  x <> "" -> is_name e = true ->
  filepath.Clean (x ++ "/" ++ e) = child (filepath.Clean x) e.
Proof.
  intros Hx He.
  rewrite (Clean_render (x ++ "/" ++ e)) by now apply append_nonempty.
  rewrite (Clean_render x Hx).
  unfold elements. rewrite (rooted_app x _ Hx).
  change (x ++ "/" ++ e) with (x ++ String filepath.Separator e).
  rewrite Split_app, fold_left_app.
  rewrite (Split_no_sep e) by now apply is_name_inv in He.
  simpl fold_left. rewrite clean_step_name by assumption.
  apply render_child; [apply elements_kept | assumption].
Qed.

Lemma Clean_trailing (x : string) :
  x <> "" -> filepath.Clean (x ++ "/") = filepath.Clean x.
Proof.
  intros Hx.
  rewrite (Clean_render (x ++ "/")) by now apply append_nonempty.
  rewrite (Clean_render x Hx).
  unfold elements. rewrite (rooted_app x _ Hx).
  change (x ++ "/") with (x ++ String filepath.Separator "").
  rewrite Split_app, fold_left_app. reflexivity.
Qed.

(** [Split], [Dir], [Base] and [Join]. *)

Lemma Split_name (e : string) :
  no_sep e = true -> filepath.Split e = ("", e).
Proof.
  induction e as [|c e IH]; intros H; [reflexivity|].
  simpl in H. apply andb_true_iff in H as [Hc He]. apply negb_true_iff in Hc.
  simpl. rewrite (IH He), Hc. reflexivity.
Qed.

Lemma Split_snoc (x e : string) :
  no_sep e = true -> filepath.Split (x ++ "/" ++ e) = (x ++ "/", e).
Proof.
  intros He. induction x as [|c x IH].
  - simpl. now rewrite (Split_name e He).
  - change (String c x ++ "/" ++ e) with (String c (x ++ "/" ++ e)).
    cbn [filepath.Split]. rewrite IH.
    destruct (filepath.IsPathSeparator c); [reflexivity|].
    destruct x; reflexivity.
Qed.

Lemma strip_name (e : string) :
  no_sep e = true -> e <> "" -> filepath.strip_trailing_slashes e = e.
Proof.
  induction e as [|c e IH]; intros He Hne; [contradiction|].
  simpl in He. apply andb_true_iff in He as [Hc He]. apply negb_true_iff in Hc.
  cbn [filepath.strip_trailing_slashes].
  destruct e as [|d e].
  - simpl. now rewrite Hc.
  - rewrite IH by (assumption || discriminate). reflexivity.
Qed.

Lemma strip_snoc (y e : string) :
  no_sep e = true -> e <> "" ->
  filepath.strip_trailing_slashes (y ++ e) = y ++ e.
Proof.
  intros He Hne. induction y as [|c y IH]; [now apply strip_name|].
  change (String c y ++ e) with (String c (y ++ e)).
  cbn [filepath.strip_trailing_slashes]. rewrite IH.
  destruct (y ++ e) eqn:E; [|reflexivity].
  destruct y; [simpl in E; contradiction | discriminate].
Qed.

Lemma is_name_nonempty (e : string) : is_name e = true -> e <> "".
Proof. intros H. apply is_name_inv in H as (_ & H & _). now apply String.eqb_neq. Qed.

Lemma is_name_no_sep (e : string) : is_name e = true -> no_sep e = true.
Proof. intros H. now apply is_name_inv in H. Qed.

(** The base name and the directory of a name in a directory. *)
Lemma Base_snoc (x e : string) :
  is_name e = true -> filepath.Base (x ++ "/" ++ e) = e.
Proof.
  intros He. pose proof (is_name_nonempty e He) as Hne.
  pose proof (is_name_no_sep e He) as Hs.
  unfold filepath.Base.
  destruct (x ++ "/" ++ e) eqn:E; [destruct x; discriminate|]. rewrite <- E.
  replace (x ++ "/" ++ e) with ((x ++ "/") ++ e) by apply append_assoc.
  rewrite strip_snoc by assumption.
  rewrite append_assoc, Split_snoc by assumption.
  destruct e; [contradiction | reflexivity].
Qed.

Lemma Base_name (e : string) : is_name e = true -> filepath.Base e = e.
Proof.
  intros He. pose proof (is_name_nonempty e He) as Hne.
  pose proof (is_name_no_sep e He) as Hs.
  unfold filepath.Base. destruct e as [|c e]; [contradiction|].
  rewrite strip_name, Split_name by assumption. reflexivity.
Qed.

Lemma Dir_snoc (x e : string) :
  x <> "" -> no_sep e = true ->
  filepath.Dir (x ++ "/" ++ e) = filepath.Clean x.
Proof.
  intros Hx He. unfold filepath.Dir. rewrite Split_snoc by assumption.
  now apply Clean_trailing.
Qed.

Lemma Dir_name (e : string) : no_sep e = true -> filepath.Dir e = ".".
Proof. intros He. unfold filepath.Dir. now rewrite Split_name. Qed.

Lemma Dir_root_name (e : string) : no_sep e = true -> filepath.Dir ("/" ++ e) = "/".
Proof.
  intros He. unfold filepath.Dir.
  change ("/" ++ e) with ("" ++ "/" ++ e). now rewrite Split_snoc.
Qed.

Lemma Clean_nonempty (path : string) : filepath.Clean path <> "".
Proof.
  destruct (String.eqb_spec path "") as [->|Hne]; [discriminate|].
  rewrite (Clean_render path Hne).
  destruct (render_cases _ _ (elements_kept path))
    as [[_ ->]|(_ & c & t & E & _ & _ & ->)];
    destruct (rooted path); try discriminate. now rewrite E.
Qed.

Lemma clean_nonempty (c : string) : filepath.Clean c = c -> c <> "".
Proof. intros E. rewrite <- E. apply Clean_nonempty. Qed.

(** A name in a clean directory: its path, its directory and its base
    name. *)
Lemma child_cases (c e : string) :
  (c = "/" /\ child c e = "/" ++ e)
  \/ (c = "." /\ child c e = e)
  \/ (c <> "/" /\ c <> "." /\ child c e = c ++ "/" ++ e).
Proof.
  unfold child.
  destruct (String.eqb_spec c "/") as [->|H1]; [now left|].
  destruct (String.eqb_spec c ".") as [->|H2]; [right; now left|].
  right; right. auto.
Qed.

Lemma Join_child (c e : string) :
  filepath.Clean c = c -> is_name e = true ->
  filepath.Join [c; e] = child c e.
Proof.
  intros Hc He. pose proof (clean_nonempty c Hc) as Hne.
  unfold filepath.Join. apply String.eqb_neq in Hne. rewrite Hne.
  change (filepath.join_sep [c; e]) with (c ++ "/" ++ e).
  rewrite Clean_snoc by (try assumption; now apply String.eqb_neq).
  now rewrite Hc.
Qed.

Lemma Clean_child (c e : string) :
  filepath.Clean c = c -> is_name e = true ->
  filepath.Clean (child c e) = child c e.
Proof.
  intros Hc He. rewrite <- (Join_child c e Hc He).
  pose proof (clean_nonempty c Hc) as Hne. apply String.eqb_neq in Hne.
  unfold filepath.Join. rewrite Hne. apply Clean_idempotent.
Qed.

Lemma Dir_child (c e : string) :
  filepath.Clean c = c -> is_name e = true -> filepath.Dir (child c e) = c.
Proof.
  intros Hc He. pose proof (is_name_no_sep e He) as Hs.
  destruct (child_cases c e) as [[-> ->]|[[-> ->]|(H1 & H2 & ->)]].
  - now apply Dir_root_name.
  - now apply Dir_name.
  - rewrite Dir_snoc by (try assumption; now apply clean_nonempty). exact Hc.
Qed.

Lemma Base_child (c e : string) :
  is_name e = true -> filepath.Base (child c e) = e.
Proof.
  intros He.
  destruct (child_cases c e) as [[-> ->]|[[-> ->]|(H1 & H2 & ->)]].
  - change ("/" ++ e) with ("" ++ "/" ++ e). now apply Base_snoc.
  - now apply Base_name.
  - now apply Base_snoc.
Qed.

Lemma child_ordinary (c e : string) :
  is_name e = true -> child c e <> "/" /\ child c e <> ".".
Proof.
  intros He. pose proof (is_name_inv e He) as (Hs & H0 & H1 & _).
  apply String.eqb_neq in H0, H1.
  destruct (child_cases c e) as [[-> ->]|[[-> ->]|(_ & _ & ->)]].
  - split; [|discriminate]. destruct e; [contradiction | discriminate].
  - split; [|assumption]. intros ->. discriminate.
  - destruct c as [|a c].
    + split; [|discriminate]. destruct e; [contradiction | discriminate].
    + split; intros E; inversion E as [[Ea Ec]]; destruct c; discriminate.
Qed.

Lemma Join3_child (c a e : string) :
  filepath.Clean c = c -> is_name a = true -> is_name e = true ->
  filepath.Join [c; a; e] = child c a ++ "/" ++ e
  /\ filepath.Join [filepath.Join [c; a]; e] = child c a ++ "/" ++ e.
Proof.
  intros Hc Ha He. pose proof (clean_nonempty c Hc) as Hne.
  pose proof (child_ordinary c a Ha) as [Hr Hd].
  assert (E : child (child c a) e = child c a ++ "/" ++ e).
  { destruct (child_cases (child c a) e) as [[X _]|[[X _]|(_ & _ & X)]];
      [contradiction | contradiction | exact X]. }
  split.
  - unfold filepath.Join. apply String.eqb_neq in Hne. rewrite Hne.
    change (filepath.join_sep [c; a; e]) with (c ++ "/" ++ a ++ "/" ++ e).
    replace (c ++ "/" ++ a ++ "/" ++ e) with ((c ++ "/" ++ a) ++ "/" ++ e)
      by now rewrite !append_assoc.
    apply String.eqb_neq in Hne.
    rewrite Clean_snoc by (try assumption; now apply append_nonempty).
    rewrite Clean_snoc, Hc by assumption. exact E.
  - rewrite (Join_child c a Hc Ha).
    rewrite (Join_child (child c a) e (Clean_child c a Hc Ha) He). exact E.
Qed.

Lemma Clean_Dir (path : string) : filepath.Clean (filepath.Dir path) = filepath.Dir path.
Proof. apply Clean_idempotent. Qed.

(** ** The catalog resolver *)

(** The line of the specification's example, with three blanks between
    the five flag bytes and the name, and the line with one blank, as
    [ffmpeg -pix_fmts] prints its records. *)
Example catalog_line_three_blanks :
  regexp.FindStringSubmatch media.pixelFormatExp
    "-----   yuv420p          3            12        8-8-8" = [].
Proof. vm_compute. reflexivity. Qed.

Example catalog_line_one_blank :
  regexp.FindStringSubmatch media.pixelFormatExp
    "----- yuv420p          3            12        8-8-8"
  = ["----- yuv420p          3            12        8-8-8";
     "yuv420p"; "3"; "12"; "8-8-8"].
Proof. vm_compute. reflexivity. Qed.

Example catalog_lines :
  map (media.scanCatalog (strings.Split sim.catalog "010"))
    ["yuv420p"; "rgb24"; "monow"; "gray"; "rgb565le"; "yuv420p10le"; "nv12"]
  = [Some 8; Some 8; Some 1; Some 8; Some 5; Some 10; None]%Z.
Proof. vm_compute. reflexivity. Qed.

Lemma main_scanCatalog_eq (outputArr : list string) (pixelFormat : string) :
  main.scanCatalog outputArr pixelFormat = media.scanCatalog outputArr pixelFormat.
Proof. induction outputArr as [|l rest IH]; [reflexivity|]. simpl. now rewrite IH. Qed.

Section Resolver.
Context {FS : Type} {sys : System FS}.

(** The resolver runs the catalog command once and scans what it
    prints. *)
Lemma GetBitDepth_output (pixelFormat output : string) (w : World FS) (fs' : FS) :
  sys_run ["ffmpeg"; "-hide_banner"; "-pix_fmts"] w = ((output, None), fs') ->
  media.GetBitDepth pixelFormat w
  = (match media.scanCatalog (strings.Split output "010") pixelFormat with
     | Some bitDepth => (bitDepth, None)
     | None => ((-1)%Z, Some (fmt_Errorf "pixel format %s not found"
                                [arg_string pixelFormat]))
     end,
     {| fs := fs';
        trace := (trace w ++ [ev_run ["ffmpeg"; "-hide_banner"; "-pix_fmts"]])%list |}).
Proof.
  intros H. unfold media.GetBitDepth, bind, exec_CombinedOutput. rewrite H.
  destruct (media.scanCatalog _ _); reflexivity.
Qed.

Lemma getBitDepth_output (pixelFormat output : string) (w : World FS) (fs' : FS) :
  sys_run ["ffmpeg"; "-hide_banner"; "-pix_fmts"] w = ((output, None), fs') ->
  main.getBitDepth pixelFormat w
  = (match media.scanCatalog (strings.Split output "010") pixelFormat with
     | Some bitDepth => (bitDepth, None)
     | None => ((-1)%Z, Some (fmt_Errorf "pixel format %s not found"
                                [arg_string pixelFormat]))
     end,
     {| fs := fs';
        trace := (trace w ++ [ev_run ["ffmpeg"; "-hide_banner"; "-pix_fmts"]])%list |}).
Proof.
  intros H. unfold main.getBitDepth, bind, exec_CombinedOutput. rewrite H.
  rewrite main_scanCatalog_eq.
  destruct (media.scanCatalog _ _); reflexivity.
Qed.

End Resolver.

(** C2, as amended.  When the catalog command prints the single line
    ["----- yuv420p          3            12        8-8-8"], with one
    blank between the five flag bytes and the name, resolving the bit
    depth of ["yuv420p"] succeeds and returns 8: the component count 3
    is greater than 1, and only the first [-]-separated token of
    ["8-8-8"] is used. *)
Theorem C2_resolves_yuv420p :
  forall (FS : Type) (sys : System FS) (w : World FS) (fs' : FS),
    sys_run ["ffmpeg"; "-hide_banner"; "-pix_fmts"] w
    = (("----- yuv420p          3            12        8-8-8", None), fs') ->
    fst (media.GetBitDepth "yuv420p" w) = (8%Z, None)
    /\ fst (main.getBitDepth "yuv420p" w) = (8%Z, None).
Proof.
  intros FS sys w fs' H. split.
  - rewrite (GetBitDepth_output _ _ _ _ H). vm_compute. reflexivity.
  - rewrite (getBitDepth_output _ _ _ _ H). vm_compute. reflexivity.
Qed.

Lemma C2_resolves_yuv420p_witness :
  fst (media.GetBitDepth (sys := sim.system
         "----- yuv420p          3            12        8-8-8" (sim.probed []))
         "yuv420p" (sim.world [])) = (8%Z, None)
  /\ fst (main.getBitDepth (sys := sim.system
         "----- yuv420p          3            12        8-8-8" (sim.probed []))
         "yuv420p" (sim.world [])) = (8%Z, None).
Proof.
  apply (C2_resolves_yuv420p sim.FS
           (sim.system "----- yuv420p          3            12        8-8-8"
              (sim.probed []))
           (sim.world []) []).
  reflexivity.
Defined.

(** C2, as stated, fails: on the line with three blanks the pattern does
    not match (after the five flag bytes and one blank the name is empty,
    and no digit follows the blanks), and the resolution reports that the
    format was not found. *)
Lemma C2_three_blanks_not_found :
  fst (media.GetBitDepth (sys := sim.system
         "-----   yuv420p          3            12        8-8-8" (sim.probed []))
         "yuv420p" (sim.world []))
  = ((-1)%Z, Some (fmt_Errorf "pixel format %s not found" [arg_string "yuv420p"])).
Proof. vm_compute. reflexivity. Qed.

(** ** The analyzer's reduction over the streams *)

Lemma for_range_app {FS A S : Type} (l1 l2 : list A) (body : S -> A -> M FS S)
    (s : S) (w : World FS) :
  for_range (l1 ++ l2) body s w
  = let (s1, w1) := for_range l1 body s w in for_range l2 body s1 w1.
Proof.
  revert s w. induction l1 as [|x l1 IH]; intros s w; simpl.
  - reflexivity.
  - unfold bind. destruct (body s x w) as [s' w']. apply IH.
Qed.

Lemma highest_nonneg (depths : list Z) : (0 <= highest depths)%Z.
Proof. induction depths as [|d ds IH]; simpl; lia. Qed.

Lemma highest_ge (depths : list Z) (d : Z) :
  In d depths -> (d <= highest depths)%Z.
Proof.
  induction depths as [|x ds IH]; simpl; [tauto|].
  intros [->|H]; [lia|]. specialize (IH H). lia.
Qed.

Lemma fold_max_base (l : list Z) (a d : Z) :
  fold_right Z.max (Z.max a d) l = Z.max d (fold_right Z.max a l).
Proof. induction l as [|x l IH]; simpl; [lia | rewrite IH; lia]. Qed.

Lemma depths_used_no_video {W : Type} (resolve : string -> W -> Z * option error)
    (next : Stream -> W -> W) (streams : list Stream) (w : W) :
  existsb is_video streams = false -> depths_used resolve next streams w = [].
Proof.
  revert w. induction streams as [|s rest IH]; intros w; simpl; [reflexivity|].
  intros H. apply orb_false_iff in H as [Hs Hr]. rewrite Hs. simpl. now apply IH.
Qed.

(** The two analyzers are one loop over the streams whose body, on a video
    stream, raises the depth to the depth used for the stream and sets the
    orientation from the stream's own size, and on any other stream leaves
    both alone.  What follows holds of any such loop. *)
Section Reduction.
Variables (FS P : Type).
Variable body : P -> Stream -> M FS P.
Variable resolve : string -> M FS (Z * option error).
Variables (depth : P -> Z) (vertical hasVideo : P -> bool).
Variable p0 : P.

Hypothesis body_world :
  forall p s w, snd (body p s w) = snd (body p0 s w).
Hypothesis body_depth :
  forall p s w,
    depth (fst (body p s w))
    = if is_video s
      then Z.max (depth p) (depth_used (fst (resolve (PixelFormat s) w)))
      else depth p.
Hypothesis body_vertical :
  forall p s w,
    vertical (fst (body p s w))
    = if is_video s then negb (Width s >? Height s)%Z else vertical p.
Hypothesis body_hasVideo :
  forall p s w, hasVideo (fst (body p s w)) = hasVideo p || is_video s.

Local Abbreviation used :=
  (depths_used (fun pf w => fst (resolve pf w)) (fun s w => snd (body p0 s w))).

Lemma loop_depth (streams : list Stream) (p : P) (w : World FS) :
  depth (fst (for_range streams body p w))
  = fold_right Z.max (depth p) (used streams w).
Proof.
  revert p w. induction streams as [|s rest IH]; intros p w; [reflexivity|].
  simpl. unfold bind.
  pose proof (body_depth p s w) as Hd. pose proof (body_world p s w) as Hw.
  destruct (body p s w) as [p1 w1]. simpl in Hd, Hw.
  rewrite IH, Hd, <- Hw.
  destruct (is_video s); simpl; [apply fold_max_base | reflexivity].
Qed.

Lemma loop_hasVideo (streams : list Stream) (p : P) (w : World FS) :
  hasVideo (fst (for_range streams body p w))
  = hasVideo p || existsb is_video streams.
Proof.
  revert p w. induction streams as [|s rest IH]; intros p w; simpl.
  - now rewrite orb_false_r.
  - unfold bind. pose proof (body_hasVideo p s w) as Hv.
    destruct (body p s w) as [p1 w1]. simpl in Hv.
    now rewrite IH, Hv, orb_assoc.
Qed.

Lemma loop_vertical_no_video (streams : list Stream) (p : P) (w : World FS) :
  existsb is_video streams = false ->
  vertical (fst (for_range streams body p w)) = vertical p.
Proof.
  revert p w. induction streams as [|s rest IH]; intros p w; simpl; [reflexivity|].
  intros H. apply orb_false_iff in H as [Hs Hr].
  unfold bind. pose proof (body_vertical p s w) as Hv.
  destruct (body p s w) as [p1 w1]. simpl in Hv.
  rewrite (IH _ _ Hr), Hv, Hs. reflexivity.
Qed.

Lemma loop_vertical (pre post : list Stream) (v : Stream) (p : P) (w : World FS) :
  is_video v = true ->
  existsb is_video post = false ->
  vertical (fst (for_range (pre ++ v :: post) body p w))
  = (Height v >=? Width v)%Z.
Proof.
  intros Hv Hpost. rewrite for_range_app.
  destruct (for_range pre body p w) as [p1 w1]. simpl. unfold bind.
  pose proof (body_vertical p1 v w1) as Hb.
  destruct (body p1 v w1) as [p2 w2]. simpl in Hb.
  rewrite (loop_vertical_no_video _ _ _ Hpost), Hb, Hv.
  destruct (Z.gtb_spec (Width v) (Height v)), (Z.geb_spec (Height v) (Width v));
    simpl; try reflexivity; lia.
Qed.

End Reduction.

(** The bodies of the two analyzers are such bodies. *)
Section Bodies.
Context {FS : Type} {sys : System FS}.

Ltac run_body :=
  intros;
  unfold media.analyzeStream, main.analyzeStream, bind, ret, log_Printf,
    fmt_Printf, is_video;
  repeat match goal with
         | |- context [String.eqb ?a ?b] => destruct (String.eqb a b)
         | |- context [media.GetBitDepth ?pf ?w] =>
             destruct (media.GetBitDepth pf w) as [[? [?|]] ?]
         | |- context [main.getBitDepth ?pf ?w] =>
             destruct (main.getBitDepth pf w) as [[? [?|]] ?]
         | |- context [(?a >? ?b)%Z] => destruct (Z.gtb_spec a b)
         end;
  simpl in *; try reflexivity; try lia.

Lemma media_body_world (p : media.Properties) (s : Stream) (w : World FS) :
  snd (media.analyzeStream p s w) = snd (media.analyzeStream media.zeroProperties s w).
Proof. run_body. Qed.

Lemma media_body_depth (p : media.Properties) (s : Stream) (w : World FS) :
  media.HighestBitDepth (fst (media.analyzeStream p s w))
  = if is_video s
    then Z.max (media.HighestBitDepth p)
           (depth_used (fst (media.GetBitDepth (PixelFormat s) w)))
    else media.HighestBitDepth p.
Proof. run_body. Qed.

Lemma media_body_vertical (p : media.Properties) (s : Stream) (w : World FS) :
  media.IsVertical (fst (media.analyzeStream p s w))
  = if is_video s then negb (Width s >? Height s)%Z else media.IsVertical p.
Proof. run_body. Qed.

Lemma media_body_hasVideo (p : media.Properties) (s : Stream) (w : World FS) :
  media.HasVideoStream (fst (media.analyzeStream p s w))
  = media.HasVideoStream p || is_video s.
Proof. run_body; now rewrite orb_false_r. Qed.

Lemma main_body_world (p : main.mediaProperties) (s : Stream) (w : World FS) :
  snd (main.analyzeStream p s w) = snd (main.analyzeStream main.zeroProperties s w).
Proof. run_body. Qed.

Lemma main_body_depth (p : main.mediaProperties) (s : Stream) (w : World FS) :
  main.highestBitDepth (fst (main.analyzeStream p s w))
  = if is_video s
    then Z.max (main.highestBitDepth p)
           (depth_used (fst (main.getBitDepth (PixelFormat s) w)))
    else main.highestBitDepth p.
Proof. run_body. Qed.

Lemma main_body_vertical (p : main.mediaProperties) (s : Stream) (w : World FS) :
  main.isVertical (fst (main.analyzeStream p s w))
  = if is_video s then negb (Width s >? Height s)%Z else main.isVertical p.
Proof. run_body. Qed.

Lemma main_body_hasVideo (p : main.mediaProperties) (s : Stream) (w : World FS) :
  main.hasVideoStream (fst (main.analyzeStream p s w))
  = main.hasVideoStream p || is_video s.
Proof. run_body; now rewrite orb_false_r. Qed.

End Bodies.

(** ** The analyzer *)

Section Analyzer.
Context {FS : Type} {sys : System FS}.

(** The highest bit depth is the largest of 0 and the depths used. *)
Lemma AnalyzeMediaInfo_depth (info : MediaInfo) (w : World FS) :
  media.HighestBitDepth (fst (media.AnalyzeMediaInfo info w))
  = highest (media_depths_used (Streams info) w).
Proof.
  unfold media.AnalyzeMediaInfo, media_depths_used, highest.
  apply (loop_depth FS media.Properties media.analyzeStream media.GetBitDepth
           media.HighestBitDepth media.zeroProperties
           media_body_world media_body_depth).
Qed.

Lemma analyzeMediaInfo_depth (info : MediaInfo) (w : World FS) :
  main.highestBitDepth (fst (main.analyzeMediaInfo info w))
  = highest (main_depths_used (Streams info) w).
Proof.
  unfold main.analyzeMediaInfo, main_depths_used, highest.
  apply (loop_depth FS main.mediaProperties main.analyzeStream main.getBitDepth
           main.highestBitDepth main.zeroProperties
           main_body_world main_body_depth).
Qed.

(** A video stream is reported exactly when there is one. *)
Lemma AnalyzeMediaInfo_hasVideo (info : MediaInfo) (w : World FS) :
  media.HasVideoStream (fst (media.AnalyzeMediaInfo info w))
  = existsb is_video (Streams info).
Proof.
  unfold media.AnalyzeMediaInfo.
  apply (loop_hasVideo FS media.Properties media.analyzeStream
           media.HasVideoStream media_body_hasVideo).
Qed.

Lemma analyzeMediaInfo_hasVideo (info : MediaInfo) (w : World FS) :
  main.hasVideoStream (fst (main.analyzeMediaInfo info w))
  = existsb is_video (Streams info).
Proof.
  unfold main.analyzeMediaInfo.
  apply (loop_hasVideo FS main.mediaProperties main.analyzeStream
           main.hasVideoStream main_body_hasVideo).
Qed.

End Analyzer.

(** C3, as amended.  For every MediaSummary, in every system and world,
    the highest bit depth that [analyze] produces is the largest of 0 and
    the depths used for the video streams (for each, the depth resolved,
    or 8 when its resolution failed).  So it is 0 when there is no video
    stream, and at least 8 as soon as the resolution of one video stream
    fails or yields a depth of at least 8. *)
Theorem C3_highest_bit_depth :
  forall (FS : Type) (sys : System FS) (info : MediaInfo) (w : World FS),
    let props := fst (media.AnalyzeMediaInfo info w) in
    let mprops := fst (main.analyzeMediaInfo info w) in
    (media.HighestBitDepth props = highest (media_depths_used (Streams info) w)
     /\ (existsb is_video (Streams info) = false ->
         media.HighestBitDepth props = 0%Z)
     /\ ((exists d, In d (media_depths_used (Streams info) w) /\ (8 <= d)%Z) ->
         (8 <= media.HighestBitDepth props)%Z))
    /\
    (main.highestBitDepth mprops = highest (main_depths_used (Streams info) w)
     /\ (existsb is_video (Streams info) = false ->
         main.highestBitDepth mprops = 0%Z)
     /\ ((exists d, In d (main_depths_used (Streams info) w) /\ (8 <= d)%Z) ->
         (8 <= main.highestBitDepth mprops)%Z)).
Proof.
  intros FS sys info w props mprops. subst props mprops.
  rewrite AnalyzeMediaInfo_depth, analyzeMediaInfo_depth.
  unfold media_depths_used, main_depths_used.
  repeat split.
  - intros H. now rewrite (depths_used_no_video _ _ _ _ H).
  - intros (d & Hin & Hd). pose proof (highest_ge _ _ Hin). lia.
  - intros H. now rewrite (depths_used_no_video _ _ _ _ H).
  - intros (d & Hin & Hd). pose proof (highest_ge _ _ Hin). lia.
Qed.

(** A file with an 8-bit and a 10-bit video stream and a video stream of a
    format the catalog does not list. *)
Lemma C3_highest_bit_depth_witness :
  (8 <= media.HighestBitDepth
          (fst (media.AnalyzeMediaInfo (sys := sim.system sim.catalog (sim.probed []))
                  (sim.probed [sim.video "gray" 640 480;
                               sim.video "yuv420p10le" 1920 1080;
                               sim.video "nv12" 1920 1080])
                  (sim.world []))))%Z.
Proof.
  refine (proj2 (proj2 (proj1
            (C3_highest_bit_depth sim.FS
               (sim.system sim.catalog (sim.probed []))
               (sim.probed [sim.video "gray" 640 480;
                            sim.video "yuv420p10le" 1920 1080;
                            sim.video "nv12" 1920 1080])
               (sim.world [])))) _).
  exists 10%Z. split; [vm_compute; tauto | lia].
Defined.

(** C3, as stated, fails: a sole video stream whose pixel format the
    catalog lists with a depth of 1 is resolved to 1, and 1 is the
    highest bit depth. *)
Lemma C3_monow_below_8 :
  let props :=
    fst (media.AnalyzeMediaInfo (sys := sim.system sim.catalog (sim.probed []))
           (sim.probed [sim.video "monow" 640 480]) (sim.world [])) in
  existsb is_video [sim.video "monow" 640 480] = true
  /\ media.HasVideoStream props = true
  /\ media.GetBitDepth (sys := sim.system sim.catalog (sim.probed []))
       "monow" (sim.world [])
     = ((1%Z, None),
        {| fs := []; trace := [ev_run ["ffmpeg"; "-hide_banner"; "-pix_fmts"]] |})
  /\ media.HighestBitDepth props = 1%Z
  /\ ~ (8 <= media.HighestBitDepth props)%Z.
Proof.
  cbv zeta.
  assert (E : media.HighestBitDepth
                (fst (media.AnalyzeMediaInfo
                        (sys := sim.system sim.catalog (sim.probed []))
                        (sim.probed [sim.video "monow" 640 480]) (sim.world [])))
              = 1%Z) by (vm_compute; reflexivity).
  rewrite E. repeat split; try (vm_compute; reflexivity). lia.
Qed.

(** C4.  For every MediaSummary with a video stream, [isVertical] is
    (height >= width) of the last video stream in stream order, whatever
    the streams before it are; so a last video stream as wide as it is
    high gives [isVertical = true]. *)
Theorem C4_vertical_last_video :
  forall (FS : Type) (sys : System FS) (info : MediaInfo) (w : World FS)
         (pre post : list Stream) (v : Stream),
    Streams info = (pre ++ v :: post)%list ->
    is_video v = true ->
    existsb is_video post = false ->
    media.IsVertical (fst (media.AnalyzeMediaInfo info w))
    = (Height v >=? Width v)%Z
    /\ main.isVertical (fst (main.analyzeMediaInfo info w))
       = (Height v >=? Width v)%Z
    /\ (Width v = Height v ->
        media.IsVertical (fst (media.AnalyzeMediaInfo info w)) = true
        /\ main.isVertical (fst (main.analyzeMediaInfo info w)) = true).
Proof.
  intros FS sys info w pre post v Hs Hv Hpost.
  assert (Hmedia : media.IsVertical (fst (media.AnalyzeMediaInfo info w))
                   = (Height v >=? Width v)%Z).
  { unfold media.AnalyzeMediaInfo. rewrite Hs.
    apply (loop_vertical FS media.Properties media.analyzeStream
             media.IsVertical media_body_vertical); assumption. }
  assert (Hmain : main.isVertical (fst (main.analyzeMediaInfo info w))
                  = (Height v >=? Width v)%Z).
  { unfold main.analyzeMediaInfo. rewrite Hs.
    apply (loop_vertical FS main.mediaProperties main.analyzeStream
             main.isVertical main_body_vertical); assumption. }
  split; [assumption|]. split; [assumption|].
  intros E. rewrite Hmedia, Hmain, E. split; apply Z.geb_le; lia.
Qed.

(** A landscape video stream, then a square one, then an audio stream. *)
Lemma C4_vertical_last_video_witness :
  media.IsVertical
    (fst (media.AnalyzeMediaInfo (sys := sim.system sim.catalog (sim.probed []))
            (sim.probed [sim.video "yuv420p" 1920 1080; sim.audio "aac";
                         sim.video "yuv420p" 1080 1080; sim.audio "mp3"])
            (sim.world [])))
  = true.
Proof.
  apply (C4_vertical_last_video sim.FS (sim.system sim.catalog (sim.probed []))
           (sim.probed [sim.video "yuv420p" 1920 1080; sim.audio "aac";
                        sim.video "yuv420p" 1080 1080; sim.audio "mp3"])
           (sim.world [])
           [sim.video "yuv420p" 1920 1080; sim.audio "aac"]
           [sim.audio "mp3"]
           (sim.video "yuv420p" 1080 1080));
    reflexivity.
Defined.

(** ** The plan builders *)

(** The plans, token by token. *)
Lemma CreateProxyCommand_tokens (filePath proxyFilePath : string)
    (props : media.Properties) :
  ffmpeg.CreateProxyCommand filePath proxyFilePath props
  = (["ffmpeg"; "-y"; "-hide_banner"; "-loglevel"; "error"; "-hwaccel"; "cuda";
      "-i"; filePath]
     ++ (if media.HasVideoStream props
         then ["-c:v"; "h264_nvenc"]
              ++ (if (media.HighestBitDepth props >? 8)%Z
                  then ["-pix_fmt"; "yuv420p"] else [])
              ++ ["-maxrate"; "7M"; "-preset"; "default"]
              ++ ["-vf"; if media.IsVertical props
                         then "scale=540:-2" else "scale=960:-2"]
         else [])
     ++ (if media.HasAudioStream props && media.UnsupportedAudioFormat props
         then ["-c:a"; "pcm_s16le"] else [])
     ++ [proxyFilePath])%list.
Proof.
  unfold ffmpeg.CreateProxyCommand, ffmpeg.UseHardwareAcceleration.
  destruct (media.HasVideoStream props), (media.HighestBitDepth props >? 8)%Z,
    (media.IsVertical props), (media.HasAudioStream props),
    (media.UnsupportedAudioFormat props); reflexivity.
Qed.

Lemma createFfmpegCommandForProxy_tokens (filePath proxyFilePath : string)
    (props : main.mediaProperties) :
  main.createFfmpegCommandForProxy filePath proxyFilePath props
  = (["ffmpeg"; "-y"; "-hide_banner"; "-loglevel"; "error"; "-hwaccel"; "cuda";
      "-i"; filePath]
     ++ (if main.hasVideoStream props
         then ["-c:v"; "h264_nvenc"]
              ++ (if (main.highestBitDepth props >? 8)%Z
                  then ["-pix_fmt"; "yuv420p"] else [])
              ++ ["-maxrate"; "6M"; "-preset"; "fast"]
              ++ ["-vf"; if main.isVertical props
                         then "scale=540:-2" else "scale=960:-2"]
         else [])
     ++ (if main.hasAudioStream props && main.unsupportedAudioFormat props
         then ["-c:a"; "pcm_s16le"] else [])
     ++ [proxyFilePath])%list.
Proof.
  unfold main.createFfmpegCommandForProxy, main.useHwaccel.
  destruct (main.hasVideoStream props), (main.highestBitDepth props >? 8)%Z,
    (main.isVertical props), (main.hasAudioStream props),
    (main.unsupportedAudioFormat props); reflexivity.
Qed.

Lemma last_app_singleton {A : Type} (l : list A) (x d : A) :
  last (l ++ [x]) d = x.
Proof. apply last_last. Qed.

Lemma CreateProxyCommand_last (filePath proxyFilePath : string)
    (props : media.Properties) :
  last (ffmpeg.CreateProxyCommand filePath proxyFilePath props) "" = proxyFilePath.
Proof.
  rewrite CreateProxyCommand_tokens.
  rewrite !app_assoc. apply last_app_singleton.
Qed.

Lemma createFfmpegCommandForProxy_last (filePath proxyFilePath : string)
    (props : main.mediaProperties) :
  last (main.createFfmpegCommandForProxy filePath proxyFilePath props) ""
  = proxyFilePath.
Proof.
  rewrite createFfmpegCommandForProxy_tokens.
  rewrite !app_assoc. apply last_app_singleton.
Qed.

(** C5.  For every source path and proxy path, the proxy plan built from
    [{hasVideoStream: true, hasAudioStream: true, isVertical: false,
    unsupportedAudioFormat: true, highestBitDepth: 8}] contains the scale
    filter value ["scale=960:-2"] and the consecutive tokens ["-c:a"],
    ["pcm_s16le"], contains no ["-pix_fmt"] token (none of the options
    between the source path and the destination is one), and ends with
    the proxy path; with both builders.  Where neither path is itself the
    string ["-pix_fmt"], no token of the plan at all is. *)
Theorem C5_scenario_plan :
  forall filePath proxyFilePath : string,
    let plan := ffmpeg.CreateProxyCommand filePath proxyFilePath scenario in
    let plan' :=
      main.createFfmpegCommandForProxy filePath proxyFilePath (to_main scenario) in
    scenario_plan plan filePath proxyFilePath
    /\ scenario_plan plan' filePath proxyFilePath
    /\ (filePath <> "-pix_fmt" -> proxyFilePath <> "-pix_fmt" ->
        ~ In "-pix_fmt" plan /\ ~ In "-pix_fmt" plan').
Proof.
  intros filePath proxyFilePath plan plan'. subst plan plan'.
  unfold scenario_plan. split; [|split].
  - split; [simpl; tauto|]. split; [|split].
    + exists ["ffmpeg"; "-y"; "-hide_banner"; "-loglevel"; "error"; "-hwaccel";
              "cuda"; "-i"; filePath; "-c:v"; "h264_nvenc"; "-maxrate"; "7M";
              "-preset"; "default"; "-vf"; "scale=960:-2"], [proxyFilePath].
      reflexivity.
    + exists ["-c:v"; "h264_nvenc"; "-maxrate"; "7M"; "-preset"; "default";
              "-vf"; "scale=960:-2"; "-c:a"; "pcm_s16le"].
      split; [reflexivity|]. simpl. intros H.
      repeat (destruct H as [H|H]; [discriminate H|]). exact H.
    + reflexivity.
  - split; [simpl; tauto|]. split; [|split].
    + exists ["ffmpeg"; "-y"; "-hide_banner"; "-loglevel"; "error"; "-hwaccel";
              "cuda"; "-i"; filePath; "-c:v"; "h264_nvenc"; "-maxrate"; "6M";
              "-preset"; "fast"; "-vf"; "scale=960:-2"], [proxyFilePath].
      reflexivity.
    + exists ["-c:v"; "h264_nvenc"; "-maxrate"; "6M"; "-preset"; "fast";
              "-vf"; "scale=960:-2"; "-c:a"; "pcm_s16le"].
      split; [reflexivity|]. simpl. intros H.
      repeat (destruct H as [H|H]; [discriminate H|]). exact H.
    + reflexivity.
  - intros Hf Hp. split; simpl; intros H;
      repeat (destruct H as [H|H]; [try discriminate H; congruence|]);
      exact H.
Qed.

(** The original's new path is the plan's input path: the remediation
    joins the directory [Originals] and the name, the builder joins all
    three at once. *)
Lemma relocated_path_input (p : string) :
  is_name (filepath.Base p) = true ->
  relocated_path p
  = filepath.Join [filepath.Dir p; "Originals"; filepath.Base p].
Proof.
  intros Hn. unfold relocated_path, originals_dir.
  destruct (Join3_child (filepath.Dir p) "Originals" (filepath.Base p)
              (Clean_Dir p) eq_refl Hn) as [-> ->].
  reflexivity.
Qed.

(** C6.  For every file path [p], with [d] its parent directory and [n]
    its base name, the original-conversion plan builder (of package
    [ffmpeg] and of [main]), which takes the path and nothing else,
    returns the tokens ["ffmpeg"], ["-y"], ["-hide_banner"],
    ["-loglevel"], ["error"], ["-i"], the path of [n] in the directory
    [Originals] of [d], ["-c:v"], ["copy"], ["-c:a"], ["pcm_s16le"],
    [p].  The input path is [filepath.Join(d, "Originals", n)]; when [n]
    is a name, that is the string [d/Originals/n], with [/Originals/n]
    for the root and [Originals/n] for the directory [.], and it is the
    path the remediation moves the original to. *)
Theorem C6_original_conversion_plan :
  forall p : string,
    let d := filepath.Dir p in
    let n := filepath.Base p in
    let input := filepath.Join [d; "Originals"; n] in
    ffmpeg.CreateConvertedOriginalCommand p
    = ["ffmpeg"; "-y"; "-hide_banner"; "-loglevel"; "error"; "-i"; input;
       "-c:v"; "copy"; "-c:a"; "pcm_s16le"; p]
    /\ main.createFfmpegCommandForOriginal p
       = ["ffmpeg"; "-y"; "-hide_banner"; "-loglevel"; "error"; "-i"; input;
          "-c:v"; "copy"; "-c:a"; "pcm_s16le"; p]
    /\ (is_name n = true ->
        input = child d "Originals" ++ "/" ++ n
        /\ input = relocated_path p).
Proof.
  intros p d n input. subst d n input.
  split; [reflexivity|]. split; [reflexivity|].
  intros Hn. split.
  - now apply Join3_child; [apply Clean_Dir | |].
  - symmetry. now apply relocated_path_input.
Qed.

(** A clip in a directory, in the current directory and in the root. *)
Lemma C6_original_conversion_plan_witness :
  filepath.Join [filepath.Dir "/media/in/clip.mp4"; "Originals";
                 filepath.Base "/media/in/clip.mp4"]
  = child (filepath.Dir "/media/in/clip.mp4") "Originals" ++ "/"
    ++ filepath.Base "/media/in/clip.mp4"
  /\ filepath.Join [filepath.Dir "/media/in/clip.mp4"; "Originals";
                    filepath.Base "/media/in/clip.mp4"]
     = relocated_path "/media/in/clip.mp4".
Proof.
  apply (C6_original_conversion_plan "/media/in/clip.mp4"). reflexivity.
Defined.

Example original_conversion_plans :
  ffmpeg.CreateConvertedOriginalCommand "/media/in/clip.mp4"
  = ["ffmpeg"; "-y"; "-hide_banner"; "-loglevel"; "error"; "-i";
     "/media/in/Originals/clip.mp4"; "-c:v"; "copy"; "-c:a"; "pcm_s16le";
     "/media/in/clip.mp4"]
  /\ ffmpeg.CreateConvertedOriginalCommand "clip.mp4"
     = ["ffmpeg"; "-y"; "-hide_banner"; "-loglevel"; "error"; "-i";
        "Originals/clip.mp4"; "-c:v"; "copy"; "-c:a"; "pcm_s16le"; "clip.mp4"]
  /\ ffmpeg.CreateConvertedOriginalCommand "/clip.mp4"
     = ["ffmpeg"; "-y"; "-hide_banner"; "-loglevel"; "error"; "-i";
        "/Originals/clip.mp4"; "-c:v"; "copy"; "-c:a"; "pcm_s16le"; "/clip.mp4"].
Proof. vm_compute. repeat split. Qed.

(** C9, as amended.  For every source path, proxy path and properties,
    the plans of [CreateProxyCommand] and of [createFfmpegCommandForProxy]
    are the same, token for token, when there is no video stream; when
    there is one, they are the same but for the bitrate ceiling (["7M"]
    and ["6M"]) and the preset (["default"] and ["fast"]). *)
Theorem C9_builders_compared :
  forall (filePath proxyFilePath : string) (props : media.Properties),
    let plan := ffmpeg.CreateProxyCommand filePath proxyFilePath props in
    let plan' :=
      main.createFfmpegCommandForProxy filePath proxyFilePath (to_main props) in
    if media.HasVideoStream props
    then exists pre post,
        plan = (pre ++ ["-maxrate"; "7M"; "-preset"; "default"] ++ post)%list
        /\ plan' = (pre ++ ["-maxrate"; "6M"; "-preset"; "fast"] ++ post)%list
        /\ plan <> plan'
    else plan = plan'.
Proof.
  intros filePath proxyFilePath props plan plan'. subst plan plan'.
  rewrite CreateProxyCommand_tokens, createFfmpegCommandForProxy_tokens.
  unfold to_main. simpl.
  destruct (media.HasVideoStream props); [|reflexivity].
  exists (["ffmpeg"; "-y"; "-hide_banner"; "-loglevel"; "error"; "-hwaccel"; "cuda";
           "-i"; filePath; "-c:v"; "h264_nvenc"]
          ++ (if (media.HighestBitDepth props >? 8)%Z
              then ["-pix_fmt"; "yuv420p"] else []))%list,
         (["-vf"; if media.IsVertical props then "scale=540:-2" else "scale=960:-2"]
          ++ (if media.HasAudioStream props && media.UnsupportedAudioFormat props
              then ["-c:a"; "pcm_s16le"] else [])
          ++ [proxyFilePath])%list.
  destruct (media.HighestBitDepth props >? 8)%Z; simpl;
    (split; [reflexivity | split; [reflexivity | discriminate]]).
Qed.

(** C9, as stated, fails: with a video stream the two plans differ. *)
Lemma C9_builders_differ :
  ffmpeg.CreateProxyCommand "/media/clip.mp4" "/media/Proxy/clip.mov" scenario
  <> main.createFfmpegCommandForProxy "/media/clip.mp4" "/media/Proxy/clip.mov"
       (to_main scenario)
  /\ nth 12 (ffmpeg.CreateProxyCommand "/media/clip.mp4" "/media/Proxy/clip.mov"
               scenario) "" = "7M"
  /\ nth 12 (main.createFfmpegCommandForProxy "/media/clip.mp4"
               "/media/Proxy/clip.mov" (to_main scenario)) "" = "6M".
Proof. repeat split. discriminate. Qed.

(** ** The workflows *)

Lemma CreateProxyCommand_nonempty (filePath proxyFilePath : string)
    (props : media.Properties) :
  (List.length (ffmpeg.CreateProxyCommand filePath proxyFilePath props) =? 0)%nat
  = false.
Proof. rewrite CreateProxyCommand_tokens. reflexivity. Qed.

Lemma createFfmpegCommandForProxy_nonempty (filePath proxyFilePath : string)
    (props : main.mediaProperties) :
  (List.length (main.createFfmpegCommandForProxy filePath proxyFilePath props) =? 0)%nat
  = false.
Proof. rewrite createFfmpegCommandForProxy_tokens. reflexivity. Qed.

(** One step of a workflow: the next call's result, by cases. *)
Ltac workflow_step :=
  match goal with
  | |- context [(List.length (ffmpeg.CreateProxyCommand ?f ?p ?q) =? 0)%nat] =>
      rewrite (CreateProxyCommand_nonempty f p q)
  | |- context [(List.length (main.createFfmpegCommandForProxy ?f ?p ?q) =? 0)%nat] =>
      rewrite (createFfmpegCommandForProxy_nonempty f p q)
  | |- context [match ?x with _ => _ end] => destruct x eqn:?
  end.

Section Workflows.
Context {FS : Type} {sys : System FS}.

(** The error for an empty plan is never the proxy workflow's result. *)
Lemma GenerateProxy_has_plan (filePath : string) (fileInfo : os.DirEntry)
    (w : World FS) :
  snd (fst (proxy.GenerateProxy filePath fileInfo w))
  <> Some (errors_New "could not generate ffmpeg command").
Proof.
  unfold proxy.GenerateProxy, bind, ret.
  repeat workflow_step; simpl; discriminate.
Qed.

Lemma processFile_has_plan (file : os.DirEntry) (filePath : string)
    (w : World FS) :
  snd (fst (main.processFile file filePath w))
  <> Some (errors_New "could not generate ffmpeg command").
Proof.
  unfold main.processFile, bind, ret.
  repeat workflow_step; simpl; discriminate.
Qed.

End Workflows.

(** C7.  For every file whose proxy path (the parent directory joined
    with ["Proxy"] and the base name with [".mov"] for its extension) is
    there already, the proxy workflow ends in [Skipped], that is
    [(false, nil)], having logged and done nothing else: no probe or
    plan was run, no directory was asked for, and the file system is the
    one it started with.  ([main]'s workflow has logged the file's path
    before.) *)
Theorem C7_existing_proxy_skips :
  forall (FS : Type) (sys : System FS) (filePath : string) (file : os.DirEntry)
         (w : World FS),
    exists_path (fs w) (proxy_path filePath file) ->
    (proxy.GenerateProxy filePath file w
     = ((false, None),
        {| fs := fs w;
           trace := (trace w
                     ++ [ev_log "Proxy file already exists: %s\n"
                           [arg_string (proxy_path filePath file)]])%list |})
     /\ state_of (fst (proxy.GenerateProxy filePath file w)) = Skipped)
    /\
    (main.processFile file filePath w
     = ((false, None),
        {| fs := fs w;
           trace := (trace w
                     ++ [ev_log "Processing file: %s\n" [arg_string filePath];
                         ev_log "Proxy file already exists: %s\n"
                           [arg_string (proxy_path filePath file)]])%list |})
     /\ state_of (fst (main.processFile file filePath w)) = Skipped).
Proof.
  intros FS sys filePath file w [info Hstat].
  assert (Hp : proxy.GenerateProxy filePath file w
               = ((false, None),
                  {| fs := fs w;
                     trace := (trace w
                               ++ [ev_log "Proxy file already exists: %s\n"
                                     [arg_string (proxy_path filePath file)]])%list |})).
  { unfold proxy.GenerateProxy, bind, ret, os_Stat, log_Printf, record.
    fold (proxy_path filePath file). rewrite Hstat. reflexivity. }
  assert (Hm : main.processFile file filePath w
               = ((false, None),
                  {| fs := fs w;
                     trace := (trace w
                               ++ [ev_log "Processing file: %s\n" [arg_string filePath];
                                   ev_log "Proxy file already exists: %s\n"
                                     [arg_string (proxy_path filePath file)]])%list |})).
  { unfold main.processFile, bind, ret, os_Stat, log_Printf, record.
    cbn [fs trace]. fold (proxy_path filePath file). rewrite Hstat.
    cbn [fs trace]. now rewrite <- app_assoc. }
  rewrite Hp, Hm. repeat split.
Qed.

(** A directory with a clip and its proxy. *)
Lemma C7_existing_proxy_skips_witness :
  state_of
    (fst (proxy.GenerateProxy (sys := sim.system sim.catalog (sim.probed []))
            "/media/clip.mp4" {| os.Name := "clip.mp4"; os.IsDir := false |}
            (sim.world [("/media", sim.dir); ("/media/clip.mp4", sim.file);
                        ("/media/Proxy", sim.dir);
                        ("/media/Proxy/clip.mov", sim.file)])))
  = Skipped.
Proof.
  apply (C7_existing_proxy_skips sim.FS (sim.system sim.catalog (sim.probed []))
           "/media/clip.mp4" {| os.Name := "clip.mp4"; os.IsDir := false |}
           (sim.world [("/media", sim.dir); ("/media/clip.mp4", sim.file);
                       ("/media/Proxy", sim.dir);
                       ("/media/Proxy/clip.mov", sim.file)])).
  exists sim.file. vm_compute. reflexivity.
Defined.

(** Where whatever is there is in a directory that is there, a file of
    the name of [filePath] in [Originals] is there with the two
    directories above it. *)
Lemma original_exists_coherent {FS : Type} (sys : System FS) (files : FS)
    (filePath : string) :
  coherent sys ->
  is_name (filepath.Base filePath) = true ->
  exists_path files (relocated_path filePath) ->
  original_exists files filePath.
Proof.
  intros Hsys Hn Hf.
  assert (Ho : filepath.Dir (relocated_path filePath) = originals_dir filePath).
  { unfold relocated_path, originals_dir.
    rewrite (Join_child (filepath.Dir filePath) "Originals" (Clean_Dir _) eq_refl).
    rewrite Join_child, Dir_child;
      auto using Clean_child, Clean_Dir. }
  assert (Hd : filepath.Dir (originals_dir filePath) = filepath.Dir filePath).
  { unfold originals_dir.
    rewrite (Join_child (filepath.Dir filePath) "Originals" (Clean_Dir _) eq_refl).
    apply Dir_child; auto using Clean_Dir. }
  pose proof (Hsys _ _ Hf) as Hod. rewrite Ho in Hod.
  pose proof (Hsys _ _ Hod) as Hpd. rewrite Hd in Hpd.
  repeat split; assumption.
Qed.

(** Whenever the remediation reports that the original already exists, it
    has asked for no rename and run no process: besides its first log
    line, the only event can be the creation of [Originals]. *)
Lemma already_exists_no_rename {FS : Type} {sys : System FS}
    (filePath : string) (w : World FS) :
  fst (audio.ProcessUnsupportedAudio filePath w)
  = Some (OriginalAlreadyExists filePath) ->
  let moving :=
    ev_log "Moving unsupported audio file to Originals: %s\n"
      [arg_string filePath] in
  trace (snd (audio.ProcessUnsupportedAudio filePath w))
  = (trace w ++ [moving])%list
  \/ exists perm,
      trace (snd (audio.ProcessUnsupportedAudio filePath w))
      = (trace w ++ [moving; ev_MkdirAll (originals_dir filePath) perm])%list.
Proof.
  unfold audio.ProcessUnsupportedAudio, OriginalAlreadyExists, relocated_path,
    originals_dir, bind, ret, os_Stat, os_MkdirAll, os_Rename, exec_Run,
    log_Printf, record.
  repeat (cbn [fst snd fs trace];
          match goal with
          | |- context [(List.length (ffmpeg.CreateConvertedOriginalCommand ?f)
                         =? 0)%nat] =>
              change (List.length (ffmpeg.CreateConvertedOriginalCommand f)
                      =? 0)%nat with false
          | |- context [sys_Stat ?a ?b] => destruct (sys_Stat a b)
          | |- context [sys_MkdirAll ?a ?b ?c] =>
              destruct (sys_MkdirAll a b c) as [[?|] ?]
          | |- context [sys_Rename ?a ?b ?c] =>
              destruct (sys_Rename a b c) as [[?|] ?]
          | |- context [sys_run ?a ?b] =>
              destruct (sys_run a b) as [[? [?|]] ?]
          end);
    cbn [fst snd fs trace]; intros H; try discriminate H.
  - left. reflexivity.
  - right. eexists. rewrite <- app_assoc. reflexivity.
Qed.

(** C8.  For every source file path, when a file with its base name is
    already in the directory [Originals] of its parent directory, the
    remediation (of package [audio] and of [main]) returns the error that
    the original already exists, having logged its first line and done
    nothing else: no rename was asked for and no process was run, so the
    file system is the one it started with and the source file is where
    it was. *)
Theorem C8_original_already_exists :
  forall (FS : Type) (sys : System FS) (filePath : string) (w : World FS),
    original_exists (fs w) filePath ->
    let w' :=
      {| fs := fs w;
         trace := (trace w
                   ++ [ev_log "Moving unsupported audio file to Originals: %s\n"
                         [arg_string filePath]])%list |} in
    audio.ProcessUnsupportedAudio filePath w
    = (Some (OriginalAlreadyExists filePath), w')
    /\ main.processUnsupportedAudioOriginal filePath w
       = ((false, Some (OriginalAlreadyExists filePath)), w')
    /\ sys_Stat filePath (fs w') = sys_Stat filePath (fs w).
Proof.
  intros FS sys filePath w ([pinfo Hp] & [oinfo Ho] & [finfo Hf]) w'. subst w'.
  unfold originals_dir in Ho. unfold relocated_path, originals_dir in Hf.
  unfold OriginalAlreadyExists, relocated_path, originals_dir.
  repeat split.
  - unfold audio.ProcessUnsupportedAudio, bind, ret, os_Stat, log_Printf, record.
    cbn [fs trace]. rewrite Hp. cbn [fs trace]. rewrite Ho. cbn [fs trace].
    rewrite Hf. reflexivity.
  - unfold main.processUnsupportedAudioOriginal, bind, ret, os_Stat, log_Printf,
      record.
    cbn [fs trace]. rewrite Hp. cbn [fs trace]. rewrite Ho. cbn [fs trace].
    rewrite Hf. reflexivity.
Qed.

(** A directory with a clip, and a file of the clip's name in
    [Originals]. *)
Lemma C8_original_already_exists_witness :
  audio.ProcessUnsupportedAudio (sys := sim.system sim.catalog (sim.probed []))
    "/media/clip.mp4"
    (sim.world [("/media", sim.dir); ("/media/clip.mp4", sim.file);
                ("/media/Originals", sim.dir);
                ("/media/Originals/clip.mp4", sim.file)])
  = (Some (OriginalAlreadyExists "/media/clip.mp4"),
     {| fs := [("/media", sim.dir); ("/media/clip.mp4", sim.file);
               ("/media/Originals", sim.dir);
               ("/media/Originals/clip.mp4", sim.file)];
        trace := [ev_log "Moving unsupported audio file to Originals: %s\n"
                    [arg_string "/media/clip.mp4"]] |}).
Proof.
  apply (C8_original_already_exists sim.FS
           (sim.system sim.catalog (sim.probed [])) "/media/clip.mp4"
           (sim.world [("/media", sim.dir); ("/media/clip.mp4", sim.file);
                       ("/media/Originals", sim.dir);
                       ("/media/Originals/clip.mp4", sim.file)])).
  repeat split; [exists sim.dir | exists sim.dir | exists sim.file];
    vm_compute; reflexivity.
Defined.

(** C10.  For every source path, proxy path and properties, the plan of
    [CreateProxyCommand] is not empty, begins with ["ffmpeg"] and ends
    with the proxy path; so the proxy workflow, which reports "could not
    generate ffmpeg command" on an empty plan only, never reports it, in
    any system and world.  The same holds of [main]'s builder and
    workflow. *)
Theorem C10_plan_never_empty :
  forall (filePath proxyFilePath : string) (props : media.Properties)
         (FS : Type) (sys : System FS) (file : os.DirEntry) (w : World FS),
    let plan := ffmpeg.CreateProxyCommand filePath proxyFilePath props in
    let plan' :=
      main.createFfmpegCommandForProxy filePath proxyFilePath (to_main props) in
    (plan <> []
     /\ hd_error plan = Some "ffmpeg"
     /\ last plan "" = proxyFilePath
     /\ snd (fst (proxy.GenerateProxy filePath file w))
        <> Some (errors_New "could not generate ffmpeg command"))
    /\
    (plan' <> []
     /\ hd_error plan' = Some "ffmpeg"
     /\ last plan' "" = proxyFilePath
     /\ snd (fst (main.processFile file filePath w))
        <> Some (errors_New "could not generate ffmpeg command")).
Proof.
  intros filePath proxyFilePath props FS sys file w plan plan'.
  subst plan plan'. split.
  - split; [|split; [|split]].
    + rewrite CreateProxyCommand_tokens. discriminate.
    + rewrite CreateProxyCommand_tokens. reflexivity.
    + apply CreateProxyCommand_last.
    + apply GenerateProxy_has_plan.
  - split; [|split; [|split]].
    + rewrite createFfmpegCommandForProxy_tokens. discriminate.
    + rewrite createFfmpegCommandForProxy_tokens. reflexivity.
    + apply createFfmpegCommandForProxy_last.
    + apply processFile_has_plan.
Qed.

(** ** The specification's scenario, run

    A clip with one [h264]/[yuv420p] video stream of 1920 by 1080 and one
    [aac] audio stream, in a directory that holds nothing else. *)
Example scenario_run :
  let info := sim.probed [sim.video "yuv420p" 1920 1080; sim.audio "aac"] in
  let sys := sim.system sim.catalog info in
  let clip := {| os.Name := "clip.mp4"; os.IsDir := false |} in
  let w0 := sim.world [("/media", sim.dir); ("/media/clip.mp4", sim.file)] in
  let (r1, w1) := main.processFile (sys := sys) clip "/media/clip.mp4" w0 in
  let (r2, w2) := main.processFile (sys := sys) clip "/media/clip.mp4" w1 in
  fst (media.AnalyzeMediaInfo (sys := sys) info w0) = scenario
  /\ state_of r1 = Succeeded
  /\ filter (fun e => match e with ev_run _ | ev_Rename _ _ => true | _ => false end)
       (trace w1)
     = [ev_run ["ffprobe"; "-hide_banner"; "-loglevel"; "fatal"; "-show_error";
                "-show_format"; "-show_streams"; "-show_private_data";
                "-print_format"; "json"; "/media/clip.mp4"];
        ev_run ["ffmpeg"; "-hide_banner"; "-pix_fmts"];
        ev_run ["ffmpeg"; "-y"; "-hide_banner"; "-loglevel"; "error";
                "-hwaccel"; "cuda"; "-i"; "/media/clip.mp4"; "-c:v";
                "h264_nvenc"; "-maxrate"; "6M"; "-preset"; "fast"; "-vf";
                "scale=960:-2"; "-c:a"; "pcm_s16le"; "/media/Proxy/clip.mov"];
        ev_Rename "/media/clip.mp4" "/media/Originals/clip.mp4";
        ev_run ["ffmpeg"; "-y"; "-hide_banner"; "-loglevel"; "error"; "-i";
                "/media/Originals/clip.mp4"; "-c:v"; "copy"; "-c:a";
                "pcm_s16le"; "/media/clip.mp4"]]
  /\ state_of r2 = Skipped
  /\ fs w2 = fs w1.
Proof. vm_compute. repeat split. Qed.

(** * Further properties *)

(** ** More on the analyzer *)

(** A loop over the streams whose body sets a flag on the streams it
    touches, and overwrites a field on them. *)
Section Fields.
Variables (FS P B : Type).
Variable body : P -> Stream -> M FS P.
Variable touch : Stream -> bool.
Variable flag : P -> bool.
Variable field : P -> B.
Variable value : Stream -> B.

Hypothesis body_flag :
  forall p s w, flag (fst (body p s w)) = flag p || touch s.
Hypothesis body_field :
  forall p s w,
    field (fst (body p s w)) = if touch s then value s else field p.

Lemma loop_flag (streams : list Stream) (p : P) (w : World FS) :
  flag (fst (for_range streams body p w)) = flag p || existsb touch streams.
Proof.
  revert p w. induction streams as [|s rest IH]; intros p w; simpl.
  - now rewrite orb_false_r.
  - unfold bind. pose proof (body_flag p s w) as Hf.
    destruct (body p s w) as [p1 w1]. simpl in Hf.
    now rewrite IH, Hf, orb_assoc.
Qed.

Lemma find_snoc {A : Type} (f : A -> bool) (l : list A) (x : A) :
  find f (l ++ [x])
  = match find f l with
    | Some y => Some y
    | None => if f x then Some x else None
    end.
Proof.
  induction l as [|a l IH]; simpl; [reflexivity|].
  destruct (f a); [reflexivity | exact IH].
Qed.

Lemma loop_field (streams : list Stream) (p : P) (w : World FS) :
  field (fst (for_range streams body p w))
  = match find touch (rev streams) with
    | Some s => value s
    | None => field p
    end.
Proof.
  revert p w. induction streams as [|s rest IH]; intros p w; simpl.
  - reflexivity.
  - unfold bind. pose proof (body_field p s w) as Hf.
    destruct (body p s w) as [p1 w1]. simpl in Hf.
    rewrite IH, find_snoc, Hf.
    destruct (find touch (rev rest)); [reflexivity|].
    destruct (touch s); reflexivity.
Qed.

End Fields.

Section MoreBodies.
Context {FS : Type} {sys : System FS}.

Ltac run_audio_body :=
  intros;
  unfold media.analyzeStream, main.analyzeStream, bind, ret, log_Printf,
    fmt_Printf, is_video, is_audio;
  repeat match goal with
         | |- context [String.eqb ?a ?b] => destruct (String.eqb a b)
         | |- context [media.GetBitDepth ?pf ?w] =>
             destruct (media.GetBitDepth pf w) as [[? [?|]] ?]
         | |- context [main.getBitDepth ?pf ?w] =>
             destruct (main.getBitDepth pf w) as [[? [?|]] ?]
         | |- context [(?a >? ?b)%Z] => destruct (Z.gtb_spec a b)
         end;
  simpl in *; try reflexivity; try lia.

Lemma media_body_hasAudio (p : media.Properties) (s : Stream) (w : World FS) :
  media.HasAudioStream (fst (media.analyzeStream p s w))
  = media.HasAudioStream p || is_audio s.
Proof. run_audio_body; now rewrite ?orb_false_r, ?orb_true_r. Qed.

Lemma media_body_unsupported (p : media.Properties) (s : Stream) (w : World FS) :
  media.UnsupportedAudioFormat (fst (media.analyzeStream p s w))
  = if is_audio s then negb (media.IsAudioCodecSupported (CodecName s))
    else media.UnsupportedAudioFormat p.
Proof. run_audio_body. Qed.

Lemma main_body_hasAudio (p : main.mediaProperties) (s : Stream) (w : World FS) :
  main.hasAudioStream (fst (main.analyzeStream p s w))
  = main.hasAudioStream p || is_audio s.
Proof. run_audio_body; now rewrite ?orb_false_r, ?orb_true_r. Qed.

Lemma main_body_unsupported (p : main.mediaProperties) (s : Stream) (w : World FS) :
  main.unsupportedAudioFormat (fst (main.analyzeStream p s w))
  = if is_audio s then negb (main.isAudioCodecSupported (CodecName s))
    else main.unsupportedAudioFormat p.
Proof. run_audio_body. Qed.

End MoreBodies.

Section Kinds.
Context {FS : Type} {sys : System FS}.

Lemma AnalyzeMediaInfo_hasAudio (info : MediaInfo) (w : World FS) :
  media.HasAudioStream (fst (media.AnalyzeMediaInfo info w))
  = existsb is_audio (Streams info).
Proof.
  unfold media.AnalyzeMediaInfo.
  apply (loop_flag FS media.Properties media.analyzeStream is_audio
           media.HasAudioStream media_body_hasAudio).
Qed.

Lemma analyzeMediaInfo_hasAudio (info : MediaInfo) (w : World FS) :
  main.hasAudioStream (fst (main.analyzeMediaInfo info w))
  = existsb is_audio (Streams info).
Proof.
  unfold main.analyzeMediaInfo.
  apply (loop_flag FS main.mediaProperties main.analyzeStream is_audio
           main.hasAudioStream main_body_hasAudio).
Qed.

Lemma AnalyzeMediaInfo_unsupported (info : MediaInfo) (w : World FS) :
  media.UnsupportedAudioFormat (fst (media.AnalyzeMediaInfo info w))
  = match last_audio (Streams info) with
    | Some a => negb (media.IsAudioCodecSupported (CodecName a))
    | None => false
    end.
Proof.
  unfold media.AnalyzeMediaInfo, last_audio.
  apply (loop_field FS media.Properties bool media.analyzeStream is_audio
           media.UnsupportedAudioFormat
           (fun s => negb (media.IsAudioCodecSupported (CodecName s)))
           media_body_unsupported).
Qed.

Lemma analyzeMediaInfo_unsupported (info : MediaInfo) (w : World FS) :
  main.unsupportedAudioFormat (fst (main.analyzeMediaInfo info w))
  = match last_audio (Streams info) with
    | Some a => negb (main.isAudioCodecSupported (CodecName a))
    | None => false
    end.
Proof.
  unfold main.analyzeMediaInfo, last_audio.
  apply (loop_field FS main.mediaProperties bool main.analyzeStream is_audio
           main.unsupportedAudioFormat
           (fun s => negb (main.isAudioCodecSupported (CodecName s)))
           main_body_unsupported).
Qed.

End Kinds.

(** X1.  The analyzers report a video stream exactly when a stream is of
    kind [video], and an audio stream exactly when one is of kind
    [audio]. *)
Theorem X1_stream_kinds :
  forall (FS : Type) (sys : System FS) (info : MediaInfo) (w : World FS),
    (media.HasVideoStream (fst (media.AnalyzeMediaInfo info w))
     = existsb is_video (Streams info)
     /\ media.HasAudioStream (fst (media.AnalyzeMediaInfo info w))
        = existsb is_audio (Streams info))
    /\ (main.hasVideoStream (fst (main.analyzeMediaInfo info w))
        = existsb is_video (Streams info)
        /\ main.hasAudioStream (fst (main.analyzeMediaInfo info w))
           = existsb is_audio (Streams info)).
Proof.
  intros FS sys info w. repeat split.
  - apply AnalyzeMediaInfo_hasVideo.
  - apply AnalyzeMediaInfo_hasAudio.
  - apply analyzeMediaInfo_hasVideo.
  - apply analyzeMediaInfo_hasAudio.
Qed.

(** X2.  The audio format is reported unsupported exactly when the codec
    of the last audio stream is not supported: earlier audio streams do
    not count, and without an audio stream the report is [false]. *)
Theorem X2_last_audio_stream_decides :
  forall (FS : Type) (sys : System FS) (info : MediaInfo) (w : World FS),
    media.UnsupportedAudioFormat (fst (media.AnalyzeMediaInfo info w))
    = match last_audio (Streams info) with
      | Some a => negb (media.IsAudioCodecSupported (CodecName a))
      | None => false
      end
    /\ main.unsupportedAudioFormat (fst (main.analyzeMediaInfo info w))
       = match last_audio (Streams info) with
         | Some a => negb (main.isAudioCodecSupported (CodecName a))
         | None => false
         end.
Proof.
  intros FS sys info w. split.
  - apply AnalyzeMediaInfo_unsupported.
  - apply analyzeMediaInfo_unsupported.
Qed.

Section Ignored.
Context {FS : Type} {sys : System FS}.

Lemma media_body_ignores (p : media.Properties) (s : Stream) (w : World FS) :
  is_analyzed s = false -> media.analyzeStream p s w = (p, w).
Proof.
  unfold is_analyzed, is_video, is_audio. intros H.
  apply orb_false_iff in H as [Hv Ha].
  unfold media.analyzeStream, bind, ret. now rewrite Hv, Ha.
Qed.

Lemma main_body_ignores (p : main.mediaProperties) (s : Stream) (w : World FS) :
  is_analyzed s = false -> main.analyzeStream p s w = (p, w).
Proof.
  unfold is_analyzed, is_video, is_audio. intros H.
  apply orb_false_iff in H as [Hv Ha].
  unfold main.analyzeStream, bind, ret. now rewrite Hv, Ha.
Qed.

Lemma for_range_filter {P : Type} (body : P -> Stream -> M FS P)
    (streams : list Stream) (p : P) (w : World FS) :
  (forall p s w, is_analyzed s = false -> body p s w = (p, w)) ->
  for_range (filter is_analyzed streams) body p w = for_range streams body p w.
Proof.
  intros Hb. revert p w. induction streams as [|s rest IH]; intros p w; simpl;
    [reflexivity|].
  destruct (is_analyzed s) eqn:E; simpl; unfold bind.
  - destruct (body p s w) as [p1 w1]. apply IH.
  - rewrite (Hb p s w E). apply IH.
Qed.

End Ignored.

(** X3.  Streams that are neither video nor audio are ignored: with or
    without them, the analyzers give the same properties and leave the
    same world. *)
Theorem X3_other_streams_ignored :
  forall (FS : Type) (sys : System FS) (info : MediaInfo) (w : World FS),
    media.AnalyzeMediaInfo (analyzed_only info) w = media.AnalyzeMediaInfo info w
    /\ main.analyzeMediaInfo (analyzed_only info) w = main.analyzeMediaInfo info w.
Proof.
  intros FS sys info w. unfold media.AnalyzeMediaInfo, main.analyzeMediaInfo.
  split; apply for_range_filter.
  - apply media_body_ignores.
  - apply main_body_ignores.
Qed.

Lemma after_refl {FS : Type} (w : World FS) : after w w [].
Proof. unfold after. now rewrite app_nil_r. Qed.

Lemma after_trans {FS : Type} (w1 w2 w3 : World FS) (e1 e2 : list event) :
  after w1 w2 e1 -> after w2 w3 e2 -> after w1 w3 (e1 ++ e2)%list.
Proof. unfold after. intros H1 H2. now rewrite H2, H1, app_assoc. Qed.

Section Events.
Context {FS : Type} {sys : System FS}.

Ltac run_events :=
  unfold media.analyzeStream, main.analyzeStream, media.GetBitDepth,
    main.getBitDepth, bind, ret, exec_CombinedOutput, log_Printf, fmt_Printf,
    record, is_video, after;
  repeat match goal with
         | |- context [String.eqb ?a ?b] => destruct (String.eqb a b)
         | |- context [sys_run ?c ?w] => destruct (sys_run c w) as [[? [?|]] ?]
         | |- context [media.scanCatalog ?l ?p] => destruct (media.scanCatalog l p)
         | |- context [main.scanCatalog ?l ?p] => destruct (main.scanCatalog l p)
         end;
  cbn [fst snd fs trace];
  eexists; (split; [rewrite <- ?app_assoc; try reflexivity;
                    symmetry; apply app_nil_r
                   | reflexivity]).

Lemma media_body_calls (p : media.Properties) (s : Stream) (w : World FS) :
  exists ext,
    after w (snd (media.analyzeStream p s w)) ext
    /\ filter is_call ext = if is_video s then [ev_run pix_fmts] else [].
Proof. run_events. Qed.

Lemma main_body_calls (p : main.mediaProperties) (s : Stream) (w : World FS) :
  exists ext,
    after w (snd (main.analyzeStream p s w)) ext
    /\ filter is_call ext = if is_video s then [ev_run pix_fmts] else [].
Proof. run_events. Qed.

Lemma loop_calls {P : Type} (body : P -> Stream -> M FS P) :
  (forall p s w, exists ext,
      after w (snd (body p s w)) ext
      /\ filter is_call ext = if is_video s then [ev_run pix_fmts] else []) ->
  forall streams p w, exists ext,
      after w (snd (for_range streams body p w)) ext
      /\ filter is_call ext
         = repeat (ev_run pix_fmts) (List.length (filter is_video streams)).
Proof.
  intros Hb streams. induction streams as [|s rest IH]; intros p w; simpl.
  - exists []. split; [apply after_refl | reflexivity].
  - unfold bind. destruct (Hb p s w) as (e1 & H1 & F1).
    destruct (body p s w) as [p1 w1]. simpl in H1.
    destruct (IH p1 w1) as (e2 & H2 & F2).
    exists (e1 ++ e2)%list. split; [eapply after_trans; eassumption|].
    rewrite filter_app, F1, F2. destruct (is_video s); reflexivity.
Qed.

End Events.

(** X4.  The analyzers call the system once for each video stream, to run
    the catalog command, and in no other way: everything else they do is
    lines logged or printed. *)
Theorem X4_one_catalog_run_per_video_stream :
  forall (FS : Type) (sys : System FS) (info : MediaInfo) (w : World FS),
    (exists ext,
        after w (snd (media.AnalyzeMediaInfo info w)) ext
        /\ filter is_call ext
           = repeat (ev_run pix_fmts)
               (List.length (filter is_video (Streams info))))
    /\ (exists ext,
           after w (snd (main.analyzeMediaInfo info w)) ext
           /\ filter is_call ext
              = repeat (ev_run pix_fmts)
                  (List.length (filter is_video (Streams info)))).
Proof.
  intros FS sys info w. split.
  - apply loop_calls. apply media_body_calls.
  - apply loop_calls. apply main_body_calls.
Qed.

(** ** The matcher finds matches only *)

Lemma run_sound (r : regexp.re) :
  forall i s c k m,
    regexp.run r i s c k = Some m ->
    exists i' s' c', steps r (i, s, c) (i', s', c') /\ k i' s' c' = Some m.
Proof.
  induction r as [| |p|r1 IH1 r2 IH2|r1 IH|j r1 IH]; intros i s c k m H;
    cbn [regexp.run] in H.
  - destruct (i =? 0)%nat eqn:E; [|discriminate].
    apply Nat.eqb_eq in E. exists i, s, c. simpl. auto.
  - destruct s; [|discriminate]. exists i, "", c. simpl. auto.
  - destruct (utf8.DecodeRuneInString s) as [c0 width] eqn:D.
    destruct width as [|width]; [discriminate|].
    destruct (p c0) eqn:E; [|discriminate].
    eexists _, _, c. split; [|exact H]. simpl. eauto.
  - apply IH1 in H as (i1 & s1 & c1 & S1 & H).
    apply IH2 in H as (i2 & s2 & c2 & S2 & H).
    exists i2, s2, c2. split; [|assumption]. simpl. eauto.
  - revert H. generalize (String.length s) as n. intros n. revert i s c.
    induction n as [|n IHn]; intros i s c H.
    + exists i, s, c. split; [apply rounds_none | assumption].
    + match type of H with
      | match ?t with _ => _ end = _ => destruct t as [m0|] eqn:E
      end.
      * injection H as ->. apply IH in E as (i1 & s1 & c1 & S1 & E).
        destruct (i <? i1)%nat; [|discriminate].
        apply IHn in E as (i2 & s2 & c2 & S2 & E).
        exists i2, s2, c2. split; [|assumption].
        eapply rounds_more; eassumption.
      * exists i, s, c. split; [apply rounds_none | assumption].
  - apply IH in H as (i1 & s1 & c1 & S1 & H).
    eexists _, _, _. split; [|exact H]. simpl. eauto.
Qed.

Lemma search_sound (r : regexp.re) (s : string) :
  forall i skip c, regexp.search r i s skip = Some c ->
                   exists j t, regexp.match_at r j t = Some c.
Proof.
  induction s as [|a s IH]; intros i skip c H;
    destruct skip as [|skip]; cbn [regexp.search] in H; try discriminate H.
  - destruct (regexp.match_at r i "") eqn:E; [|discriminate].
    injection H as ->. eauto.
  - destruct (regexp.match_at r i (String a s)) eqn:E.
    + injection H as ->. eauto.
    + eapply IH; eassumption.
  - eapply IH; eassumption.
Qed.

(** A match moves forward, and without groups it captures nothing. *)
Lemma steps_forward (r : regexp.re) :
  forall x y, steps r x y -> (fst (fst x) <= fst (fst y))%nat.
Proof.
  induction r as [| |p|r1 IH1 r2 IH2|r1 IH|j r1 IH]; intros x y H; simpl in H.
  - destruct H as [-> _]. lia.
  - destruct H as [-> _]. lia.
  - destruct H as (c0 & width & _ & _ & ->). simpl. lia.
  - destruct H as (z & H1 & H2). apply IH1 in H1. apply IH2 in H2. lia.
  - induction H as [x|x y z H1 _ IHr]; [lia|]. apply IH in H1. lia.
  - destruct H as (i' & s' & c' & H & ->). apply IH in H. simpl in *. lia.
Qed.

Lemma steps_no_groups (r : regexp.re) :
  no_groups r = true -> forall x y, steps r x y -> snd y = snd x.
Proof.
  induction r as [| |p|r1 IH1 r2 IH2|r1 IH|j r1 IH]; intros Hn x y H;
    simpl in H, Hn.
  - now destruct H as [-> _].
  - now destruct H as [-> _].
  - now destruct H as (c0 & width & _ & _ & ->).
  - apply andb_true_iff in Hn as [Hn1 Hn2]. destruct H as (z & H1 & H2).
    rewrite (IH2 Hn2 _ _ H2). now apply IH1.
  - induction H as [x|x y z H1 _ IHr]; [reflexivity|].
    rewrite IHr. now apply IH.
  - discriminate.
Qed.

(** ** Characters *)

Lemma byte_range (a : ascii) : (0 <= utf8.byte a < 256)%Z.
Proof. unfold utf8.byte. pose proof (nat_ascii_bounded a). lia. Qed.

Lemma index_nonneg (s : string) (i : nat) : (0 <= utf8.index s i)%Z.
Proof.
  unfold utf8.index. destruct (String.get i s) as [a|]; [|lia].
  apply byte_range.
Qed.

Lemma lor_ge_128 (x y : Z) :
  (0 <= x)%Z -> (0 <= y)%Z -> (128 <= x \/ 128 <= y)%Z -> (128 <= Z.lor x y)%Z.
Proof.
  intros Hx Hy H.
  assert (Hl : (0 <= Z.lor x y)%Z) by now apply Z.lor_nonneg.
  assert (H7 : (7 <= Z.log2 (Z.lor x y))%Z).
  { rewrite Z.log2_lor by assumption.
    destruct H as [H|H]; apply Z.log2_le_mono in H;
      change (Z.log2 128) with 7%Z in H; lia. }
  apply Z.log2_le_pow2 in H7; [exact H7|].
  destruct (Z.eq_dec (Z.lor x y) 0) as [E|E]; [|lia].
  rewrite E in H7. simpl in H7. lia.
Qed.

Lemma high_bits (x m k P Q q : Z) :
  (0 <= m)%Z -> (0 <= k)%Z -> P = (2 ^ m)%Z -> Q = (2 ^ k)%Z ->
  (q * P <= x < q * P + P)%Z -> (128 <= (x - q * P) * Q)%Z ->
  (128 <= Z.shiftl (Z.land x (Z.ones m)) k)%Z.
Proof.
  intros Hm Hk -> -> Hx H. rewrite Z.land_ones, Z.shiftl_mul_pow2 by assumption.
  now rewrite <- (Z.mod_unique_pos x (2 ^ m) q (x - q * 2 ^ m)) by lia.
Qed.

Lemma bits_nonneg (x m k : Z) :
  (0 <= x)%Z -> (0 <= k)%Z -> (0 <= Z.shiftl (Z.land x m) k)%Z.
Proof.
  intros Hx Hk. apply Z.shiftl_nonneg. apply Z.land_nonneg. now left.
Qed.

(** A character below 128 is its one byte: the characters of more than
    one byte are above, and so is [RuneError]. *)
Lemma Decode_ascii (s : string) (c0 : Z) (width : nat) :
  utf8.DecodeRuneInString s = (c0, S width) -> (c0 < 128)%Z ->
  exists a rest, s = String a rest /\ c0 = utf8.byte a /\ width = 0%nat.
Proof.
  destruct s as [|a rest]; [discriminate|].
  unfold utf8.DecodeRuneInString, utf8.RuneError, utf8.RuneSelf. cbv zeta.
  change (String.length (String a rest) <? 1)%nat with false. cbv iota.
  change (utf8.index (String a rest) 0) with (utf8.byte a).
  pose proof (byte_range a) as Ha.
  pose proof (index_nonneg (String a rest) 1) as H1.
  pose proof (index_nonneg (String a rest) 2) as H2.
  pose proof (index_nonneg (String a rest) 3) as H3.
  set (s0 := utf8.byte a) in *.
  set (s1 := utf8.index (String a rest) 1) in *.
  set (s2 := utf8.index (String a rest) 2) in *.
  set (s3 := utf8.index (String a rest) 3) in *.
  clearbody s1 s2 s3.
  destruct (Z.ltb_spec s0 128) as [L0|L0].
  { intros E _. injection E as <- <-. eauto. }
  destruct (Z.ltb_spec s0 194) as [L1|L1]; cbn [orb]; [intros E; injection E; lia|].
  destruct (Z.ltb_spec 244 s0) as [L2|L2]; [intros E; injection E; lia|].
  destruct (String.length (String a rest) <? utf8.size s0)%nat;
    [intros E; injection E; lia|].
  destruct (Z.ltb_spec s1 (utf8.accept_lo s0)) as [L3|L3]; cbn [orb];
    [intros E; injection E; lia|].
  destruct (Z.ltb_spec (utf8.accept_hi s0) s1) as [L4|L4];
    [intros E; injection E; lia|].
  unfold utf8.size, utf8.accept_lo, utf8.accept_hi in *.
  assert (L4' : (s1 <= 191)%Z).
  { revert L4. destruct (s0 =? 237)%Z; [lia|]. destruct (s0 =? 244)%Z; lia. }
  assert (L3' : (128 <= s1)%Z).
  { revert L3. destruct (s0 =? 224)%Z; [lia|]. destruct (s0 =? 240)%Z; lia. }
  destruct (Z.ltb_spec s0 224) as [L5|L5]; cbn [Nat.leb].
  { intros E Hc. apply (f_equal fst) in E. cbn [fst] in E.
    rewrite <- E in Hc. exfalso.
    enough (128 <= Z.lor (Z.shiftl (Z.land s0 31) 6) (Z.land s1 63))%Z by lia.
    apply lor_ge_128;
      [now apply bits_nonneg | apply Z.land_nonneg; now left |].
    left. apply (high_bits s0 5 6 32 64 6); try reflexivity; lia. }
  destruct (Z.ltb_spec s0 240) as [L6|L6]; cbn [Nat.leb].
  { destruct ((s2 <? 128) || (191 <? s2))%Z; [intros E; injection E; lia|].
    intros E Hc. apply (f_equal fst) in E. cbn [fst] in E.
    rewrite <- E in Hc. exfalso.
    enough (128 <= Z.lor (Z.lor (Z.shiftl (Z.land s0 15) 12)
                             (Z.shiftl (Z.land s1 63) 6))
                      (Z.land s2 63))%Z by lia.
    apply lor_ge_128;
      [apply Z.lor_nonneg; split; now apply bits_nonneg
      | apply Z.land_nonneg; now left |].
    left. apply lor_ge_128; [now apply bits_nonneg | now apply bits_nonneg |].
    destruct (Z.eqb_spec s0 224) as [E0|E0].
    - right. apply (high_bits s1 6 6 64 64 2); try reflexivity; lia.
    - left. apply (high_bits s0 4 12 16 4096 14); try reflexivity; lia. }
  destruct ((s2 <? 128) || (191 <? s2))%Z; [intros E; injection E; lia|].
  destruct ((s3 <? 128) || (191 <? s3))%Z; [intros E; injection E; lia|].
  intros E Hc. apply (f_equal fst) in E. cbn [fst] in E.
    rewrite <- E in Hc. exfalso.
  enough (128 <= Z.lor (Z.lor (Z.lor (Z.shiftl (Z.land s0 7) 18)
                                  (Z.shiftl (Z.land s1 63) 12))
                           (Z.shiftl (Z.land s2 63) 6))
                    (Z.land s3 63))%Z by lia.
  apply lor_ge_128;
    [repeat (apply Z.lor_nonneg; split); now apply bits_nonneg
    | apply Z.land_nonneg; now left |].
  left. apply lor_ge_128;
    [apply Z.lor_nonneg; split; now apply bits_nonneg
    | now apply bits_nonneg |].
  left. apply lor_ge_128; [now apply bits_nonneg | now apply bits_nonneg |].
  destruct (Z.eqb_spec s0 224) as [E0|E0]; [lia|].
  destruct (Z.eqb_spec s0 240) as [E1|E1].
  - right. apply (high_bits s1 6 12 64 4096 2); try reflexivity; lia.
  - left. apply (high_bits s0 3 18 8 262144 30); try reflexivity; lia.
Qed.

(** A digit of the text is one byte. *)
Lemma digit_step (i : nat) (s : string) (c : regexp.captures) (y : cursor) :
  steps (regexp.Class regexp.digit) (i, s, c) y ->
  exists a rest,
    s = String a rest /\ strconv.is_digit a = true /\ y = (S i, rest, c).
Proof.
  intros (c0 & width & D & Hd & ->). cbn [fst snd] in *.
  unfold regexp.digit in Hd. apply andb_true_iff in Hd as [H1 H2].
  apply Z.leb_le in H1, H2.
  destruct (Decode_ascii s c0 width D) as (a & rest & -> & -> & ->); [lia|].
  exists a, rest. split; [reflexivity|]. split.
  - unfold strconv.is_digit, utf8.byte in *.
    apply andb_true_iff. split; apply Nat.leb_le; lia.
  - now rewrite Nat.add_1_r.
Qed.

(** ** The catalog pattern *)

Ltac open_steps :=
  repeat match goal with
         | H : exists _, _ |- _ => destruct H
         | H : _ /\ _ |- _ => destruct H
         | z : cursor |- _ => destruct z as [[? ?] ?]
         end.

Lemma Plus_digit_starts (i : nat) (s : string) (c : regexp.captures) (y : cursor) :
  steps (regexp.Plus (regexp.Class regexp.digit)) (i, s, c) y ->
  exists b rest,
    s = String b rest /\ strconv.is_digit b = true /\ (S i <= fst (fst y))%nat.
Proof.
  intros (z & H1 & H2). apply (steps_forward (regexp.Star _)) in H2.
  apply digit_step in H1 as (b & rest & Hs & Hb & ->). simpl in *. eauto.
Qed.

(** The text of the bit-depth group starts with a digit. *)
Lemma depth_group_starts (i : nat) (s : string) (c : regexp.captures) (y : cursor) :
  steps (regexp.Cat
           (regexp.Star (regexp.Cat (regexp.Plus (regexp.Class regexp.digit))
                           (regexp.Class (Z.eqb 45))))
           (regexp.Plus (regexp.Class regexp.digit))) (i, s, c) y ->
  exists b rest,
    s = String b rest /\ strconv.is_digit b = true /\ (S i <= fst (fst y))%nat.
Proof.
  intros (z & H1 & H2).
  pose proof (steps_forward _ _ _ H2) as F2.
  inversion H1 as [x|x y1 z1 R1 R2]; subst.
  - exact (Plus_digit_starts _ _ _ _ H2).
  - destruct R1 as (z' & P & D).
    apply Plus_digit_starts in P as (b & rest & Hs & Hb & F).
    apply (steps_forward (regexp.Class _)) in D.
    assert (F1 : (fst (fst y1) <= fst (fst z))%nat).
    { clear - R2. induction R2 as [x|x y z H1 _ IHr]; [lia|].
      apply steps_forward in H1. lia. }
    exists b, rest. repeat split; try assumption. lia.
Qed.

(** A line the pattern matches gives five texts: the match, the name, one
    digit for the component count, the bits per pixel, and a bit-depth
    text that starts with a digit. *)
Lemma pattern_match_shape (line : string) :
  regexp.FindStringSubmatch media.pixelFormatExp line <> [] ->
  exists whole name a bpp b depth,
    regexp.FindStringSubmatch media.pixelFormatExp line
    = [whole; name; String a ""; bpp; String b depth]
    /\ strconv.is_digit a = true /\ strconv.is_digit b = true.
Proof.
  unfold regexp.FindStringSubmatch.
  destruct (regexp.search _ 0 line 0) as [c|] eqn:E; [intros _ | contradiction].
  apply search_sound in E as (j & t & E). unfold regexp.match_at in E.
  apply run_sound in E as (i' & s' & c' & S & E). injection E as <-.
  unfold media.pixelFormatExp in S. cbn [regexp.expr] in S.
  destruct S as (z1 & S1 & z2 & S2 & z3 & S3 & z4 & S4 & z5 & S5 & z6 & S6
                 & z7 & S7 & z8 & S8 & z9 & S9 & z10 & S10 & S11).
  destruct S1 as [-> _]. destruct S11 as [E11 _]. subst z10.
  apply steps_no_groups in S2, S3, S5, S7, S9; try reflexivity.
  destruct S4 as (i4 & s4 & c4 & S4 & ->).
  apply steps_no_groups in S4; [|reflexivity].
  destruct z5 as [[i5 s5] c5].
  destruct S6 as (i6 & s6 & c6 & S6 & ->).
  apply digit_step in S6 as (a & r6 & Hs6 & Ha & E6).
  destruct S8 as (i8 & s8 & c8 & S8 & ->).
  apply steps_no_groups in S8; [|reflexivity].
  destruct S10 as (i10 & s10 & c10 & S10 & E10).
  destruct z9 as [[i9 s9] c9].
  pose proof (fun N => steps_no_groups _ N _ _ S10) as C10.
  specialize (C10 eq_refl).
  apply depth_group_starts in S10 as (b & r9 & Hs9 & Hb & F).
  destruct z2 as [[? ?] ?], z3 as [[? ?] ?], z7 as [[? ?] ?].
  cbn [fst snd] in *. subst. injection E6 as -> -> ->.
  injection E10 as -> -> ->.
  assert (E1 : (match i5 with 0 => S i5 | S l => i5 - l end = 1)%nat)
    by (destruct i5; lia).
  rewrite E1.
  destruct (i10 - i9)%nat as [|len] eqn:En; [lia|].
  simpl. replace (substring 0 0 r6) with "" by (now destruct r6).
  eexists _, _, a, _, b, _. split; [reflexivity | split; assumption].
Qed.

(** ** Numbers read by [Atoi] *)

Lemma digit_not_sign (b : ascii) :
  strconv.is_digit b = true -> Ascii.eqb b "-" = false /\ Ascii.eqb b "+" = false.
Proof.
  intros H. split; apply Ascii.eqb_neq; intros ->; discriminate.
Qed.

Lemma digit_val_range (b : ascii) :
  strconv.is_digit b = true -> (0 <= strconv.digit_val b <= 9)%Z.
Proof.
  unfold strconv.is_digit, strconv.digit_val. intros H.
  apply andb_true_iff in H as [H1 H2].
  apply Nat.leb_le in H1, H2. lia.
Qed.

Lemma ParseUint_nonneg (s : string) :
  forall n, (0 <= n)%Z -> (0 <= fst (strconv.ParseUint s n))%Z.
Proof.
  induction s as [|c s IH]; intros n Hn; simpl; [assumption|].
  destruct (strconv.is_digit c) eqn:E; simpl; [|lia].
  destruct (n * 10 + strconv.digit_val c >? 18446744073709551615)%Z; simpl;
    [lia|].
  apply IH. pose proof (digit_val_range c E). lia.
Qed.

(** A text that starts with a digit reads as a number from 0 to the
    largest [int], whatever follows the digit. *)
Lemma Atoi_starts_digit (b : ascii) (t : string) :
  strconv.is_digit b = true ->
  (0 <= fst (strconv.Atoi (String b t)) <= MaxInt)%Z.
Proof.
  intros Hb. destruct (digit_not_sign b Hb) as [Hm Hp].
  unfold strconv.Atoi, MaxInt. rewrite Hm, Hp. cbn [orb negb andb].
  pose proof (ParseUint_nonneg (String b t) 0 ltac:(lia)) as Hn.
  destruct (strconv.ParseUint (String b t) 0) as [un o]. cbn [fst] in Hn.
  change (2 ^ 63)%Z with 9223372036854775808%Z.
  destruct o; cbn [fst]; try lia;
    destruct (Z.geb_spec un 9223372036854775808); cbn [fst]; lia.
Qed.

(** One digit reads as its value, without an error. *)
Lemma Atoi_digit (a : ascii) :
  strconv.is_digit a = true ->
  strconv.Atoi (String a "") = (strconv.digit_val a, None).
Proof.
  intros Ha. destruct (digit_not_sign a Ha) as [Hm Hp].
  pose proof (digit_val_range a Ha) as Hv.
  unfold strconv.Atoi. rewrite Hm, Hp. cbn [orb negb andb strconv.ParseUint].
  rewrite Ha. cbn [negb].
  change (2 ^ 64 - 1)%Z with 18446744073709551615%Z.
  change (2 ^ 63)%Z with 9223372036854775808%Z.
  destruct (Z.gtb_spec (0 * 10 + strconv.digit_val a) 18446744073709551615);
    [lia|].
  destruct (Z.geb_spec (0 * 10 + strconv.digit_val a) 9223372036854775808);
    [lia|].
  reflexivity.
Qed.

Lemma hd_Split_digit (b : ascii) (t : string) :
  strconv.is_digit b = true ->
  exists t', hd "" (strings.Split (String b t) "-") = String b t'.
Proof.
  intros Hb. destruct (digit_not_sign b Hb) as [Hm _]. simpl. rewrite Hm.
  destruct (strings.Split t "-"); simpl; eauto.
Qed.

(** ** A matched line of the catalog *)

Lemma main_FindStringSubmatch_eq (line : string) :
  regexp.FindStringSubmatch main.pixelFormatExp line
  = regexp.FindStringSubmatch media.pixelFormatExp line.
Proof. reflexivity. Qed.

Lemma main_processPixelFormatMatch_eq (m : list string) (pf : string) :
  main.processPixelFormatMatch m pf main.pixelFormatExp
  = media.processPixelFormatMatch m pf media.pixelFormatExp.
Proof. reflexivity. Qed.

(** On a line the catalog pattern matches, [processPixelFormatMatch]
    decides by the name alone: when the name is the queried one it
    returns a depth from 0 to the largest [int] and no error, otherwise
    -1 and "pixel format not found".  Its three other errors (no bit
    depth, no component count, a component count that is no number)
    never occur. *)
Lemma processPixelFormatMatch_matched :
  forall (line pixelFormat : string),
    let m := regexp.FindStringSubmatch media.pixelFormatExp line in
    let r := media.processPixelFormatMatch m pixelFormat media.pixelFormatExp in
    m <> [] ->
    (nth 1 m "" = pixelFormat /\ snd r = None /\ (0 <= fst r <= MaxInt)%Z)
    \/ (nth 1 m "" <> pixelFormat
        /\ r = ((-1)%Z, Some (fmt_Errorf "pixel format %s not found"
                                [arg_string pixelFormat]))).
Proof.
  intros line pf m r Hm. subst r.
  destruct (pattern_match_shape line Hm)
    as (whole & name & a & bpp & b & depth & E & Ha & Hb).
  subst m. rewrite E. cbn [nth].
  unfold media.processPixelFormatMatch.
  cbn [regexp.SubexpNames media.pixelFormatExp media.collectSubexp Nat.eqb negb
       andb nth map_set].
  replace (map_get _ "name") with name by reflexivity.
  destruct (String.eqb_spec name pf) as [->|Hne]; [left | right; auto].
  split; [reflexivity|].
  replace (map_lookup _ "bit_depth") with (Some (String b depth)) by reflexivity.
  replace (map_lookup _ "nb_components") with (Some (String a ""))
    by reflexivity.
  rewrite (Atoi_digit a Ha).
  destruct (strconv.digit_val a >? 1)%Z.
  - destruct (hd_Split_digit b depth Hb) as [t' ->].
    pose proof (Atoi_starts_digit b t' Hb).
    destruct (strconv.Atoi (String b t')). auto.
  - pose proof (Atoi_starts_digit b depth Hb).
    destruct (strconv.Atoi (String b depth)). auto.
Qed.

(** X5.  On a line the catalog pattern matches, [processPixelFormatMatch]
    decides by the name alone: when the name is the queried one it
    returns a depth from 0 to the largest [int] and no error, otherwise
    -1 and "pixel format not found".  Its three other errors (no bit
    depth, no component count, a component count that is no number)
    never occur. *)
Theorem X5_matched_line :
  forall (line pixelFormat : string),
    let m := regexp.FindStringSubmatch media.pixelFormatExp line in
    let r := media.processPixelFormatMatch m pixelFormat media.pixelFormatExp in
    m <> [] ->
    (nth 1 m "" = pixelFormat /\ snd r = None /\ (0 <= fst r <= MaxInt)%Z)
    \/ (nth 1 m "" <> pixelFormat
        /\ r = ((-1)%Z, Some (fmt_Errorf "pixel format %s not found"
                                [arg_string pixelFormat]))).
Proof. exact processPixelFormatMatch_matched. Qed.

Lemma X5_matched_line_witness :
  let m := regexp.FindStringSubmatch media.pixelFormatExp
             "IO... rgb565le               3             16      5-6-5" in
  let r := media.processPixelFormatMatch m "rgb565le" media.pixelFormatExp in
  (nth 1 m "" = "rgb565le" /\ snd r = None /\ (0 <= fst r <= MaxInt)%Z)
  \/ (nth 1 m "" <> "rgb565le"
      /\ r = ((-1)%Z, Some (fmt_Errorf "pixel format %s not found"
                              [arg_string "rgb565le"]))).
Proof.
  apply (X5_matched_line
           "IO... rgb565le               3             16      5-6-5" "rgb565le").
  vm_compute. discriminate.
Defined.

(** ** The resolver *)

Lemma scanCatalog_sound (lines : list string) (pixelFormat : string) (d : Z) :
  media.scanCatalog lines pixelFormat = Some d ->
  exists line,
    In line lines
    /\ regexp.FindStringSubmatch media.pixelFormatExp line <> []
    /\ nth 1 (regexp.FindStringSubmatch media.pixelFormatExp line) "" = pixelFormat
    /\ (0 <= d <= MaxInt)%Z.
Proof.
  induction lines as [|line rest IH]; simpl; [discriminate|].
  destruct (0 <? _)%nat eqn:E.
  - assert (Hm : regexp.FindStringSubmatch media.pixelFormatExp line <> []).
    { intros X. rewrite X in E. discriminate. }
    destruct (processPixelFormatMatch_matched line pixelFormat Hm)
      as [(Hn & He & Hd)|(_ & Hr)].
    + destruct (media.processPixelFormatMatch _ _ _) as [d' [e|]];
        [discriminate|].
      intros H. injection H as <-. exists line. auto.
    + rewrite Hr. intros H. destruct (IH H) as (l & Hin & Hl). exists l. auto.
  - intros H. destruct (IH H) as (l & Hin & Hl). exists l. auto.
Qed.

(** The scan fails only when no line that the pattern matches names the
    format. *)
Lemma scanCatalog_complete (lines : list string) (pixelFormat : string) :
  media.scanCatalog lines pixelFormat = None ->
  forall line,
    In line lines ->
    regexp.FindStringSubmatch media.pixelFormatExp line = []
    \/ nth 1 (regexp.FindStringSubmatch media.pixelFormatExp line) ""
       <> pixelFormat.
Proof.
  induction lines as [|l rest IH]; simpl; [contradiction|].
  destruct (0 <? _)%nat eqn:E.
  - assert (Hm : regexp.FindStringSubmatch media.pixelFormatExp l <> []).
    { intros X. rewrite X in E. discriminate. }
    destruct (processPixelFormatMatch_matched l pixelFormat Hm)
      as [(Hn & He & Hd)|(Hn & Hr)].
    + destruct (media.processPixelFormatMatch _ _ _) as [d' [e|]];
        [discriminate He | discriminate].
    + rewrite Hr. intros H line [<-|Hin]; [now right | now apply IH].
  - intros H line [<-|Hin]; [|now apply IH].
    left. destruct (regexp.FindStringSubmatch _ _); [reflexivity | discriminate E].
Qed.

Lemma scanCatalog_app (l1 l2 : list string) (pixelFormat : string) :
  media.scanCatalog (l1 ++ l2) pixelFormat
  = match media.scanCatalog l1 pixelFormat with
    | Some d => Some d
    | None => media.scanCatalog l2 pixelFormat
    end.
Proof.
  induction l1 as [|line rest IH]; simpl; [reflexivity|].
  destruct (0 <? _)%nat; [|exact IH].
  destruct (media.processPixelFormatMatch _ _ _) as [d [e|]];
    [exact IH | reflexivity].
Qed.

(** X6.  A resolution that succeeds gives a depth from 0 to the largest
    [int]; the catalog command has then run without an error, and a line
    of what it printed is matched by the pattern and names the format.  A
    resolution that fails gives -1, and if the command ran without an
    error, no line of what it printed is both matched by the pattern and
    names the format.  The resolutions of package [media] and of [main]
    give the same result. *)
Theorem X6_resolution :
  forall (FS : Type) (sys : System FS) (pixelFormat : string) (w : World FS),
    match fst (media.GetBitDepth pixelFormat w) with
    | (d, None) =>
        (0 <= d <= MaxInt)%Z
        /\ exists out fs' line,
            sys_run pix_fmts w = ((out, None), fs')
            /\ In line (strings.Split out "010")
            /\ regexp.FindStringSubmatch media.pixelFormatExp line <> []
            /\ nth 1 (regexp.FindStringSubmatch media.pixelFormatExp line) ""
               = pixelFormat
    | (d, Some _) =>
        d = (-1)%Z
        /\ forall out fs' line,
            sys_run pix_fmts w = ((out, None), fs') ->
            In line (strings.Split out "010") ->
            regexp.FindStringSubmatch media.pixelFormatExp line = []
            \/ nth 1 (regexp.FindStringSubmatch media.pixelFormatExp line) ""
               <> pixelFormat
    end
    /\ fst (main.getBitDepth pixelFormat w) = fst (media.GetBitDepth pixelFormat w).
Proof.
  intros FS sys pf w.
  unfold media.GetBitDepth, main.getBitDepth, bind, ret, exec_CombinedOutput.
  fold pix_fmts.
  destruct (sys_run pix_fmts w) as [[out [e|]] fs'] eqn:E; cbn [fst].
  { split; [|reflexivity]. split; [reflexivity|]. intros out' fs'' line H.
    discriminate H. }
  change main.scanCatalog with media.scanCatalog.
  destruct (media.scanCatalog _ pf) as [d|] eqn:Es; cbn [fst].
  - split; [|reflexivity].
    apply scanCatalog_sound in Es as (line & Hin & Hm & Hn & Hd).
    split; [assumption|]. exists out, fs', line. auto.
  - split; [|reflexivity]. split; [reflexivity|].
    intros out' fs'' line H Hin. injection H as <- <-.
    now apply (scanCatalog_complete _ _ Es).
Qed.

(** X7.  The first line of the catalog that gives the format a depth
    decides: what the command prints after that line is not looked at,
    and a catalog in two parts resolves in the first part if it can. *)
Theorem X7_first_line_decides :
  forall (before after pixelFormat : string),
    media.scanCatalog (strings.Split (before ++ String "010" after) "010")
      pixelFormat
    = match media.scanCatalog (strings.Split before "010") pixelFormat with
      | Some d => Some d
      | None => media.scanCatalog (strings.Split after "010") pixelFormat
      end
    /\ main.scanCatalog (strings.Split (before ++ String "010" after) "010")
         pixelFormat
       = match main.scanCatalog (strings.Split before "010") pixelFormat with
         | Some d => Some d
         | None => main.scanCatalog (strings.Split after "010") pixelFormat
         end.
Proof.
  intros before after pf. rewrite Split_app. split.
  - apply scanCatalog_app.
  - change main.scanCatalog with media.scanCatalog. apply scanCatalog_app.
Qed.

(** ** When the catalog cannot be read *)

Lemma depths_used_default {W : Type} (resolve : string -> W -> Z * option error)
    (next : Stream -> W -> W) (streams : list Stream) (w : W) :
  (forall pf w, depth_used (resolve pf w) = 8%Z) ->
  highest (depths_used resolve next streams w)
  = if existsb is_video streams then 8%Z else 0%Z.
Proof.
  intros H. revert w. induction streams as [|s rest IH]; intros w; simpl;
    [reflexivity|].
  destruct (is_video s); simpl; [|apply IH].
  rewrite H. unfold highest in IH. rewrite IH.
  destruct (existsb is_video rest); reflexivity.
Qed.

Section Unavailable.
Context {FS : Type} {sys : System FS}.
Hypothesis run_fails :
  forall w : World FS, snd (fst (sys_run pix_fmts w)) <> None.

Lemma GetBitDepth_default (pf : string) (w : World FS) :
  depth_used (fst (media.GetBitDepth pf w)) = 8%Z.
Proof.
  unfold media.GetBitDepth, bind, ret, exec_CombinedOutput. fold pix_fmts.
  pose proof (run_fails w) as H.
  destruct (sys_run pix_fmts w) as [[out [e|]] fs']; [reflexivity|].
  now contradiction H.
Qed.

Lemma getBitDepth_default (pf : string) (w : World FS) :
  depth_used (fst (main.getBitDepth pf w)) = 8%Z.
Proof.
  unfold main.getBitDepth, bind, ret, exec_CombinedOutput. fold pix_fmts.
  pose proof (run_fails w) as H.
  destruct (sys_run pix_fmts w) as [[out [e|]] fs']; [reflexivity|].
  now contradiction H.
Qed.

End Unavailable.

(** X8.  When the catalog command cannot be run, every video stream is
    taken to be 8 bits deep: the highest bit depth is 8 for a file with a
    video stream, and 0 for a file without one. *)
Theorem X8_catalog_unavailable :
  forall (FS : Type) (sys : System FS) (info : MediaInfo) (w : World FS),
    (forall w' : World FS, snd (fst (sys_run pix_fmts w')) <> None) ->
    media.HighestBitDepth (fst (media.AnalyzeMediaInfo info w))
    = (if existsb is_video (Streams info) then 8%Z else 0%Z)
    /\ main.highestBitDepth (fst (main.analyzeMediaInfo info w))
       = (if existsb is_video (Streams info) then 8%Z else 0%Z).
Proof.
  intros FS sys info w H. split.
  - rewrite AnalyzeMediaInfo_depth. unfold media_depths_used.
    apply depths_used_default. intros pf w'. now apply GetBitDepth_default.
  - rewrite analyzeMediaInfo_depth. unfold main_depths_used.
    apply depths_used_default. intros pf w'. now apply getBitDepth_default.
Qed.

Lemma X8_catalog_unavailable_witness :
  media.HighestBitDepth
    (fst (media.AnalyzeMediaInfo (sys := broken.system)
            (sim.probed [sim.video "yuv420p10le" 1920 1080; sim.audio "aac"])
            (sim.world [])))
  = 8%Z.
Proof.
  apply (X8_catalog_unavailable sim.FS broken.system
           (sim.probed [sim.video "yuv420p10le" 1920 1080; sim.audio "aac"])
           (sim.world [])).
  intros w'. discriminate.
Defined.

(** ** The options of a plan *)

Lemma option_in_plan (x f p : string) (V A : list string) :
  In x plan_options -> ~ In f plan_options -> ~ In p plan_options ->
  In x (["ffmpeg"; "-y"; "-hide_banner"; "-loglevel"; "error"; "-hwaccel";
         "cuda"; "-i"; f] ++ V ++ A ++ [p])%list
  <-> slices.Contains V x = true \/ slices.Contains A x = true.
Proof.
  intros Hx Hf Hp. rewrite !in_app_iff, !slices_Contains_spec. split.
  - intros [H|[H|[H|H]]]; [exfalso | tauto | tauto | exfalso].
    + simpl in H, Hx.
      destruct H as [H|[H|[H|[H|[H|[H|[H|[H|[H|[]]]]]]]]]]; subst x;
        try (decompose [or] Hx; (discriminate || contradiction));
        try (now apply Hf).
    + destruct H as [->|[]]. now apply Hp.
  - tauto.
Qed.

Ltac options_case :=
  rewrite option_in_plan by (assumption || (simpl; tauto));
  simpl; intuition (discriminate || lia).

Lemma CreateProxyCommand_options (filePath proxyFilePath : string)
    (props : media.Properties) :
  ~ In filePath plan_options -> ~ In proxyFilePath plan_options ->
  options_reflect (ffmpeg.CreateProxyCommand filePath proxyFilePath props)
    (media.HasVideoStream props) (media.IsVertical props)
    (media.HasAudioStream props) (media.UnsupportedAudioFormat props)
    (media.HighestBitDepth props).
Proof.
  intros Hf Hp. rewrite CreateProxyCommand_tokens.
  destruct (Z.gtb_spec (media.HighestBitDepth props) 8),
    (media.HasVideoStream props), (media.IsVertical props),
    (media.HasAudioStream props), (media.UnsupportedAudioFormat props);
    unfold options_reflect; (split; [|split; [|split; [|split]]]);
    options_case.
Qed.

Lemma createFfmpegCommandForProxy_options (filePath proxyFilePath : string)
    (props : main.mediaProperties) :
  ~ In filePath plan_options -> ~ In proxyFilePath plan_options ->
  options_reflect (main.createFfmpegCommandForProxy filePath proxyFilePath props)
    (main.hasVideoStream props) (main.isVertical props)
    (main.hasAudioStream props) (main.unsupportedAudioFormat props)
    (main.highestBitDepth props).
Proof.
  intros Hf Hp. rewrite createFfmpegCommandForProxy_tokens.
  destruct (Z.gtb_spec (main.highestBitDepth props) 8),
    (main.hasVideoStream props), (main.isVertical props),
    (main.hasAudioStream props), (main.unsupportedAudioFormat props);
    unfold options_reflect; (split; [|split; [|split; [|split]]]);
    options_case.
Qed.

(** X9.  Beside the two paths, the options of a proxy plan say what the
    properties are: a video codec is named exactly when there is a video
    stream, the pixel format is forced exactly when there is one and the
    highest bit depth is above 8, the width is 540 or 960 as the video is
    vertical or not, and the audio codec is forced exactly when there is
    an audio stream in an unsupported format. *)
Theorem X9_plan_options :
  forall (filePath proxyFilePath : string) (props : media.Properties),
    ~ In filePath plan_options ->
    ~ In proxyFilePath plan_options ->
    options_reflect (ffmpeg.CreateProxyCommand filePath proxyFilePath props)
      (media.HasVideoStream props) (media.IsVertical props)
      (media.HasAudioStream props) (media.UnsupportedAudioFormat props)
      (media.HighestBitDepth props)
    /\ options_reflect
         (main.createFfmpegCommandForProxy filePath proxyFilePath (to_main props))
         (media.HasVideoStream props) (media.IsVertical props)
         (media.HasAudioStream props) (media.UnsupportedAudioFormat props)
         (media.HighestBitDepth props).
Proof.
  intros filePath proxyFilePath props Hf Hp. split.
  - now apply CreateProxyCommand_options.
  - now apply (createFfmpegCommandForProxy_options _ _ (to_main props)).
Qed.

Lemma X9_plan_options_witness :
  let props :=
    {| media.HasVideoStream := true; media.HasAudioStream := true;
       media.IsVertical := true; media.UnsupportedAudioFormat := false;
       media.HighestBitDepth := 10 |} in
  options_reflect
    (ffmpeg.CreateProxyCommand "/media/clip.mp4" "/media/Proxy/clip.mov" props)
    (media.HasVideoStream props) (media.IsVertical props)
    (media.HasAudioStream props) (media.UnsupportedAudioFormat props)
    (media.HighestBitDepth props)
  /\ options_reflect
       (main.createFfmpegCommandForProxy "/media/clip.mp4"
          "/media/Proxy/clip.mov" (to_main props))
       (media.HasVideoStream props) (media.IsVertical props)
       (media.HasAudioStream props) (media.UnsupportedAudioFormat props)
       (media.HighestBitDepth props).
Proof.
  refine (X9_plan_options "/media/clip.mp4" "/media/Proxy/clip.mov" _ _ _);
    intros H; apply slices_Contains_spec in H; vm_compute in H; discriminate H.
Defined.

(** X10.  From probe to plan: the plan built from what the analyzer
    finds forces the audio codec exactly when the last audio stream of the
    file has a codec that is not supported, and names a video codec
    exactly when the file has a video stream. *)
Theorem X10_plan_of_analysis :
  forall (FS : Type) (sys : System FS) (info : MediaInfo) (w : World FS)
         (filePath proxyFilePath : string),
    ~ In filePath plan_options ->
    ~ In proxyFilePath plan_options ->
    let plan :=
      ffmpeg.CreateProxyCommand filePath proxyFilePath
        (fst (media.AnalyzeMediaInfo info w)) in
    (In "-c:a" plan
     <-> exists a, last_audio (Streams info) = Some a
                   /\ media.IsAudioCodecSupported (CodecName a) = false)
    /\ (In "-c:v" plan <-> existsb is_video (Streams info) = true).
Proof.
  intros FS sys info w filePath proxyFilePath Hf Hp plan. subst plan.
  destruct (CreateProxyCommand_options filePath proxyFilePath
              (fst (media.AnalyzeMediaInfo info w)) Hf Hp)
    as (Hv & _ & _ & _ & Ha).
  rewrite Ha, Hv, AnalyzeMediaInfo_hasAudio, AnalyzeMediaInfo_unsupported,
    AnalyzeMediaInfo_hasVideo.
  split; [|tauto].
  unfold last_audio.
  destruct (find is_audio (rev (Streams info))) as [a|] eqn:E.
  - split.
    + intros [_ H]. exists a. split; [reflexivity|]. now apply negb_true_iff.
    + intros (a' & Ea & H). injection Ea as <-. split.
      * apply find_some in E as [Hin Hk]. apply existsb_exists. exists a.
        split; [now apply in_rev | assumption].
      * now apply negb_true_iff.
  - split; [intros [_ H]; discriminate | intros (a' & Ea & _); discriminate].
Qed.

Lemma X10_plan_of_analysis_witness :
  let info :=
    sim.probed [sim.audio "mp3"; sim.video "yuv420p" 1920 1080; sim.audio "aac"] in
  let plan :=
    ffmpeg.CreateProxyCommand "/media/clip.mp4" "/media/Proxy/clip.mov"
      (fst (media.AnalyzeMediaInfo (sys := sim.system sim.catalog (sim.probed []))
              info (sim.world []))) in
  (In "-c:a" plan
   <-> exists a, last_audio (Streams info) = Some a
                 /\ media.IsAudioCodecSupported (CodecName a) = false)
  /\ (In "-c:v" plan <-> existsb is_video (Streams info) = true).
Proof.
  refine (X10_plan_of_analysis sim.FS (sim.system sim.catalog (sim.probed []))
            (sim.probed [sim.audio "mp3"; sim.video "yuv420p" 1920 1080;
                         sim.audio "aac"])
            (sim.world []) "/media/clip.mp4" "/media/Proxy/clip.mov" _ _);
    intros H; apply slices_Contains_spec in H; vm_compute in H; discriminate H.
Defined.

(** ** The events of a computation *)

Section Emits.
Context {FS : Type} {sys : System FS}.
Variable Q : event -> Prop.

Lemma emits_ret {A : Type} (a : A) : emits Q (ret (FS := FS) a).
Proof. intros w. exists []. split; [apply after_refl | constructor]. Qed.

Lemma emits_bind {A B : Type} (m : M FS A) (k : A -> M FS B) :
  emits Q m -> (forall a, emits Q (k a)) -> emits Q (bind m k).
Proof.
  intros Hm Hk w. unfold bind.
  destruct (Hm w) as (e1 & A1 & F1). destruct (m w) as [a w1].
  destruct (Hk a w1) as (e2 & A2 & F2).
  exists (e1 ++ e2)%list. split.
  - eapply after_trans; eassumption.
  - apply Forall_app. auto.
Qed.

Lemma emits_Stat (name : string) : emits Q (os_Stat name).
Proof. intros w. exists []. split; [apply after_refl | constructor]. Qed.

Lemma emits_one {A : Type} (m : M FS A) (e : event) :
  (forall w, trace (snd (m w)) = (trace w ++ [e])%list) -> Q e -> emits Q m.
Proof.
  intros Hm He w. exists [e]. split; [apply Hm | repeat constructor; exact He].
Qed.

Lemma emits_MkdirAll (path : string) (perm : os.FileMode) :
  Q (ev_MkdirAll path perm) -> emits Q (os_MkdirAll path perm).
Proof.
  apply emits_one. intros w. unfold os_MkdirAll.
  now destruct (sys_MkdirAll path perm (fs w)).
Qed.

Lemma emits_Rename (oldpath newpath : string) :
  Q (ev_Rename oldpath newpath) -> emits Q (os_Rename oldpath newpath).
Proof.
  apply emits_one. intros w. unfold os_Rename.
  now destruct (sys_Rename oldpath newpath (fs w)).
Qed.

Lemma emits_CombinedOutput (cmd : list string) :
  Q (ev_run cmd) -> emits Q (exec_CombinedOutput cmd).
Proof.
  apply emits_one. intros w. unfold exec_CombinedOutput.
  now destruct (sys_run cmd w).
Qed.

Lemma emits_Run (cmd : list string) : Q (ev_run cmd) -> emits Q (exec_Run cmd).
Proof.
  apply emits_one. intros w. unfold exec_Run. now destruct (sys_run cmd w).
Qed.

Lemma emits_log (fmt : string) (args : list fmt_arg) :
  Q (ev_log fmt args) -> emits Q (log_Printf (FS := FS) fmt args).
Proof. apply emits_one. reflexivity. Qed.

Lemma emits_print (fmt : string) (args : list fmt_arg) :
  Q (ev_print fmt args) -> emits Q (fmt_Printf (FS := FS) fmt args).
Proof. apply emits_one. reflexivity. Qed.

Lemma emits_for_range {A S : Type} (l : list A) (body : S -> A -> M FS S) :
  (forall s x, emits Q (body s x)) -> forall s, emits Q (for_range l body s).
Proof.
  intros Hb. induction l as [|x l IH]; intros s; simpl.
  - apply emits_ret.
  - apply emits_bind; [apply Hb | exact IH].
Qed.

End Emits.

Lemma emits_weaken {FS A : Type} (Q Q' : event -> Prop) (m : M FS A) :
  (forall e, Q e -> Q' e) -> emits Q m -> emits Q' m.
Proof.
  intros H Hm w. destruct (Hm w) as (ext & Ha & F).
  exists ext. split; [assumption|]. eapply Forall_impl; eassumption.
Qed.

(** The events of a computation, call by call; what is left is to show
    that each event is in [Q]. *)
Ltac emits_steps :=
  repeat match goal with
    | |- emits _ (ret _) => apply emits_ret
    | |- emits _ (os_Stat _) => apply emits_Stat
    | |- emits _ (bind _ _) => apply emits_bind; [|intros ?]
    | |- emits _ (os_MkdirAll _ _) => apply emits_MkdirAll
    | |- emits _ (os_Rename _ _) => apply emits_Rename
    | |- emits _ (exec_CombinedOutput _) => apply emits_CombinedOutput
    | |- emits _ (exec_Run _) => apply emits_Run
    | |- emits _ (log_Printf _ _) => apply emits_log
    | |- emits _ (fmt_Printf _ _) => apply emits_print
    | |- emits _ (for_range _ _ _) => apply emits_for_range; intros ? ?
    | |- emits _ (match ?x with _ => _ end) => destruct x
    | |- emits _ (if ?x then _ else _) => destruct x
    end.

Section WorkflowEvents.
Context {FS : Type} {sys : System FS}.

Lemma GetMediaInfo_emits (Q : event -> Prop) (filePath : string) :
  Q (ev_run (probe filePath)) -> emits Q (media.GetMediaInfo filePath).
Proof. intros H. unfold media.GetMediaInfo. cbv zeta. emits_steps. exact H. Qed.

Lemma getMediaInfo_emits (Q : event -> Prop) (filePath : string) :
  Q (ev_run (probe filePath)) -> emits Q (main.getMediaInfo filePath).
Proof. intros H. unfold main.getMediaInfo. cbv zeta. emits_steps. exact H. Qed.

Lemma AnalyzeMediaInfo_emits (Q : event -> Prop) (info : MediaInfo) :
  Q (ev_run pix_fmts) -> (forall e, is_call e = false -> Q e) ->
  emits Q (media.AnalyzeMediaInfo info).
Proof.
  intros H L. unfold media.AnalyzeMediaInfo, media.analyzeStream,
    media.GetBitDepth. cbv zeta.
  emits_steps; try exact H; now apply L.
Qed.

Lemma analyzeMediaInfo_emits (Q : event -> Prop) (info : MediaInfo) :
  Q (ev_run pix_fmts) -> (forall e, is_call e = false -> Q e) ->
  emits Q (main.analyzeMediaInfo info).
Proof.
  intros H L. unfold main.analyzeMediaInfo, main.analyzeStream,
    main.getBitDepth. cbv zeta.
  emits_steps; try exact H; now apply L.
Qed.

Lemma CreateProxyDirectory_emits (Q : event -> Prop) (filePath : string) :
  (forall perm, Q (ev_MkdirAll (proxy_dir filePath) perm)) ->
  emits Q (proxy.CreateProxyDirectory filePath).
Proof.
  intros H. unfold proxy.CreateProxyDirectory. cbv zeta. emits_steps. apply H.
Qed.

Lemma createProxyDirectory_emits (Q : event -> Prop) (filePath : string) :
  (forall perm, Q (ev_MkdirAll (proxy_dir filePath) perm)) ->
  emits Q (main.createProxyDirectory filePath).
Proof.
  intros H. unfold main.createProxyDirectory. cbv zeta. emits_steps. apply H.
Qed.

Lemma calls_in_line (P : event -> Prop) (e : event) :
  is_call e = false -> calls_in P e.
Proof. unfold calls_in. intros H1 H2. congruence. Qed.


Lemma ProcessUnsupportedAudio_calls (filePath : string) :
  emits (calls_in (remediation_call filePath))
    (audio.ProcessUnsupportedAudio filePath).
Proof.
  unfold audio.ProcessUnsupportedAudio. cbv zeta.
  emits_steps; try (now apply calls_in_line); intros _.
  - left. unfold originals_dir. eauto.
  - right. left. reflexivity.
  - right. right. reflexivity.
Qed.

Lemma processUnsupportedAudioOriginal_calls (filePath : string) :
  emits (calls_in (remediation_call filePath))
    (main.processUnsupportedAudioOriginal filePath).
Proof.
  unfold main.processUnsupportedAudioOriginal. cbv zeta.
  emits_steps; try (now apply calls_in_line); intros _.
  - left. unfold originals_dir. eauto.
  - right. left. reflexivity.
  - right. right. reflexivity.
Qed.

Lemma processFile_calls (file : os.DirEntry) (filePath : string) :
  emits (calls_in (processFile_call filePath file)) (main.processFile file filePath).
Proof.
  unfold main.processFile. cbv zeta. fold (proxy_path filePath file).
  emits_steps; try (now apply calls_in_line).
  - apply getMediaInfo_emits. intros _. left. reflexivity.
  - apply analyzeMediaInfo_emits; [|apply calls_in_line].
    intros _. right. left. reflexivity.
  - apply createProxyDirectory_emits. intros perm _. right. right. left. eauto.
  - intros _. right. right. right. left. eauto.
  - eapply emits_weaken; [|apply processUnsupportedAudioOriginal_calls].
    intros ev Hev Hc. right. right. right. right. now apply Hev.
Qed.

End WorkflowEvents.

(** ** The results of the workflows *)

Section Outcomes.
Context {FS : Type} {sys : System FS}.

Lemma GenerateProxy_outcomes (filePath : string) (file : os.DirEntry)
    (w : World FS) :
  (exists_path (fs w) (proxy_path filePath file)
   <-> fst (proxy.GenerateProxy filePath file w) = (false, None))
  /\ (forall err, snd (fst (proxy.GenerateProxy filePath file w)) = Some err ->
                  fst (fst (proxy.GenerateProxy filePath file w)) = false).
Proof.
  unfold exists_path, proxy.GenerateProxy, bind, ret, os_Stat, log_Printf.
  cbv zeta. fold (proxy_path filePath file).
  destruct (sys_Stat (proxy_path filePath file) (fs w)) as [info|e] eqn:Hs.
  - simpl. split; [split; eauto | discriminate].
  - repeat workflow_step; simpl;
      (split; [split; [intros [i Hi]; discriminate Hi | discriminate]
              | try discriminate; reflexivity]).
Qed.

Lemma processFile_outcomes (file : os.DirEntry) (filePath : string)
    (w : World FS) :
  (exists_path (fs w) (proxy_path filePath file)
   <-> fst (main.processFile file filePath w) = (false, None))
  /\ (forall err, snd (fst (main.processFile file filePath w)) = Some err ->
                  fst (fst (main.processFile file filePath w)) = false).
Proof.
  unfold exists_path, main.processFile, bind, ret, os_Stat, log_Printf, record.
  cbv zeta. cbn [fs trace]. fold (proxy_path filePath file).
  destruct (sys_Stat (proxy_path filePath file) (fs w)) as [info|e] eqn:Hs.
  - simpl. split; [split; eauto | discriminate].
  - repeat workflow_step; simpl;
      (split; [split; [intros [i Hi]; discriminate Hi | discriminate]
              | try discriminate; reflexivity]).
Qed.

End Outcomes.

(** X11.  The result of a workflow tells what happened: it is
    [(false, nil)] exactly when the file's proxy path was there already,
    and an error never comes with [changed] set. *)
Theorem X11_outcomes :
  forall (FS : Type) (sys : System FS) (filePath : string) (file : os.DirEntry)
         (w : World FS),
    ((exists_path (fs w) (proxy_path filePath file)
      <-> fst (proxy.GenerateProxy filePath file w) = (false, None))
     /\ (forall err, snd (fst (proxy.GenerateProxy filePath file w)) = Some err ->
                     fst (fst (proxy.GenerateProxy filePath file w)) = false))
    /\
    ((exists_path (fs w) (proxy_path filePath file)
      <-> fst (main.processFile file filePath w) = (false, None))
     /\ (forall err, snd (fst (main.processFile file filePath w)) = Some err ->
                     fst (fst (main.processFile file filePath w)) = false)).
Proof.
  intros. split; [apply GenerateProxy_outcomes | apply processFile_outcomes].
Qed.

(** ** The calls of the workflows, and their order *)

Section Staged.
Context {FS : Type} {sys : System FS}.
Variables Q1 Q2 Mark : event -> Prop.




End Staged.


Section Order.
Context {FS : Type} {sys : System FS}.





End Order.



(** ** The remediation *)

Section Remediation.
Context {FS : Type} {sys : System FS}.

(** The remediation of [main] is the one of package [audio], with
    [true] for no error. *)
Lemma processUnsupportedAudioOriginal_eq (filePath : string) (w : World FS) :
  main.processUnsupportedAudioOriginal filePath w
  = let (err, w') := audio.ProcessUnsupportedAudio filePath w in
    ((match err with None => true | Some _ => false end, err), w').
Proof.
  unfold main.processUnsupportedAudioOriginal, audio.ProcessUnsupportedAudio,
    bind, ret, os_Stat, os_MkdirAll, os_Rename, exec_Run, log_Printf, record.
  change (main.createFfmpegCommandForOriginal filePath)
    with (ffmpeg.CreateConvertedOriginalCommand filePath).
  repeat (cbn [fst snd fs trace];
          match goal with
          | |- context [(List.length (ffmpeg.CreateConvertedOriginalCommand ?f)
                         =? 0)%nat] =>
              change (List.length (ffmpeg.CreateConvertedOriginalCommand f)
                      =? 0)%nat with false
          | |- context [sys_Stat ?a ?b] => destruct (sys_Stat a b)
          | |- context [sys_MkdirAll ?a ?b ?c] =>
              destruct (sys_MkdirAll a b c) as [[?|] ?]
          | |- context [sys_Rename ?a ?b ?c] =>
              destruct (sys_Rename a b c) as [[?|] ?]
          | |- context [sys_run ?a ?b] =>
              destruct (sys_run a b) as [[? [?|]] ?]
          end);
    reflexivity.
Qed.

Lemma ProcessUnsupportedAudio_success (filePath : string) (w : World FS) :
  fst (audio.ProcessUnsupportedAudio filePath w) = None ->
  let cmd := ffmpeg.CreateConvertedOriginalCommand filePath in
  exists pre,
    trace (snd (audio.ProcessUnsupportedAudio filePath w))
    = (trace w ++ pre
         ++ [ev_Rename filePath (relocated_path filePath);
             ev_log "Executing ffmpeg command for original file: %s\n"
               [arg_string (String.concat " " cmd)];
             ev_run cmd])%list
    /\ Forall (fun e => is_rename e = false) pre
    /\ Forall (calls_in (fun e => exists perm,
                           e = ev_MkdirAll (originals_dir filePath) perm)) pre.
Proof.
  unfold audio.ProcessUnsupportedAudio, relocated_path,
    originals_dir, bind, ret, os_Stat, os_MkdirAll, os_Rename, exec_Run,
    log_Printf, record.
  repeat (cbn [fst snd fs trace];
          match goal with
          | |- context [(List.length (ffmpeg.CreateConvertedOriginalCommand ?f)
                         =? 0)%nat] =>
              change (List.length (ffmpeg.CreateConvertedOriginalCommand f)
                      =? 0)%nat with false
          | |- context [sys_Stat ?a ?b] => destruct (sys_Stat a b)
          | |- context [sys_MkdirAll ?a ?b ?c] =>
              destruct (sys_MkdirAll a b c) as [[?|] ?]
          | |- context [sys_Rename ?a ?b ?c] =>
              destruct (sys_Rename a b c) as [[?|] ?]
          | |- context [sys_run ?a ?b] =>
              destruct (sys_run a b) as [[? [?|]] ?]
          end);
    cbn [fst snd fs trace]; intros H; try discriminate H; cbv zeta.
  - eexists [_]. repeat rewrite <- app_assoc. split; [reflexivity|].
    split; repeat constructor. apply calls_in_line. reflexivity.
  - eexists [_; _]. repeat rewrite <- app_assoc. split; [reflexivity|].
    split; repeat constructor.
    + apply calls_in_line. reflexivity.
    + intros _. eexists. reflexivity.
Qed.

End Remediation.



(** X15.  The remediation of [main] does to the system what the one of
    package [audio] does, and returns the same error; its boolean is
    [true] exactly when there is no error. *)
Theorem X15_remediations_agree :
  forall (FS : Type) (sys : System FS) (filePath : string) (w : World FS),
    main.processUnsupportedAudioOriginal filePath w
    = let (err, w') := audio.ProcessUnsupportedAudio filePath w in
      ((match err with None => true | Some _ => false end, err), w').
Proof. intros FS sys. exact processUnsupportedAudioOriginal_eq. Qed.

(** ** Media files *)

Lemma lower_bytes_app (x y : string) :
  strings.lower_bytes (x ++ y) = strings.lower_bytes x ++ strings.lower_bytes y.
Proof. induction x as [|c x IH]; simpl; [reflexivity | now rewrite IH]. Qed.

Lemma lower_bytes_split (p a b : string) :
  strings.lower_bytes p = a ++ b ->
  exists x y,
    p = x ++ y /\ strings.lower_bytes x = a /\ strings.lower_bytes y = b.
Proof.
  revert p. induction a as [|c a IH]; intros p E.
  - exists "", p. auto.
  - destruct p as [|d p]; [discriminate E|].
    simpl in E. injection E as Ec E.
    destruct (IH p E) as (x & y & -> & Hx & Hy).
    exists (String d x), y. simpl. now rewrite Ec, Hx.
Qed.

Lemma isASCII_app (x y : string) :
  strings.isASCII (x ++ y) = strings.isASCII x && strings.isASCII y.
Proof.
  induction x as [|c x IH]; simpl; [reflexivity|].
  now rewrite IH, andb_assoc.
Qed.

Lemma substring_skip (x y : string) (k : nat) :
  substring (String.length x) k (x ++ y) = substring 0 k y.
Proof. induction x as [|c x IH]; simpl; [reflexivity | exact IH]. Qed.

Lemma substring_all (y : string) : substring 0 (String.length y) y = y.
Proof. induction y as [|c y IH]; simpl; [reflexivity | now rewrite IH]. Qed.

Lemma length_append (x y : string) :
  String.length (x ++ y) = (String.length x + String.length y)%nat.
Proof. induction x as [|c x IH]; simpl; [reflexivity | now rewrite IH]. Qed.

Lemma substring_cut (s : string) (m : nat) :
  (m <= String.length s)%nat ->
  s = substring 0 m s ++ substring m (String.length s - m) s.
Proof.
  revert m. induction s as [|c s IH]; intros m Hm.
  - simpl in Hm. assert (m = 0%nat) as -> by lia. reflexivity.
  - destruct m as [|m].
    + simpl. now rewrite substring_all.
    + simpl in *. rewrite <- IH by lia. reflexivity.
Qed.

Lemma HasSuffix_spec (s suffix : string) :
  strings.HasSuffix s suffix = true <-> exists x, s = x ++ suffix.
Proof.
  unfold strings.HasSuffix. cbv zeta. split.
  - intros H. apply andb_prop in H as [Hk He].
    apply Nat.leb_le in Hk. apply String.eqb_eq in He.
    exists (substring 0 (String.length s - String.length suffix) s).
    pose proof (substring_cut s (String.length s - String.length suffix)) as Hc.
    replace (String.length s - (String.length s - String.length suffix))%nat
      with (String.length suffix) in Hc by lia.
    rewrite He in Hc. apply Hc. lia.
  - intros [x ->]. rewrite length_append.
    apply andb_true_intro. split; [apply Nat.leb_le; lia|].
    replace (String.length x + String.length suffix - String.length suffix)%nat
      with (String.length x) by lia.
    rewrite substring_skip, substring_all. apply String.eqb_refl.
Qed.

Ltac decode_cases :=
  repeat match goal with
    | |- context [(?a <? ?b)%Z] => destruct (Z.ltb_spec a b)
    | |- context [(?a <? ?b)%nat] => destruct (Nat.ltb_spec a b)
    | |- context [(?a <=? ?b)%nat] => destruct (Nat.leb_spec a b)
    | _ => progress cbn [orb andb]
    end.

Lemma size_cases (s0 : Z) :
  utf8.size s0 = 2%nat \/ utf8.size s0 = 3%nat \/ utf8.size s0 = 4%nat.
Proof.
  unfold utf8.size. destruct (s0 <? 224)%Z; [now left|].
  destruct (s0 <? 240)%Z; [right; now left | right; now right].
Qed.

Lemma accept_lo_high (s0 : Z) : (128 <= utf8.accept_lo s0)%Z.
Proof.
  unfold utf8.accept_lo. destruct (s0 =? 224)%Z; [lia|].
  destruct (s0 =? 240)%Z; lia.
Qed.

(** What follows a character does not change it, when it starts with an
    ASCII character. *)
Lemma Decode_app (a : ascii) (x y : string) :
  starts_ASCII y = true ->
  utf8.DecodeRuneInString (String a (x ++ y))
  = utf8.DecodeRuneInString (String a x).
Proof.
  intros Hy.
  destruct y as [|c y]; [now rewrite append_nil_r|].
  cbn [starts_ASCII] in Hy. apply Z.ltb_lt in Hy.
  unfold utf8.RuneSelf in Hy.
  unfold utf8.DecodeRuneInString. cbv zeta.
  change (utf8.index (String a (x ++ String c y)) 0) with (utf8.byte a).
  change (utf8.index (String a x) 0) with (utf8.byte a).
  change (String.length (String a (x ++ String c y)) <? 1)%nat with false.
  change (String.length (String a x) <? 1)%nat with false. cbv iota.
  destruct (utf8.byte a <? utf8.RuneSelf)%Z; [reflexivity|].
  destruct ((utf8.byte a <? 194) || (244 <? utf8.byte a))%Z; [reflexivity|].
  pose proof (accept_lo_high (utf8.byte a)) as Hlo.
  pose proof (size_cases (utf8.byte a)) as Hsz.
  generalize dependent (utf8.accept_lo (utf8.byte a)). intros lo Hlo.
  generalize (utf8.accept_hi (utf8.byte a)). intros hi.
  generalize dependent (utf8.size (utf8.byte a)). intros sz Hsz.
  generalize (utf8.byte a). intros s0.
  destruct Hsz as [->|[->| ->]];
    destruct x as [|b1 [|b2 [|b3 x]]];
    unfold utf8.index; cbn [String.length append String.get Nat.ltb Nat.leb];
    decode_cases; try reflexivity; simpl in *; try lia.
Qed.

Lemma Decode_width (s : string) :
  (snd (utf8.DecodeRuneInString s) <= String.length s)%nat.
Proof.
  unfold utf8.DecodeRuneInString. cbv zeta.
  pose proof (size_cases (utf8.index s 0)) as Hsz.
  generalize dependent (utf8.size (utf8.index s 0)). intros sz Hsz.
  destruct Hsz as [->|[->| ->]]; cbn [Nat.leb];
    decode_cases; cbn [snd]; lia.
Qed.

Lemma isASCII_starts (y : string) :
  strings.isASCII y = true -> starts_ASCII y = true.
Proof.
  destruct y as [|c y]; [reflexivity|]. cbn [strings.isASCII starts_ASCII].
  intros H. now apply andb_prop in H as [H _].
Qed.

Lemma Map_from_app (f : Z -> Z) (y : string) :
  starts_ASCII y = true ->
  forall (x : string) (skip : nat),
    (skip <= String.length x)%nat ->
    strings.Map_from f (x ++ y) skip
    = strings.Map_from f x skip ++ strings.Map_from f y 0.
Proof.
  intros Hy. induction x as [|a x IH]; intros skip Hs.
  - simpl in Hs. assert (skip = 0%nat) as -> by lia. reflexivity.
  - cbn [append strings.Map_from]. destruct skip as [|skip].
    + rewrite (Decode_app a x y Hy).
      pose proof (Decode_width (String a x)) as Hw.
      destruct (utf8.DecodeRuneInString (String a x)) as [c width].
      cbn [snd String.length] in Hw.
      rewrite IH by lia. now rewrite append_assoc.
    + apply IH. simpl in Hs. lia.
Qed.

Lemma chr_byte (a : ascii) : utf8.chr (utf8.byte a) = a.
Proof.
  unfold utf8.chr, utf8.byte. rewrite Nat2Z.id. apply ascii_nat_embedding.
Qed.

Section MediaFiles.
Context {tables : unicode.CaseTables}.

Lemma ToLower_ASCII (s : string) :
  strings.isASCII s = true -> strings.ToLower s = strings.lower_bytes s.
Proof. unfold strings.ToLower. now intros ->. Qed.

Lemma IsMediaFile_spec (filePath : string) :
  strings.isASCII filePath = true ->
  media.IsMediaFile filePath = true
  <-> exists x y, filePath = x ++ y
                  /\ In (strings.ToLower y) media.mediaExtensions.
Proof.
  intros Hp. unfold media.IsMediaFile. rewrite existsb_exists. cbv zeta.
  rewrite (ToLower_ASCII filePath Hp). split.
  - intros (ext & Hin & Hs). apply HasSuffix_spec in Hs as [a Ha].
    apply lower_bytes_split in Ha as (x & y & -> & _ & Hy).
    rewrite isASCII_app in Hp. apply andb_prop in Hp as [_ Hy'].
    exists x, y. split; [reflexivity|]. now rewrite ToLower_ASCII, Hy.
  - intros (x & y & -> & Hin).
    rewrite isASCII_app in Hp. apply andb_prop in Hp as [_ Hy'].
    rewrite ToLower_ASCII in Hin by assumption.
    exists (strings.lower_bytes y).
    split; [assumption|]. apply HasSuffix_spec.
    exists (strings.lower_bytes x). apply lower_bytes_app.
Qed.

Lemma Map_ToLower_ASCII (y : string) :
  strings.isASCII y = true ->
  strings.Map_from unicode.ToLower y 0 = strings.lower_bytes y.
Proof.
  induction y as [|a y IH]; [reflexivity|].
  cbn [strings.isASCII]. intros H. apply andb_prop in H as [Ha Hy].
  cbn [strings.Map_from strings.lower_bytes].
  unfold utf8.DecodeRuneInString. cbv zeta.
  change (String.length (String a y) <? 1)%nat with false. cbv iota.
  change (utf8.index (String a y) 0) with (utf8.byte a).
  rewrite Ha. cbn [Nat.sub]. rewrite (IH Hy).
  apply Z.ltb_lt in Ha. unfold utf8.RuneSelf in Ha.
  pose proof (byte_range a) as Hr.
  unfold unicode.ToLower, unicode.MaxASCII, strings.lower.
  destruct (Z.leb_spec (utf8.byte a) 127) as [_|L]; [|lia].
  cbv zeta.
  assert (E : ((65 <=? nat_of_ascii a) && (nat_of_ascii a <=? 90))%nat
              = ((65 <=? utf8.byte a) && (utf8.byte a <=? 90))%Z).
  { unfold utf8.byte.
    destruct (Nat.leb_spec 65 (nat_of_ascii a)),
             (Nat.leb_spec (nat_of_ascii a) 90),
             (Z.leb_spec 65 (Z.of_nat (nat_of_ascii a))),
             (Z.leb_spec (Z.of_nat (nat_of_ascii a)) 90);
      try reflexivity; lia. }
  rewrite E.
  destruct ((65 <=? utf8.byte a) && (utf8.byte a <=? 90))%Z eqn:U.
  - apply andb_prop in U as [U1 U2]. apply Z.leb_le in U1, U2.
    destruct (Z.leb_spec 0 (utf8.byte a + 32)) as [_|L]; [|lia].
    unfold utf8.AppendRune. cbv zeta.
    destruct (Z.leb_spec 0 (utf8.byte a + 32)) as [_|L]; [|lia].
    destruct (Z.leb_spec (utf8.byte a + 32) 127) as [_|L]; [|lia].
    cbn [andb append]. f_equal.
    unfold utf8.chr, utf8.byte. f_equal. lia.
  - destruct (Z.leb_spec 0 (utf8.byte a)) as [_|L]; [|lia].
    unfold utf8.AppendRune. cbv zeta.
    destruct (Z.leb_spec 0 (utf8.byte a)) as [_|L]; [|lia].
    destruct (Z.leb_spec (utf8.byte a) 127) as [_|L]; [|lia].
    cbn [andb append]. f_equal. apply chr_byte.
Qed.

(** A path that ends with an ASCII text is, in lower case, a text that
    ends with that text in lower case, whatever comes before. *)
Lemma ToLower_ending (x y : string) :
  strings.isASCII y = true ->
  exists x', strings.ToLower (x ++ y) = x' ++ strings.lower_bytes y.
Proof.
  intros Hy. unfold strings.ToLower.
  destruct (strings.isASCII (x ++ y)).
  - exists (strings.lower_bytes x). apply lower_bytes_app.
  - exists (strings.Map unicode.ToLower x). unfold strings.Map.
    rewrite Map_from_app by (try lia; now apply isASCII_starts).
    now rewrite (Map_ToLower_ASCII y Hy).
Qed.

Lemma IsMediaFile_ending (x y : string) :
  strings.isASCII y = true ->
  In (strings.ToLower y) media.mediaExtensions ->
  media.IsMediaFile (x ++ y) = true.
Proof.
  intros Hy Hin. rewrite ToLower_ASCII in Hin by assumption.
  unfold media.IsMediaFile. apply existsb_exists.
  exists (strings.lower_bytes y). split; [assumption|]. cbv zeta.
  apply HasSuffix_spec. destruct (ToLower_ending x y Hy) as [x' E].
  exists x'. exact E.
Qed.

Lemma isMediaFile_eq (filePath : string) :
  main.isMediaFile filePath = media.IsMediaFile filePath.
Proof. reflexivity. Qed.

End MediaFiles.

(** X16.  A path that ends with one of the eleven extensions, written in
    ASCII letters of either case, is a media file, whatever bytes come
    before the ending.  For a path of ASCII characters that is all: the
    path is a media file exactly when some ending of it is, in lower
    case, one of the extensions.  The functions of package [media] and of
    [main] agree on every path. *)
Theorem X16_media_files :
  forall (tables : unicode.CaseTables) (filePath : string),
    (forall x y,
        filePath = x ++ y -> strings.isASCII y = true ->
        In (strings.ToLower y) media.mediaExtensions ->
        media.IsMediaFile filePath = true)
    /\ (strings.isASCII filePath = true ->
        (media.IsMediaFile filePath = true
         <-> exists x y, filePath = x ++ y
                         /\ In (strings.ToLower y) media.mediaExtensions))
    /\ main.isMediaFile filePath = media.IsMediaFile filePath.
Proof.
  intros tables filePath. split; [|split].
  - intros x y -> Hy Hin. now apply IsMediaFile_ending.
  - apply IsMediaFile_spec.
  - apply isMediaFile_eq.
Qed.

(** A clip in a directory whose name has an accented letter. *)
Lemma X16_media_files_witness :
  media.IsMediaFile (tables := sim.tables)
    ("/m" ++ String "195" (String "169" "dia/Clip.MoV"))
  = true.
Proof.
  refine (proj1 (X16_media_files sim.tables _)
            ("/m" ++ String "195" (String "169" "dia/Clip")) ".MoV" _ _ _).
  - reflexivity.
  - reflexivity.
  - right. right. right. left. reflexivity.
Defined.

(** With the tables' entry for the Kelvin sign, whose lower-case form is
    [k], a name that ends in [.m], the sign and [v] is a media file; a name
    that only contains an extension is not. *)
Example media_file_names :
  media.IsMediaFile (tables := sim.tables)
    ("clip.m" ++ String "226" (String "132" (String "170" "v"))) = true
  /\ media.IsMediaFile (tables := sim.tables) "clip.mp4.part" = false.
Proof. vm_compute. split; reflexivity. Qed.

(** ** Files without a video or an audio stream *)

Section NothingToDo.
Context {FS : Type} {sys : System FS}.

Lemma AnalyzeMediaInfo_nothing (info : MediaInfo) (w : World FS) :
  filter is_analyzed (Streams info) = [] ->
  media.AnalyzeMediaInfo info w = (media.zeroProperties, w).
Proof.
  intros H.
  unfold media.AnalyzeMediaInfo.
  rewrite <- for_range_filter by apply media_body_ignores.
  now rewrite H.
Qed.

Lemma analyzeMediaInfo_nothing (info : MediaInfo) (w : World FS) :
  filter is_analyzed (Streams info) = [] ->
  main.analyzeMediaInfo info w = (main.zeroProperties, w).
Proof.
  intros H. unfold main.analyzeMediaInfo.
  rewrite <- for_range_filter by apply main_body_ignores.
  now rewrite H.
Qed.

Lemma GenerateProxy_nothing (filePath : string) (file : os.DirEntry)
    (info : MediaInfo) (w w1 : World FS) :
  ~ exists_path (fs w) (proxy_path filePath file) ->
  filter is_analyzed (Streams info) = [] ->
  media.GetMediaInfo filePath w = ((info, None), w1) ->
  proxy.GenerateProxy filePath file w = ((false, Some (nothing_to_do info)), w1).
Proof.
  intros Hp Hs Hi.
  unfold proxy.GenerateProxy, bind, os_Stat. cbv zeta.
  fold (proxy_path filePath file).
  destruct (sys_Stat (proxy_path filePath file) (fs w)) as [i|e] eqn:E.
  { contradiction Hp. exists i. exact E. }
  rewrite Hi. unfold nothing_to_do.
  destruct (Streams info) as [|s l] eqn:El; [reflexivity|].
  cbn [List.length Nat.eqb].
  rewrite AnalyzeMediaInfo_nothing by now rewrite El.
  reflexivity.
Qed.

Lemma processFile_nothing (file : os.DirEntry) (filePath : string)
    (info : MediaInfo) (w w1 : World FS) :
  ~ exists_path (fs w) (proxy_path filePath file) ->
  filter is_analyzed (Streams info) = [] ->
  main.getMediaInfo filePath
    (record (ev_log "Processing file: %s\n" [arg_string filePath]) w)
  = ((info, None), w1) ->
  main.processFile file filePath w = ((false, Some (nothing_to_do info)), w1).
Proof.
  intros Hp Hs Hi.
  unfold main.processFile, bind, os_Stat, log_Printf. cbv zeta.
  fold (proxy_path filePath file). cbn [fs record].
  destruct (sys_Stat (proxy_path filePath file) (fs w)) as [i|e] eqn:E.
  { contradiction Hp. exists i. exact E. }
  rewrite Hi. unfold nothing_to_do.
  destruct (Streams info) as [|s l] eqn:El; [reflexivity|].
  cbn [List.length Nat.eqb].
  rewrite analyzeMediaInfo_nothing by now rewrite El.
  reflexivity.
Qed.

End NothingToDo.

(** X17.  A file whose probe shows no video and no audio stream gets no
    proxy: when its proxy path is not there and the probe succeeds, both
    workflows return an error (that there are no streams when there are
    none at all, that there is no video or audio stream otherwise) and
    leave the world as the probe left it: no catalog command, no
    directory, no plan. *)
Theorem X17_nothing_to_do :
  forall (FS : Type) (sys : System FS) (filePath : string) (file : os.DirEntry)
         (info : MediaInfo) (w w1 w2 : World FS),
    ~ exists_path (fs w) (proxy_path filePath file) ->
    filter is_analyzed (Streams info) = [] ->
    media.GetMediaInfo filePath w = ((info, None), w1) ->
    main.getMediaInfo filePath
      (record (ev_log "Processing file: %s\n" [arg_string filePath]) w)
    = ((info, None), w2) ->
    proxy.GenerateProxy filePath file w
    = ((false, Some (nothing_to_do info)), w1)
    /\ main.processFile file filePath w
       = ((false, Some (nothing_to_do info)), w2).
Proof.
  intros FS sys filePath file info w w1 w2 Hp Hs H1 H2. split.
  - now apply GenerateProxy_nothing.
  - now apply processFile_nothing.
Qed.

Lemma X17_nothing_to_do_witness :
  let subtitle :=
    {| Index := 0; CodecType := "subtitle"; CodecName := "subrip";
       CodecProfile := ""; Width := 0; Height := 0; Bitrate := "";
       PixelFormat := "" |} in
  let sys := sim.system sim.catalog (sim.probed [subtitle]) in
  let file := {| os.Name := "clip.mkv"; os.IsDir := false |} in
  let w := sim.world [("/media", sim.dir); ("/media/clip.mkv", sim.file)] in
  let noted := ev_log "Processing file: %s\n" [arg_string "/media/clip.mkv"] in
  let probed := ev_run (probe "/media/clip.mkv") in
  proxy.GenerateProxy (sys := sys) "/media/clip.mkv" file w
  = ((false, Some (errors_New "no video or audio stream found")),
     {| fs := fs w; trace := [probed] |})
  /\ main.processFile (sys := sys) file "/media/clip.mkv" w
     = ((false, Some (errors_New "no video or audio stream found")),
        {| fs := fs w; trace := [noted; probed] |}).
Proof.
  refine (X17_nothing_to_do _
            (sim.system sim.catalog
               (sim.probed
                  [{| Index := 0; CodecType := "subtitle"; CodecName := "subrip";
                      CodecProfile := ""; Width := 0; Height := 0; Bitrate := "";
                      PixelFormat := "" |}]))
            "/media/clip.mkv" {| os.Name := "clip.mkv"; os.IsDir := false |}
            (sim.probed
               [{| Index := 0; CodecType := "subtitle"; CodecName := "subrip";
                   CodecProfile := ""; Width := 0; Height := 0; Bitrate := "";
                   PixelFormat := "" |}])
            (sim.world [("/media", sim.dir); ("/media/clip.mkv", sim.file)])
            _ _ _ _ _ _).
  - intros [i Hi]. vm_compute in Hi. discriminate Hi.
  - reflexivity.
  - vm_compute. reflexivity.
  - vm_compute. reflexivity.
Defined.

(** ** The loop over the entries of the watched directory *)

Section Loop.
Context {FS : Type} {sys : System FS} {tables : unicode.CaseTables}.

Lemma emits_for_range_in {A S : Type} (Q : event -> Prop) (l : list A)
    (body : S -> A -> M FS S) :
  (forall s x, In x l -> emits Q (body s x)) ->
  forall s, emits Q (for_range l body s).
Proof.
  induction l as [|x l IH]; intros Hb s; simpl.
  - apply emits_ret.
  - apply emits_bind; [apply Hb; now left|].
    apply IH. intros s' y Hy. apply Hb. now right.
Qed.

Lemma processEntry_calls (watchPath : string) (file : os.DirEntry) :
  emits (calls_in (fun e => eligible watchPath file = true
                            /\ processFile_call (entry_path watchPath file)
                                 file e))
    (main.processEntry watchPath file).
Proof.
  unfold main.processEntry, eligible. cbv zeta.
  fold (entry_path watchPath file).
  destruct (os.IsDir file); [apply emits_ret|].
  destruct (main.isMediaFile (entry_path watchPath file)); cbn [negb andb];
    [|apply emits_log; now apply calls_in_line].
  destruct (filepath.Dir (entry_path watchPath file) =? "Proxy")%string;
    [apply emits_log; now apply calls_in_line|].
  apply emits_bind.
  - eapply emits_weaken; [|apply processFile_calls].
    intros e He Hc. split; [reflexivity | now apply He].
  - intros [changed err]. emits_steps; now apply calls_in_line.
Qed.

Lemma processEntries_calls (watchPath : string) (files : list os.DirEntry) :
  emits (calls_in (fun e => exists file,
                     In file files /\ eligible watchPath file = true
                     /\ processFile_call (entry_path watchPath file) file e))
    (main.processEntries watchPath files).
Proof.
  unfold main.processEntries. apply emits_for_range_in.
  intros [] file Hin.
  eapply emits_weaken; [|apply processEntry_calls].
  intros e He Hc. destruct (He Hc) as [H1 H2]. exists file. auto.
Qed.

End Loop.

(** X18.  The loop of [main] over the entries of the watched directory
    calls the system only for entries that are not directories and whose
    path is a media file, and for such an entry only with the calls of the
    workflow for that entry's path. *)
Theorem X18_loop_calls :
  forall (FS : Type) (sys : System FS) (tables : unicode.CaseTables)
         (watchPath : string) (files : list os.DirEntry) (w : World FS),
  exists ext,
    trace (snd (main.processEntries watchPath files w)) = (trace w ++ ext)%list
    /\ Forall (calls_in (fun e => exists file,
                 In file files /\ eligible watchPath file = true
                 /\ processFile_call (entry_path watchPath file) file e)) ext.
Proof. intros FS sys tables watchPath files w. apply processEntries_calls. Qed.

(** ** The guard of the loop for proxy files *)

Lemma TrimRight_rooted (s : string) :
  rooted s = true ->
  strings.TrimRight s "/" = "" \/ rooted (strings.TrimRight s "/") = true.
Proof.
  destruct s as [|c s]; [discriminate|]. cbn [rooted strings.TrimRight].
  intros Hc. destruct (strings.TrimRight s "/").
  - destruct (Ascii.eqb c "/"); [now left | now right].
  - now right.
Qed.

Lemma Clean_rooted (x : string) :
  rooted x = true -> exists t, filepath.Clean x = String "/" t.
Proof.
  intros Hr. assert (Hx : x <> "") by (intros ->; discriminate).
  rewrite (Clean_render x Hx), Hr. unfold render. eexists. reflexivity.
Qed.

Lemma entry_Dir_rooted (watchPath : string) (file : os.DirEntry) :
  rooted watchPath = true -> no_sep (os.Name file) = true ->
  exists t, filepath.Dir (entry_path watchPath file) = String "/" t.
Proof.
  intros Hr Hn. unfold entry_path.
  destruct (TrimRight_rooted watchPath Hr) as [E|E].
  - rewrite E. change ("" ++ "/" ++ os.Name file) with ("/" ++ os.Name file).
    rewrite Dir_root_name by assumption. now exists "".
  - rewrite Dir_snoc; [now apply Clean_rooted | | assumption].
    intros E'. rewrite E' in E. discriminate E.
Qed.

Section Guard.
Context {FS : Type} {sys : System FS} {tables : unicode.CaseTables}.

Lemma processFile_first (file : os.DirEntry) (filePath : string) (w : World FS) :
  exists ext,
    trace (snd (main.processFile file filePath w))
    = (trace w ++ ev_log "Processing file: %s\n" [arg_string filePath] :: ext)%list.
Proof.
  unfold main.processFile. cbv zeta.
  lazymatch goal with
  | |- context [bind (log_Printf _ _) ?k] =>
      assert (H : forall u, emits (fun _ => True) (k u))
  end.
  { intros u. emits_steps; trivial.
    - now apply getMediaInfo_emits.
    - now apply analyzeMediaInfo_emits.
    - now apply createProxyDirectory_emits.
    - eapply emits_weaken; [|apply processUnsupportedAudioOriginal_calls].
      trivial. }
  destruct (H tt (record (ev_log "Processing file: %s\n" [arg_string filePath]) w))
    as (ext & Ha & _).
  exists ext. unfold after in Ha. cbn [record trace] in Ha.
  rewrite <- app_assoc in Ha. exact Ha.
Qed.

Lemma processEntry_rooted (watchPath : string) (file : os.DirEntry)
    (w : World FS) :
  rooted watchPath = true -> no_sep (os.Name file) = true ->
  eligible watchPath file = true ->
  exists ext,
    trace (snd (main.processEntry watchPath file w))
    = (trace w
         ++ ev_log "Processing file: %s\n"
              [arg_string (entry_path watchPath file)] :: ext)%list.
Proof.
  intros Hr Hn He. unfold eligible in He. apply andb_prop in He as [Hd Hm].
  apply negb_true_iff in Hd.
  destruct (entry_Dir_rooted watchPath file Hr Hn) as [t Ht].
  unfold main.processEntry. cbv zeta. fold (entry_path watchPath file).
  rewrite Hd, Hm, Ht. cbn [negb String.eqb Ascii.eqb Bool.eqb].
  unfold bind at 1.
  destruct (processFile_first file (entry_path watchPath file) w) as [ext Hx].
  destruct (main.processFile file (entry_path watchPath file) w)
    as [[changed err] w1].
  cbn [snd] in Hx.
  destruct err as [err|]; [|destruct changed];
    eexists (ext ++ [_])%list;
    unfold log_Printf; cbn [snd record trace]; rewrite Hx;
    rewrite <- app_assoc; reflexivity.
Qed.

End Guard.

(** X19.  With a watched path that starts with a separator, the loop's
    guard for proxy files never applies: every entry that is not a
    directory and whose path is a media file is handed to the workflow,
    also in a directory called [Proxy]. *)
Theorem X19_rooted_watch_path :
  forall (FS : Type) (sys : System FS) (tables : unicode.CaseTables)
         (watchPath : string) (file : os.DirEntry) (w : World FS),
    rooted watchPath = true -> no_sep (os.Name file) = true ->
    eligible watchPath file = true ->
    exists ext,
      trace (snd (main.processEntry watchPath file w))
      = (trace w
           ++ ev_log "Processing file: %s\n"
                [arg_string (entry_path watchPath file)] :: ext)%list.
Proof. intros FS sys tables. exact processEntry_rooted. Qed.

Lemma X19_rooted_watch_path_witness :
  let sys := sim.system sim.catalog (sim.probed []) in
  let file := {| os.Name := "clip.mov"; os.IsDir := false |} in
  let w := sim.world [("/media/Proxy", sim.dir);
                      ("/media/Proxy/clip.mov", sim.file)] in
  exists ext,
    trace (snd (main.processEntry (sys := sys) (tables := sim.tables)
                  "/media/Proxy" file w))
    = (trace w
         ++ ev_log "Processing file: %s\n"
              [arg_string (entry_path "/media/Proxy" file)] :: ext)%list.
Proof.
  refine (X19_rooted_watch_path _ (sim.system sim.catalog (sim.probed []))
            sim.tables
            "/media/Proxy" {| os.Name := "clip.mov"; os.IsDir := false |}
            (sim.world [("/media/Proxy", sim.dir);
                        ("/media/Proxy/clip.mov", sim.file)]) _ _ _);
    reflexivity.
Defined.

(** ** What a changed file went through *)

Section Changed.
Context {FS : Type} {sys : System FS}.

Lemma has_stream (v a : bool) : negb v && negb a = false -> v || a = true.
Proof. now destruct v, a. Qed.

Lemma GenerateProxy_changed (filePath : string) (file : os.DirEntry)
    (w : World FS) :
  fst (fst (proxy.GenerateProxy filePath file w)) = true ->
  exists info w1 pre,
    media.GetMediaInfo filePath w = ((info, None), w1)
    /\ let props := fst (media.AnalyzeMediaInfo info w1) in
       trace (snd (proxy.GenerateProxy filePath file w))
       = (trace w ++ pre
            ++ [ev_run (ffmpeg.CreateProxyCommand filePath
                          (proxy_path filePath file) props)])%list
       /\ media.HasVideoStream props || media.HasAudioStream props = true
       /\ snd (fst (proxy.GenerateProxy filePath file w)) = None.
Proof.
  unfold proxy.GenerateProxy, bind, ret, os_Stat, log_Printf. cbv zeta.
  fold (proxy_path filePath file).
  destruct (sys_Stat (proxy_path filePath file) (fs w)); [simpl; discriminate|].
  destruct (GetMediaInfo_emits (fun _ => True) filePath I w) as (x1 & A1 & _).
  destruct (media.GetMediaInfo filePath w) as [[info [e1|]] w1];
    [simpl; discriminate|].
  destruct (List.length (Streams info) =? 0)%nat; [simpl; discriminate|].
  destruct (AnalyzeMediaInfo_emits (fun _ => True) info I (fun _ _ => I) w1)
    as (x2 & A2 & _).
  destruct (media.AnalyzeMediaInfo info w1) as [props w2] eqn:EA.
  destruct (negb (media.HasVideoStream props) && negb (media.HasAudioStream props))
    eqn:Hs; [simpl; discriminate|].
  destruct (CreateProxyDirectory_emits (fun _ => True) filePath (fun _ => I) w2)
    as (x3 & A3 & _).
  destruct (proxy.CreateProxyDirectory filePath w2) as [[d [e3|]] w3];
    [simpl; discriminate|].
  rewrite CreateProxyCommand_nonempty. unfold exec_Run, record.
  cbn [fst snd fs trace] in *.
  destruct (sys_run _ _) as [[out [e4|]] files]; [simpl; discriminate|].
  intros _. unfold after in *. cbn [fst snd fs trace] in *.
  eexists info, w1, (x1 ++ x2 ++ x3 ++ [_])%list.
  split; [reflexivity|]. rewrite EA. cbn [fst].
  split; [|split; [apply has_stream; exact Hs | reflexivity]].
  rewrite A3, A2, A1. repeat rewrite <- app_assoc. reflexivity.
Qed.

Lemma processFile_changed (file : os.DirEntry) (filePath : string)
    (w : World FS) :
  fst (fst (main.processFile file filePath w)) = true ->
  exists info w1 pre post,
    main.getMediaInfo filePath
      (record (ev_log "Processing file: %s\n" [arg_string filePath]) w)
    = ((info, None), w1)
    /\ let props := fst (main.analyzeMediaInfo info w1) in
       trace (snd (main.processFile file filePath w))
       = (trace w ++ pre
            ++ ev_run (main.createFfmpegCommandForProxy filePath
                         (proxy_path filePath file) props) :: post)%list
       /\ main.hasVideoStream props || main.hasAudioStream props = true
       /\ (if main.unsupportedAudioFormat props
           then exists mid,
                  post
                  = (mid ++ [ev_Rename filePath (relocated_path filePath);
                             ev_log "Executing ffmpeg command for original file: %s\n"
                               [arg_string
                                  (String.concat " "
                                     (main.createFfmpegCommandForOriginal filePath))];
                             ev_run (main.createFfmpegCommandForOriginal filePath)])%list
           else post = [])
       /\ snd (fst (main.processFile file filePath w)) = None.
Proof.
  unfold main.processFile, bind, ret, os_Stat, log_Printf. cbv zeta.
  fold (proxy_path filePath file). cbn [fs record].
  destruct (sys_Stat (proxy_path filePath file) (fs w)); [simpl; discriminate|].
  set (w0 := record (ev_log "Processing file: %s\n" [arg_string filePath]) w).
  destruct (getMediaInfo_emits (fun _ => True) filePath I w0) as (x1 & A1 & _).
  destruct (main.getMediaInfo filePath w0) as [[info [e1|]] w1];
    [simpl; discriminate|].
  destruct (List.length (Streams info) =? 0)%nat; [simpl; discriminate|].
  destruct (analyzeMediaInfo_emits (fun _ => True) info I (fun _ _ => I) w1)
    as (x2 & A2 & _).
  destruct (main.analyzeMediaInfo info w1) as [props w2] eqn:EA.
  destruct (negb (main.hasVideoStream props) && negb (main.hasAudioStream props))
    eqn:Hs; [simpl; discriminate|].
  destruct (createProxyDirectory_emits (fun _ => True) filePath (fun _ => I) w2)
    as (x3 & A3 & _).
  destruct (main.createProxyDirectory filePath w2) as [[d [e3|]] w3];
    [simpl; discriminate|].
  rewrite createFfmpegCommandForProxy_nonempty. unfold exec_Run.
  cbn [fst snd fs trace] in *.
  destruct (sys_run _ _) as [[out [e4|]] files]; [simpl; discriminate|].
  unfold after in *. cbn [fst snd fs trace] in *.
  destruct (main.unsupportedAudioFormat props) eqn:Hu.
  - match goal with
    | |- context [main.processUnsupportedAudioOriginal filePath ?u] =>
        rewrite (processUnsupportedAudioOriginal_eq filePath u);
        pose proof (ProcessUnsupportedAudio_success filePath u) as Hok;
        destruct (audio.ProcessUnsupportedAudio filePath u) as [[e5|] w5]
    end; [simpl; discriminate|].
    intros _. destruct (Hok eq_refl) as (mid & Hmid & _).
    cbn [fst snd fs trace record] in *.
    eexists info, w1, ((ev_log "Processing file: %s\n" [arg_string filePath]
                       :: x1) ++ x2 ++ x3 ++ [_])%list.
    eexists. split; [reflexivity|]. rewrite EA. cbn [fst].
    split; [|split; [apply has_stream; exact Hs | split; [|reflexivity]]].
    + rewrite Hmid, A3, A2, A1. unfold w0. cbn [record trace].
      repeat rewrite <- app_assoc. cbn [app]. reflexivity.
    + rewrite Hu.
      exists (ev_log
                "Unsupported audio format detected. Converting to PCM for file: %s\n"
                [arg_string filePath] :: mid).
      reflexivity.
  - intros _. cbn [fst snd fs trace record] in *.
    eexists info, w1, ((ev_log "Processing file: %s\n" [arg_string filePath]
                       :: x1) ++ x2 ++ x3 ++ [_])%list, [].
    split; [reflexivity|]. rewrite EA. cbn [fst].
    split; [|split; [apply has_stream; exact Hs | split; [|reflexivity]]].
    + rewrite A3, A2, A1. unfold w0. cbn [record trace].
      repeat rewrite <- app_assoc. reflexivity.
    + now rewrite Hu.
Qed.

End Changed.

(** X20.  When the proxy workflow returns [changed], the probe had
    succeeded, the last thing done was to run the proxy plan built from the
    analysis of the probe's output, that analysis had found a video or an
    audio stream, and no error is returned. *)
Theorem X20_changed_by_proxy :
  forall (FS : Type) (sys : System FS) (filePath : string) (file : os.DirEntry)
         (w : World FS),
    fst (fst (proxy.GenerateProxy filePath file w)) = true ->
    exists info w1 pre,
      media.GetMediaInfo filePath w = ((info, None), w1)
      /\ let props := fst (media.AnalyzeMediaInfo info w1) in
         trace (snd (proxy.GenerateProxy filePath file w))
         = (trace w ++ pre
              ++ [ev_run (ffmpeg.CreateProxyCommand filePath
                            (proxy_path filePath file) props)])%list
         /\ media.HasVideoStream props || media.HasAudioStream props = true
         /\ snd (fst (proxy.GenerateProxy filePath file w)) = None.
Proof. intros FS sys. exact GenerateProxy_changed. Qed.

Lemma X20_changed_by_proxy_witness :
  let sys :=
    sim.system sim.catalog
      (sim.probed [sim.video "yuv420p" 1920 1080; sim.audio "aac"]) in
  let filePath := "/media/clip.mp4" in
  let file := {| os.Name := "clip.mp4"; os.IsDir := false |} in
  let w := sim.world [("/media", sim.dir); ("/media/clip.mp4", sim.file)] in
  exists info w1 pre,
    media.GetMediaInfo (sys := sys) filePath w = ((info, None), w1)
    /\ let props := fst (media.AnalyzeMediaInfo (sys := sys) info w1) in
       trace (snd (proxy.GenerateProxy (sys := sys) filePath file w))
       = (trace w ++ pre
            ++ [ev_run (ffmpeg.CreateProxyCommand filePath
                          (proxy_path filePath file) props)])%list
       /\ media.HasVideoStream props || media.HasAudioStream props = true
       /\ snd (fst (proxy.GenerateProxy (sys := sys) filePath file w)) = None.
Proof.
  refine (X20_changed_by_proxy _
            (sim.system sim.catalog
               (sim.probed [sim.video "yuv420p" 1920 1080; sim.audio "aac"]))
            "/media/clip.mp4" {| os.Name := "clip.mp4"; os.IsDir := false |}
            (sim.world [("/media", sim.dir); ("/media/clip.mp4", sim.file)]) _).
  vm_compute. reflexivity.
Defined.

(** X21.  When the workflow of [main] returns [changed], the probe had
    succeeded, the proxy plan built from the analysis of its output was
    run, the analysis had found a video or an audio stream, and no error
    is returned.  With a supported audio format the plan's run is the last
    event; with an unsupported one, what follows ends with the move of the
    file to [Originals] and the run of its conversion back. *)
Theorem X21_changed_by_main :
  forall (FS : Type) (sys : System FS) (file : os.DirEntry) (filePath : string)
         (w : World FS),
    fst (fst (main.processFile file filePath w)) = true ->
    exists info w1 pre post,
      main.getMediaInfo filePath
        (record (ev_log "Processing file: %s\n" [arg_string filePath]) w)
      = ((info, None), w1)
      /\ let props := fst (main.analyzeMediaInfo info w1) in
         trace (snd (main.processFile file filePath w))
         = (trace w ++ pre
              ++ ev_run (main.createFfmpegCommandForProxy filePath
                           (proxy_path filePath file) props) :: post)%list
         /\ main.hasVideoStream props || main.hasAudioStream props = true
         /\ (if main.unsupportedAudioFormat props
             then exists mid,
                    post
                    = (mid ++ [ev_Rename filePath (relocated_path filePath);
                               ev_log "Executing ffmpeg command for original file: %s\n"
                                 [arg_string
                                    (String.concat " "
                                       (main.createFfmpegCommandForOriginal filePath))];
                               ev_run (main.createFfmpegCommandForOriginal filePath)])%list
             else post = [])
         /\ snd (fst (main.processFile file filePath w)) = None.
Proof. intros FS sys. exact processFile_changed. Qed.

Lemma X21_changed_by_main_witness :
  let sys :=
    sim.system sim.catalog
      (sim.probed [sim.video "yuv420p" 1920 1080; sim.audio "aac"]) in
  let filePath := "/media/clip.mp4" in
  let file := {| os.Name := "clip.mp4"; os.IsDir := false |} in
  let w := sim.world [("/media", sim.dir); ("/media/clip.mp4", sim.file)] in
  exists info w1 pre post,
    main.getMediaInfo (sys := sys) filePath
      (record (ev_log "Processing file: %s\n" [arg_string filePath]) w)
    = ((info, None), w1)
    /\ let props := fst (main.analyzeMediaInfo (sys := sys) info w1) in
       trace (snd (main.processFile (sys := sys) file filePath w))
       = (trace w ++ pre
            ++ ev_run (main.createFfmpegCommandForProxy filePath
                         (proxy_path filePath file) props) :: post)%list
       /\ main.hasVideoStream props || main.hasAudioStream props = true
       /\ (if main.unsupportedAudioFormat props
           then exists mid,
                  post
                  = (mid ++ [ev_Rename filePath (relocated_path filePath);
                             ev_log "Executing ffmpeg command for original file: %s\n"
                               [arg_string
                                  (String.concat " "
                                     (main.createFfmpegCommandForOriginal filePath))];
                             ev_run (main.createFfmpegCommandForOriginal filePath)])%list
           else post = [])
       /\ snd (fst (main.processFile (sys := sys) file filePath w)) = None.
Proof.
  refine (X21_changed_by_main _
            (sim.system sim.catalog
               (sim.probed [sim.video "yuv420p" 1920 1080; sim.audio "aac"]))
            {| os.Name := "clip.mp4"; os.IsDir := false |} "/media/clip.mp4"
            (sim.world [("/media", sim.dir); ("/media/clip.mp4", sim.file)]) _).
  vm_compute. reflexivity.
Defined.
